(** * Single-user secret rotation handlers (MariaDB and PostgreSQL variants)

    A shallow embedding of [lambda_code/mariadb/single/lambda_function.py]
    and [lambda_code/postgres/single/lambda_function.py].

    - A secret payload (the result of [json.loads]) is a [gmap string json].
    - [VersionIdsToStages] is an association list, because [finish_secret]
      iterates over it in order and breaks at the first match.
    - The vault (boto3 client) and the database driver are external: the
      vault is a state that the handlers read and write, the driver is a
      read-only oracle; both record the calls that have an effect outside
      the process in an event list.
    - Python exceptions are values of [exn]; a handler is a function from
      the vault state to an [outcome] (result, final vault, events).
    - Calls to [logger] have no effect on the result and are left out. *)

From stdpp Require Import base option list strings gmap fin_maps.
From Stdlib Require Import ZArith Ascii String DecimalString.

Open Scope string_scope.

(** ** Python values found in a secret payload *)

(** Values of the fields the handlers read: JSON scalars.  [JNum] is a
    Python [int]. *)
Inductive json :=
| JNull
| JBool (b : bool)
| JNum (n : Z)
| JStr (s : string).

#[global] Instance json_eq_dec : EqDecision json.
Proof. solve_decision. Defined.

(** Python [==]: [bool] is a subclass of [int], so [True == 1]. *)
Definition py_eq (x y : json) : bool :=
  match x, y with
  | JNull, JNull => true
  | JBool a, JBool b => Bool.eqb a b
  | JNum a, JNum b => Z.eqb a b
  | JStr a, JStr b => String.eqb a b
  | JBool a, JNum b | JNum b, JBool a => Z.eqb b (if a then 1 else 0)%Z
  | _, _ => false
  end.

Definition py_ne (x y : json) : bool := negb (py_eq x y).

(** [str(int)] *)
Definition str_of_Z (n : Z) : string := NilZero.string_of_int (Z.to_int n).

(** [str(x)], as used by [%s] and by f-strings. *)
Definition py_str (x : json) : string :=
  match x with
  | JNull => "None"
  | JBool true => "True"
  | JBool false => "False"
  | JNum n => str_of_Z n
  | JStr s => s
  end.

(** [str.lower()] on the bytes of the string; no character outside ASCII
    lower-cases to a letter of "true" or "false". *)
Definition lower_ascii (c : ascii) : ascii :=
  let n := nat_of_ascii c in
  if (65 <=? n)%nat && (n <=? 90)%nat then ascii_of_nat (n + 32) else c.

Fixpoint lower (s : string) : string :=
  match s with
  | EmptyString => EmptyString
  | String c r => String (lower_ascii c) (lower r)
  end.

(** [c in s] for a character. *)
Fixpoint mem_ascii (c : ascii) (s : string) : bool :=
  match s with
  | EmptyString => false
  | String d r => Ascii.eqb c d || mem_ascii c r
  end.

(** ** Exceptions and the handler monad *)

Inductive exn :=
| ResourceNotFoundException
| ResourceExistsException
| InvalidParameterException
| ParamValidationError
| KeyError (msg : string)
| ValueError (msg : string)
| TypeError (msg : string)
| DriverError (msg : string).

Inductive result (A : Type) :=
| Ok (a : A)
| Raise (e : exn).
Arguments Ok {A} a.
Arguments Raise {A} e.

Definition is_raise {A} (r : result A) : bool :=
  match r with Raise _ => true | Ok _ => false end.

(** ** [int(x)] and [urllib.parse.quote_plus] *)

Definition is_digit (c : ascii) : bool :=
  let n := nat_of_ascii c in (48 <=? n)%nat && (n <=? 57)%nat.

Definition digit_val (c : ascii) : Z := Z.of_nat (nat_of_ascii c - 48).

(** ASCII white space stripped by [int]. *)
Definition is_space (c : ascii) : bool :=
  let n := nat_of_ascii c in
  ((9 <=? n)%nat && (n <=? 13)%nat) || ((28 <=? n)%nat && (n <=? 32)%nat).

Fixpoint lstrip (s : string) : string :=
  match s with
  | String c r => if is_space c then lstrip r else s
  | EmptyString => EmptyString
  end.

Fixpoint rstrip (s : string) : string :=
  match s with
  | String c r =>
      match rstrip r with
      | EmptyString => if is_space c then EmptyString else String c EmptyString
      | r' => String c r'
      end
  | EmptyString => EmptyString
  end.

(** Decimal digits with single underscores between digits. *)
Fixpoint int_digits (s : string) (acc : Z) (after_digit : bool) : option Z :=
  match s with
  | EmptyString => if after_digit then Some acc else None
  | String c r =>
      if is_digit c then int_digits r (acc * 10 + digit_val c)%Z true
      else if Ascii.eqb c "_" && after_digit then int_digits r acc false
      else None
  end.

Definition int_of_string (s : string) : option Z :=
  match lstrip (rstrip s) with
  | String "-" r => Z.opp <$> int_digits r 0%Z false
  | String "+" r => int_digits r 0%Z false
  | r => int_digits r 0%Z false
  end.

(** [int(x)] for a payload value. *)
Definition py_int (x : json) : result Z :=
  match x with
  | JNum n => Ok n
  | JBool b => Ok (if b then 1 else 0)%Z
  | JStr s =>
      match int_of_string s with
      | Some n => Ok n
      | None => Raise (ValueError ("invalid literal for int() with base 10: " ++ s))
      end
  | JNull => Raise (TypeError "int() argument must be a string, a bytes-like object or a real number, not 'NoneType'")
  end.

Definition is_alnum (c : ascii) : bool :=
  let n := nat_of_ascii c in
  is_digit c || ((65 <=? n)%nat && (n <=? 90)%nat) || ((97 <=? n)%nat && (n <=? 122)%nat).

(** Characters [urllib.parse.quote] never escapes. *)
Definition always_safe (c : ascii) : bool := is_alnum c || mem_ascii c "_.-~".

Definition hex_digit (n : nat) : ascii :=
  match String.get n "0123456789ABCDEF" with Some c => c | None => "0"%char end.

Definition percent (c : ascii) : string :=
  let n := nat_of_ascii c in
  String "%" (String (hex_digit (n / 16)) (String (hex_digit (n mod 16)) EmptyString)).

(** [urllib.parse.quote(s, safe)] on the UTF-8 bytes of [s]. *)
Fixpoint quote (safe : string) (s : string) : string :=
  match s with
  | EmptyString => EmptyString
  | String c r =>
      if always_safe c || mem_ascii c safe then String c (quote safe r)
      else percent c ++ quote safe r
  end.

(** [s.replace(' ', '+')] *)
Fixpoint replace_space_plus (s : string) : string :=
  match s with
  | EmptyString => EmptyString
  | String c r => String (if Ascii.eqb c " " then "+"%char else c) (replace_space_plus r)
  end.

(** [urllib.parse.quote_plus(s)] *)
Definition quote_plus (s : string) : string :=
  if negb (mem_ascii " " s) then quote "" s
  else replace_space_plus (quote " " s).

(** ** The vault and the database driver *)

Abbreviation dict := (gmap string json).

(** A stored [SecretString]: either the text of a JSON object or something
    [json.loads] rejects. *)
Inductive secret_string :=
| Json (d : dict)
| NotJson (text : string).

#[global] Instance secret_string_eq_dec : EqDecision secret_string.
Proof. solve_decision. Defined.

(** The part of the vault the handlers see, for the one secret being
    rotated (spec, section 6: [describeSecret], [getSecretValue]). *)
Record vault := Vault {
  RotationEnabled : option bool;
  VersionIdsToStages : list (string * list string);
  SecretStrings : gmap string secret_string
}.

(** An optional keyword argument of a client call: left out, or passed
    (possibly as [None]). *)
Inductive kwarg :=
| Omitted
| Passed (x : option string).

Inductive transport :=
| Ssl (use_ssl : bool)
| SslMode (sslmode : json).

(** Arguments of [pymysql.connect] / [psycopg.connect]; [connect_timeout]
    is the constant 5 in both. *)
Record conn_args := ConnArgs {
  c_host : json;
  c_user : json;
  c_password : json;
  c_port : Z;
  c_database : json;
  c_transport : transport
}.

Record random_request := RandomRequest {
  ExcludeCharacters : string;
  PasswordLength : Z;
  ExcludeNumbers : bool;
  ExcludePunctuation : bool;
  ExcludeUppercase : bool;
  ExcludeLowercase : bool;
  RequireEachIncludedType : bool
}.

(** What a connection attempt does: it yields a session, raises the
    driver's [OperationalError], raises another error of the driver, or
    raises something else. *)
Inductive connect_result :=
| Connected
| OperationalError
| OtherDriverError
| Crash (e : exn).

(** The environment of one invocation: the database (as an oracle), the
    process environment and the vault's password generator. *)
Record env := Env {
  connect : conn_args -> connect_result;
  execute : conn_args -> string -> list json -> option exn;
  commit : conn_args -> option exn;
  environ : gmap string string;
  random_password_api : random_request -> result string
}.

(** Calls that reach the database or change the vault.  A session is
    identified by the arguments it was opened with. *)
Inductive event :=
| EvConnect (a : conn_args) (ok : bool)
| EvExecute (c : conn_args) (statement : string) (args : list json)
| EvCommit (c : conn_args)
| EvClose (c : conn_args)
| EvGetRandomPassword (req : random_request)
| EvPutSecretValue (token : string) (secret : dict) (stages : list string)
| EvUpdateStage (stage : string) (move_to remove_from : kwarg).

Record outcome (A : Type) := Outcome {
  res : result A;
  st : vault;
  evs : list event
}.
Arguments Outcome {A} res st evs.
Arguments res {A} o.
Arguments st {A} o.
Arguments evs {A} o.

Definition M (A : Type) : Type := vault -> outcome A.

Definition ret {A} (a : A) : M A := fun v => Outcome (Ok a) v [].

Definition raise {A} (e : exn) : M A := fun v => Outcome (Raise e) v [].

Definition lift {A} (r : result A) : M A := fun v => Outcome r v [].

Definition emit (e : event) : M unit := fun v => Outcome (Ok tt) v [e].

Definition bind {A B} (m : M A) (k : A -> M B) : M B :=
  fun v =>
    match m v with
    | Outcome (Ok a) v1 l1 =>
        match k a v1 with
        | Outcome r v2 l2 => Outcome r v2 (l1 ++ l2)
        end
    | Outcome (Raise e) v1 l1 => Outcome (Raise e) v1 l1
    end.

(** [try: m except <the e with h e = Some k>: k] *)
Definition try_except {A} (m : M A) (h : exn -> option (M A)) : M A :=
  fun v =>
    match m v with
    | Outcome (Raise e) v1 l1 =>
        match h e with
        | Some k =>
            match k v1 with
            | Outcome r v2 l2 => Outcome r v2 (l1 ++ l2)
            end
        | None => Outcome (Raise e) v1 l1
        end
    | o => o
    end.

(** [try: m finally: f] *)
Definition finally {A} (m : M A) (f : M unit) : M A :=
  fun v =>
    match m v with
    | Outcome r v1 l1 =>
        match f v1 with
        | Outcome (Ok _) v2 l2 => Outcome r v2 (l1 ++ l2)
        | Outcome (Raise e) v2 l2 => Outcome (Raise e) v2 (l1 ++ l2)
        end
    end.

Declare Scope py_scope.
Delimit Scope py_scope with py.
Notation "'let*' x := m 'in' k" := (bind m (fun x => k))
  (at level 10, x name, m at level 100, k at level 200) : py_scope.
Notation "m >> k" := (bind m (fun _ => k))
  (at level 65, right associativity) : py_scope.
Open Scope py_scope.

(** [d[k]] *)
Definition item (d : dict) (k : string) : result json :=
  match d !! k with
  | Some x => Ok x
  | None => Raise (KeyError k)
  end.

(** [d.get(k, default)] *)
Definition get_default (d : dict) (k : string) (default : json) : json :=
  match d !! k with
  | Some x => x
  | None => default
  end.

(** [k in d] *)
Definition has_key (d : dict) (k : string) : bool :=
  match d !! k with Some _ => true | None => false end.

(** [x in l] for a list of strings. *)
Definition elem (x : string) (l : list string) : bool := bool_decide (x ∈ l).

Fixpoint assoc {A} (k : string) (l : list (string * A)) : option A :=
  match l with
  | [] => None
  | (k', a) :: r => if String.eqb k k' then Some a else assoc k r
  end.

(** ** The vault client

    The client is not part of the repository; these definitions follow
    the interface of spec section 6 and the label rules of section 3
    (a label is on at most one version, labels move atomically). *)

Definition AWSCURRENT : string := "AWSCURRENT".
Definition AWSPENDING : string := "AWSPENDING".
Definition AWSPREVIOUS : string := "AWSPREVIOUS".

(** Versions carrying [stage], in the order of [VersionIdsToStages]. *)
Fixpoint holders (stage : string) (vs : list (string * list string)) : list string :=
  match vs with
  | [] => []
  | (t, stages) :: r =>
      if elem stage stages then t :: holders stage r else holders stage r
  end.

(** Take [stage] off version [t]. *)
Fixpoint detach (stage t : string) (vs : list (string * list string))
  : list (string * list string) :=
  match vs with
  | [] => []
  | (t', stages) :: r =>
      (t', if String.eqb t t' then filter (fun s => s ≠ stage) stages else stages)
        :: detach stage t r
  end.

(** Take [stage] off every version. *)
Fixpoint detach_all (stage : string) (vs : list (string * list string))
  : list (string * list string) :=
  match vs with
  | [] => []
  | (t', stages) :: r => (t', filter (fun s => s ≠ stage) stages) :: detach_all stage r
  end.

(** Put [stage] on version [t], listing [t] if it was not. *)
Fixpoint attach (stage t : string) (vs : list (string * list string))
  : list (string * list string) :=
  match vs with
  | [] => [(t, [stage])]
  | (t', stages) :: r =>
      if String.eqb t t'
      then (t', if elem stage stages then stages else (stages ++ [stage])%list) :: r
      else (t', stages) :: attach stage t r
  end.

(** [describe_secret]: the two keys of the reply the handlers read. *)
Definition describe_secret : M (option bool * list (string * list string)) :=
  fun v => Outcome (Ok (RotationEnabled v, VersionIdsToStages v)) v [].

(** [get_secret_value(SecretId, VersionId?, VersionStage)]: the payload of
    the version carrying the stage (and having the given id, when one is
    passed); the not-found condition otherwise. *)
Definition get_secret_value (VersionId : option string) (VersionStage : string)
  : M secret_string :=
  fun v =>
    let version :=
      match VersionId with
      | Some t =>
          match assoc t (VersionIdsToStages v) with
          | Some stages => if elem VersionStage stages then Some t else None
          | None => None
          end
      | None => head (holders VersionStage (VersionIdsToStages v))
      end in
    match version with
    | Some t =>
        match SecretStrings v !! t with
        | Some s => Outcome (Ok s) v []
        | None => Outcome (Raise ResourceNotFoundException) v []
        end
    | None => Outcome (Raise ResourceNotFoundException) v []
    end.

(** [put_secret_value(SecretId, ClientRequestToken, SecretString,
    VersionStages)]: stores the payload under the token and moves the
    stages onto it.  A token that already has this payload is left as it
    is; one that has another payload is refused. *)
Definition put_secret_value (token : string) (secret : dict) (stages : list string)
  : M unit :=
  fun v =>
    let ev := [EvPutSecretValue token secret stages] in
    match SecretStrings v !! token with
    | Some s =>
        if decide (s = Json secret) then Outcome (Ok tt) v ev
        else Outcome (Raise ResourceExistsException) v ev
    | None =>
        Outcome (Ok tt)
          (Vault (RotationEnabled v)
                 (foldr (fun s vs => attach s token (detach_all s vs))
                        (VersionIdsToStages v) stages)
                 (<[token := Json secret]> (SecretStrings v)))
          ev
    end.

(** [update_secret_version_stage(SecretId, VersionStage, MoveToVersionId?,
    RemoveFromVersionId?)].  A keyword passed as [None] is refused by the
    client.  [RemoveFromVersionId] must carry the stage; [MoveToVersionId]
    must be a listed version, and a holder of the stage other than it must
    be the one named by [RemoveFromVersionId].  Moving [AWSCURRENT] from one
    version to another leaves [AWSPREVIOUS] on the version it came from. *)
Definition update_secret_version_stage
    (VersionStage : string) (MoveToVersionId RemoveFromVersionId : kwarg) : M unit :=
  fun v =>
    let ev := [EvUpdateStage VersionStage MoveToVersionId RemoveFromVersionId] in
    let vs := VersionIdsToStages v in
    match MoveToVersionId, RemoveFromVersionId with
    | Passed None, _ | _, Passed None => Outcome (Raise ParamValidationError) v ev
    | _, _ =>
        let move := match MoveToVersionId with Passed x => x | Omitted => None end in
        let remove := match RemoveFromVersionId with Passed x => x | Omitted => None end in
        let remove_ok :=
          match remove with
          | Some r => elem r (holders VersionStage vs)
          | None => true
          end in
        let move_known :=
          match move with
          | Some m => elem m (map fst vs)
          | None => true
          end in
        let move_ok :=
          match move with
          | Some m =>
              forallb (fun h => bool_decide (h = m) || bool_decide (Some h = remove))
                      (holders VersionStage vs)
          | None => true
          end in
        if negb move_known then Outcome (Raise ResourceNotFoundException) v ev
        else if negb (remove_ok && move_ok)
        then Outcome (Raise InvalidParameterException) v ev
        else
          let vs1 := match remove with Some r => detach VersionStage r vs | None => vs end in
          let vs2 := match move with Some m => attach VersionStage m vs1 | None => vs1 end in
          let vs3 :=
            match move, remove with
            | Some m, Some r =>
                if bool_decide (VersionStage = AWSCURRENT) && negb (bool_decide (m = r))
                then attach AWSPREVIOUS r (detach_all AWSPREVIOUS vs2)
                else vs2
            | _, _ => vs2
            end in
          Outcome (Ok tt) (Vault (RotationEnabled v) vs3 (SecretStrings v)) ev
    end.

(** ** Functions shared by the two handlers *)

Inductive engine := mariadb | postgres.

(** [json.loads(plaintext)] *)
Definition json_loads (s : secret_string) : result dict :=
  match s with
  | Json d => Ok d
  | NotJson _ => Raise (ValueError "Expecting value")
  end.

(** The engine test of [get_secret_dict]: [!= 'mariadb'] in one handler,
    [not in supported_engines] in the other. *)
Definition supported_engines : list json :=
  [JStr "postgres"; JStr "aurora-postgresql"; JStr "postgresql"].

Definition check_engine (eng : engine) (secret_dict : dict) : result unit :=
  match eng with
  | mariadb =>
      if negb (has_key secret_dict "engine")
         || py_ne (get_default secret_dict "engine" JNull) (JStr "mariadb")
      then Raise (KeyError "Database engine must be set to 'mariadb' in order to use this rotation lambda")
      else Ok tt
  | postgres =>
      if negb (has_key secret_dict "engine")
         || negb (existsb (py_eq (get_default secret_dict "engine" JNull)) supported_engines)
      then Raise (KeyError "Database engine must be set to 'postgres,postgresql or aurora-postgresql' in order to use this rotation lambda")
      else Ok tt
  end.

Definition required_fields : list string := ["host"; "username"; "password"].

(** [for field in required_fields: if field not in secret_dict: raise] *)
Fixpoint check_fields (fields : list string) (secret_dict : dict) : result unit :=
  match fields with
  | [] => Ok tt
  | field :: rest =>
      if negb (has_key secret_dict field)
      then Raise (KeyError (field ++ " key is missing from secret JSON"))
      else check_fields rest secret_dict
  end.

(** [if token:] *)
Definition truthy (token : option string) : bool :=
  match token with
  | Some t => negb (String.eqb t "")
  | None => false
  end.

Definition get_secret_dict (eng : engine) (arn stage : string) (token : option string)
  : M dict :=
  let* secret :=
    (if truthy token then get_secret_value token stage
     else get_secret_value None stage) in
  let* secret_dict := lift (json_loads secret) in
  lift (check_engine eng secret_dict) >>
  lift (check_fields required_fields secret_dict) >>
  ret secret_dict.

Definition get_environment_bool (E : env) (variable_name : string) (default_value : bool)
  : bool :=
  let variable :=
    match environ E !! variable_name with
    | Some x => x
    | None => py_str (JBool default_value)
    end in
  elem (lower variable) ["true"; "1"; "y"; "yes"].

(** The default of [EXCLUDE_CHARACTERS]; character 34 is the double quote. *)
Definition default_exclude_characters : string :=
  ":/" ++ String "034"%char "'\$%&*()[]{}<>?!.,;|`".

Definition get_random_password (E : env) : M string :=
  let* length :=
    lift (match environ E !! "PASSWORD_LENGTH" with
          | Some x => py_int (JStr x)
          | None => py_int (JNum 32)
          end) in
  let req :=
    RandomRequest
      (match environ E !! "EXCLUDE_CHARACTERS" with
       | Some x => x
       | None => default_exclude_characters
       end)
      length
      (get_environment_bool E "EXCLUDE_NUMBERS" false)
      (get_environment_bool E "EXCLUDE_PUNCTUATION" false)
      (get_environment_bool E "EXCLUDE_UPPERCASE" false)
      (get_environment_bool E "EXCLUDE_LOWERCASE" false)
      (get_environment_bool E "REQUIRE_EACH_INCLUDED_TYPE" true) in
  emit (EvGetRandomPassword req) >>
  lift (random_password_api E req).

(** [if conn:] *)
Definition connected (conn : option conn_args) : bool :=
  match conn with Some _ => true | None => false end.

(** Session methods. *)
Definition close (c : conn_args) : M unit := emit (EvClose c).

Definition cursor_execute (E : env) (c : conn_args) (statement : string) (args : list json)
  : M unit :=
  emit (EvExecute c statement args) >>
  match execute E c statement args with
  | None => ret tt
  | Some e => raise e
  end.

Definition conn_commit (E : env) (c : conn_args) : M unit :=
  emit (EvCommit c) >>
  match commit E c with
  | None => ret tt
  | Some e => raise e
  end.

(** [secret_dict.get('connection_string_type') == t] *)
Definition type_is (secret_dict : dict) (t : string) : bool :=
  match secret_dict !! "connection_string_type" with
  | Some x => py_eq x (JStr t)
  | None => false
  end.

(** [{secret_dict.get(k, default)}] inside an f-string. *)
Definition fget (secret_dict : dict) (k : string) (default : json) : string :=
  py_str (get_default secret_dict k default).

Definition not_supported : string := "(connection string type not supported)".

(** [for version in metadata["VersionIdsToStages"]: ...] of [finish_secret]:
    [None] when the loop returns from the function, [Some current_version]
    when it is left by [break] or runs to its end. *)
Fixpoint find_current (token : string) (versions : list (string * list string))
  : option (option string) :=
  match versions with
  | [] => Some None
  | (version, stages) :: rest =>
      if elem AWSCURRENT stages
      then if String.eqb version token then None else Some (Some version)
      else find_current token rest
  end.

Definition finish_secret (arn token : string) : M unit :=
  let* metadata := describe_secret in
  match find_current token (snd metadata) with
  | None => ret tt
  | Some current_version =>
      update_secret_version_stage AWSCURRENT (Passed (Some token)) (Passed current_version) >>
      update_secret_version_stage AWSPENDING Omitted (Passed (Some token))
  end.

(** ** [lambda_code/mariadb/single/lambda_function.py] *)

Module Mariadb.

Definition get_ssl_config (secret_dict : dict) : bool * bool :=
  match secret_dict !! "ssl" with
  | None => (true, true)
  | Some (JBool b) => (b, false)
  | Some (JStr s) =>
      let ssl := lower s in
      if String.eqb ssl "true" then (true, false)
      else if String.eqb ssl "false" then (false, false)
      else (true, true)
  | Some _ => (true, true)
  end.

Definition connect_and_authenticate
    (E : env) (secret_dict : dict) (port : Z) (dbname : json) (use_ssl : bool)
  : M (option conn_args) :=
  let* host := lift (item secret_dict "host") in
  let* user := lift (item secret_dict "username") in
  let* password := lift (item secret_dict "password") in
  let a := ConnArgs host user password port dbname (Ssl use_ssl) in
  match connect E a with
  | Connected => emit (EvConnect a true) >> ret (Some a)
  | OperationalError => emit (EvConnect a false) >> ret None
  | OtherDriverError => emit (EvConnect a false) >> raise (DriverError "pymysql.Error")
  | Crash e => emit (EvConnect a false) >> raise e
  end.

Definition get_connection (E : env) (secret_dict : dict) : M (option conn_args) :=
  let* port :=
    lift (match secret_dict !! "port" with
          | Some p => py_int p
          | None => Ok 3306%Z
          end) in
  let dbname := get_default secret_dict "dbname" JNull in
  let '(use_ssl, fall_back) := get_ssl_config secret_dict in
  let* conn := connect_and_authenticate E secret_dict port dbname use_ssl in
  if connected conn || negb fall_back then ret conn
  else connect_and_authenticate E secret_dict port dbname false.

(** The last block of [set_secret]: [try: with conn.cursor() as cur: ...
    finally: conn.close()]. *)
Definition change_password (E : env) (conn : conn_args) (pending_dict : dict) : M unit :=
  finally
    (let* password := lift (item pending_dict "password") in
     cursor_execute E conn "SET PASSWORD = PASSWORD(%s)" [password] >>
     conn_commit E conn)
    (close conn).

Definition set_secret (E : env) (arn token : string) : M unit :=
  let* previous_dict :=
    try_except
      (let* d := get_secret_dict mariadb arn AWSPREVIOUS None in ret (Some d))
      (fun e =>
         match e with
         | ResourceNotFoundException | KeyError _ => Some (ret None)
         | _ => None
         end) in
  let* current_dict := get_secret_dict mariadb arn AWSCURRENT None in
  let* pending_dict := get_secret_dict mariadb arn AWSPENDING (Some token) in
  let* conn := get_connection E pending_dict in
  match conn with
  | Some c => close c >> ret tt
  | None =>
      let* current_username := lift (item current_dict "username") in
      let* pending_username := lift (item pending_dict "username") in
      if py_ne current_username pending_username
      then raise (ValueError ("Attempting to modify user " ++ py_str pending_username
                              ++ " other than current user " ++ py_str current_username))
      else
      let* current_host := lift (item current_dict "host") in
      let* pending_host := lift (item pending_dict "host") in
      if py_ne current_host pending_host
      then raise (ValueError ("Attempting to modify user for host " ++ py_str pending_host
                              ++ " other than current host " ++ py_str current_host))
      else
      let* conn := get_connection E current_dict in
      let* conn :=
        match conn, previous_dict with
        | None, Some previous_dict =>
            if bool_decide (previous_dict = ∅) then ret conn
            else
            let previous_dict := delete "ssl" previous_dict in
            let previous_dict :=
              match current_dict !! "ssl" with
              | Some x => <["ssl" := x]> previous_dict
              | None => previous_dict
              end in
            let* conn := get_connection E previous_dict in
            let* previous_username := lift (item previous_dict "username") in
            let* pending_username := lift (item pending_dict "username") in
            if py_ne previous_username pending_username
            then raise (ValueError ("Attempting to modify user " ++ py_str pending_username
                                    ++ " other than last valid user " ++ py_str previous_username))
            else
            let* previous_host := lift (item previous_dict "host") in
            let* pending_host := lift (item pending_dict "host") in
            if py_ne previous_host pending_host
            then raise (ValueError ("Attempting to modify user for host " ++ py_str pending_host
                                    ++ " other than previous host " ++ py_str previous_host))
            else ret conn
        | _, _ => ret conn
        end in
      match conn with
      | None =>
          raise (ValueError ("Unable to log into database with previous, current, or pending secret of secret arn " ++ arn))
      | Some c => change_password E c pending_dict
      end
  end.

Definition generate_connection_string (secret_dict : dict) (new_password : string)
  : result string :=
  let encoded_password := quote_plus new_password in
  let port := fget secret_dict "port" (JNum 5432) in
  let dbname := fget secret_dict "dbname" JNull in
  let sslmode := fget secret_dict "sslmode" JNull in
  let schema := fget secret_dict "schema" (JStr "public") in
  if type_is secret_dict "jdbc" then
    match item secret_dict "host", item secret_dict "username" with
    | Raise e, _ | Ok _, Raise e => Raise e
    | Ok host, Ok username =>
        Ok ("jdbc:postgresql://" ++ py_str host ++ ":" ++ port ++ "/" ++ dbname
            ++ "?user=" ++ py_str username ++ "&password=" ++ encoded_password
            ++ "ssl=true&sslmode=" ++ sslmode ++ "&schema=" ++ schema)
    end
  else if type_is secret_dict "dotnet" then
    match item secret_dict "host", item secret_dict "username" with
    | Raise e, _ | Ok _, Raise e => Raise e
    | Ok host, Ok username =>
        Ok ("Host=" ++ py_str host ++ ";Port=" ++ port ++ ";Database=" ++ dbname
            ++ ";Username=" ++ py_str username ++ ";Password=" ++ encoded_password
            ++ ";SSL Mode=" ++ sslmode ++ ";Search Path=" ++ schema ++ ";")
    end
  else if type_is secret_dict "odbc" then
    match item secret_dict "host", item secret_dict "username" with
    | Raise e, _ | Ok _, Raise e => Raise e
    | Ok host, Ok username =>
        Ok ("Driver={PostgreSQL ODBC Driver(UNICODE)};Server=" ++ py_str host
            ++ ";Port=" ++ port ++ ";Database=" ++ dbname
            ++ ";UID=" ++ py_str username ++ ";PWD=" ++ encoded_password
            ++ ";sslmode=" ++ sslmode ++ ";schema=" ++ schema)
    end
  else if type_is secret_dict "gopq" then
    match item secret_dict "username", item secret_dict "host" with
    | Raise e, _ | Ok _, Raise e => Raise e
    | Ok username, Ok host =>
        Ok ("postgres://" ++ py_str username ++ ":" ++ encoded_password ++ "@"
            ++ py_str host ++ ":" ++ port ++ "/" ++ dbname
            ++ "?sslmode=" ++ sslmode ++ "&schema=" ++ schema)
    end
  else if type_is secret_dict "node-pg" || type_is secret_dict "psycopg"
          || type_is secret_dict "rustpg" then
    match item secret_dict "username", item secret_dict "host" with
    | Raise e, _ | Ok _, Raise e => Raise e
    | Ok username, Ok host =>
        Ok ("postgressql://" ++ py_str username ++ ":" ++ encoded_password ++ "@"
            ++ py_str host ++ ":" ++ port ++ "/" ++ dbname
            ++ "?sslmode=" ++ sslmode ++ "&schema=" ++ schema)
    end
  else Ok not_supported.

End Mariadb.

(** ** [lambda_code/postgres/single/lambda_function.py] *)

Module Postgres.

Definition get_connection (E : env) (secret_dict : dict) : M (option conn_args) :=
  let* port :=
    lift (match secret_dict !! "port" with
          | Some p => py_int p
          | None => Ok 5432%Z
          end) in
  let dbname := get_default secret_dict "dbname" (JStr "postgres") in
  let sslmode := get_default secret_dict "sslmode" (JStr "prefer") in
  let* host := lift (item secret_dict "host") in
  let* user := lift (item secret_dict "username") in
  let* password := lift (item secret_dict "password") in
  let a := ConnArgs host user password port dbname (SslMode sslmode) in
  match connect E a with
  | Connected => emit (EvConnect a true) >> ret (Some a)
  | OperationalError | OtherDriverError => emit (EvConnect a false) >> ret None
  | Crash e => emit (EvConnect a false) >> raise e
  end.

(** [secret_dict.copy()] followed by the assignment of ['password']: the
    argument is left as it is.  The handler calls it for the log line of a
    failed connection. *)
Definition redact_secret_dict (secret_dict : dict) : dict :=
  let secret_dict_cp := secret_dict in
  <["password" := JStr "REDACTED"]> secret_dict_cp.

(** The last block of [set_secret]: [try: with conn.cursor() as cur: ...
    finally: conn.close()]. *)
Definition change_password (E : env) (conn : conn_args) (pending_dict : dict) : M unit :=
  finally
    (let* username := lift (item pending_dict "username") in
     let* password := lift (item pending_dict "password") in
     let alter_role :=
       "ALTER ROLE " ++ py_str username ++ " WITH ENCRYPTED PASSWORD '"
       ++ py_str password ++ "'" in
     cursor_execute E conn alter_role [] >>
     conn_commit E conn)
    (close conn).

Definition set_secret (E : env) (arn token : string) : M unit :=
  let* pending_dict := get_secret_dict postgres arn AWSPENDING (Some token) in
  let* conn := get_connection E pending_dict in
  match conn with
  | Some c => close c >> ret tt
  | None =>
      let* conn :=
        (let* current_dict := get_secret_dict postgres arn AWSCURRENT None in
         get_connection E current_dict) in
      let* conn :=
        match conn with
        | None =>
            try_except
              (let* previous_dict := get_secret_dict postgres arn AWSPREVIOUS None in
               get_connection E previous_dict)
              (fun e =>
                 match e with
                 | ResourceNotFoundException => Some (ret None)
                 | _ => None
                 end)
        | Some _ => ret conn
        end in
      match conn with
      | None =>
          raise (ValueError ("Unable to log into database with previous, current, or pending secret of secret arn " ++ arn))
      | Some c => change_password E c pending_dict
      end
  end.

Definition generate_connection_string (secret_dict : dict) (new_password : string)
  : result string :=
  let encoded_password := quote_plus new_password in
  let port := fget secret_dict "port" (JNum 5432) in
  let dbname := fget secret_dict "dbname" JNull in
  let sslmode := fget secret_dict "sslmode" JNull in
  let schema := fget secret_dict "schema" (JStr "public") in
  if type_is secret_dict "jdbc" then
    match item secret_dict "host", item secret_dict "username" with
    | Raise e, _ | Ok _, Raise e => Raise e
    | Ok host, Ok username =>
        Ok ("jdbc:postgresql://" ++ py_str host ++ ":" ++ port ++ "/" ++ dbname
            ++ "?user=" ++ py_str username ++ "&password=" ++ encoded_password
            ++ "&ssl=true&sslmode=" ++ sslmode ++ "&schema=" ++ schema)
    end
  else if type_is secret_dict "dotnet" then
    match item secret_dict "host", item secret_dict "username" with
    | Raise e, _ | Ok _, Raise e => Raise e
    | Ok host, Ok username =>
        Ok ("Host=" ++ py_str host ++ ";Port=" ++ port ++ ";Database=" ++ dbname
            ++ ";Username=" ++ py_str username ++ ";Password=" ++ new_password
            ++ ";SSL Mode=" ++ sslmode ++ ";Search Path=" ++ schema ++ ";")
    end
  else if type_is secret_dict "odbc" then
    match item secret_dict "host", item secret_dict "username" with
    | Raise e, _ | Ok _, Raise e => Raise e
    | Ok host, Ok username =>
        Ok ("Driver={PostgreSQL ODBC Driver(UNICODE)};Server=" ++ py_str host
            ++ ";Port=" ++ port ++ ";Database=" ++ dbname
            ++ ";UID=" ++ py_str username ++ ";PWD=" ++ new_password
            ++ ";sslmode=" ++ sslmode ++ ";schema=" ++ schema)
    end
  else if type_is secret_dict "gopq" then
    match item secret_dict "username", item secret_dict "host" with
    | Raise e, _ | Ok _, Raise e => Raise e
    | Ok username, Ok host =>
        Ok ("postgres://" ++ py_str username ++ ":" ++ encoded_password ++ "@"
            ++ py_str host ++ ":" ++ port ++ "/" ++ dbname
            ++ "?sslmode=" ++ sslmode ++ "&schema=" ++ schema)
    end
  else if type_is secret_dict "node-pg" || type_is secret_dict "psycopg"
          || type_is secret_dict "rustpg" then
    match item secret_dict "username", item secret_dict "host" with
    | Raise e, _ | Ok _, Raise e => Raise e
    | Ok username, Ok host =>
        Ok ("postgressql://" ++ py_str username ++ ":" ++ encoded_password ++ "@"
            ++ py_str host ++ ":" ++ port ++ "/" ++ dbname
            ++ "?sslmode=" ++ sslmode ++ "&schema=" ++ schema)
    end
  else Ok not_supported.

End Postgres.

(** ** The steps that read the same in both files, and the dispatcher *)

Definition get_connection (eng : engine) : env -> dict -> M (option conn_args) :=
  match eng with
  | mariadb => Mariadb.get_connection
  | postgres => Postgres.get_connection
  end.

Definition generate_connection_string (eng : engine) : dict -> string -> result string :=
  match eng with
  | mariadb => Mariadb.generate_connection_string
  | postgres => Postgres.generate_connection_string
  end.

Definition set_secret (eng : engine) : env -> string -> string -> M unit :=
  match eng with
  | mariadb => Mariadb.set_secret
  | postgres => Postgres.set_secret
  end.

Definition create_secret (eng : engine) (E : env) (arn token : string) : M unit :=
  let* current_dict := get_secret_dict eng arn AWSCURRENT None in
  try_except
    (get_secret_dict eng arn AWSPENDING (Some token) >> ret tt)
    (fun e =>
       match e with
       | ResourceNotFoundException =>
           Some
             (let* random_pass := get_random_password E in
              let current_dict := <["password" := JStr random_pass]> current_dict in
              let* current_dict :=
                (if has_key current_dict "connection_string"
                 then
                   let* s := lift (generate_connection_string eng current_dict random_pass) in
                   ret (<["connection_string" := JStr s]> current_dict)
                 else ret current_dict) in
              put_secret_value token current_dict [AWSPENDING])
       | _ => None
       end).

Definition test_secret (eng : engine) (E : env) (arn token : string) : M unit :=
  let* pending_dict := get_secret_dict eng arn AWSPENDING (Some token) in
  let* conn := get_connection eng E pending_dict in
  match conn with
  | Some c =>
      finally
        (cursor_execute E c "SELECT NOW()" [] >> conn_commit E c)
        (close c)
  | None =>
      raise (ValueError ("Unable to log into database with pending secret of secret ARN " ++ arn))
  end.

(** The invocation payload. *)
Record rotation_event := RotationEvent {
  SecretId : string;
  ClientRequestToken : string;
  Step : string
}.

Definition lambda_handler (eng : engine) (E : env) (event : rotation_event) : M unit :=
  let arn := SecretId event in
  let token := ClientRequestToken event in
  let step := Step event in
  let* endpoint :=
    lift (match environ E !! "SECRETS_MANAGER_ENDPOINT" with
          | Some x => Ok x
          | None => Raise (KeyError "SECRETS_MANAGER_ENDPOINT")
          end) in
  let* metadata := describe_secret in
  if match fst metadata with Some enabled => negb enabled | None => false end
  then raise (ValueError ("Secret " ++ arn ++ " is not enabled for rotation"))
  else
  let versions := snd metadata in
  match assoc token versions with
  | None =>
      raise (ValueError ("Secret version " ++ token ++ " has no stage for rotation of secret " ++ arn ++ "."))
  | Some stages =>
      if elem AWSCURRENT stages then ret tt
      else if negb (elem AWSPENDING stages)
      then raise (ValueError ("Secret version " ++ token ++ " not set as AWSPENDING for rotation of secret " ++ arn ++ "."))
      else if String.eqb step "createSecret" then create_secret eng E arn token
      else if String.eqb step "setSecret" then set_secret eng E arn token
      else if String.eqb step "testSecret" then test_secret eng E arn token
      else if String.eqb step "finishSecret" then finish_secret arn token
      else raise (ValueError ("Invalid step parameter " ++ step ++ " for secret " ++ arn))
  end.

(** ** Vocabulary of the properties *)

(** What one call of the driver gives back to
    [Mariadb.connect_and_authenticate]. *)
Definition attempt_result (E : env) (a : conn_args) : result (option conn_args) :=
  match connect E a with
  | Connected => Ok (Some a)
  | OperationalError => Ok None
  | OtherDriverError => Raise (DriverError "pymysql.Error")
  | Crash e => Raise e
  end.

Definition succeeded (E : env) (a : conn_args) : bool :=
  match connect E a with Connected => true | _ => false end.

(** The [ssl] values for which the resolver tries both transports: the key
    is absent, or its value is neither a [bool] nor a string, or it is a
    string that is neither "true" nor "false" in lower case. *)
Definition unrecognized_ssl (x : option json) : Prop :=
  match x with
  | None => True
  | Some (JBool _) => False
  | Some (JStr s) => lower s ≠ "true" ∧ lower s ≠ "false"
  | Some _ => True
  end.

(** The [ssl] values that fix the transport to [b]. *)
Definition ssl_says (x : option json) (b : bool) : Prop :=
  x = Some (JBool b)
  ∨ ∃ s, x = Some (JStr s) ∧ lower s = (if b then "true" else "false").

(** ** Concrete records, vaults and environments *)

(** A database that accepts exactly the logins [accept] says, a driver
    whose statements succeed, the endpoint set and a generator that
    returns [fresh]. *)
Definition env_of (accept : conn_args -> bool) (fresh : string) : env :=
  Env (fun a => if accept a then Connected else OperationalError)
      (fun _ _ _ => None)
      (fun _ => None)
      {["SECRETS_MANAGER_ENDPOINT" := "https://secretsmanager.example"]}
      (fun _ => Ok fresh).

Definition accepts_password (p : string) (a : conn_args) : bool :=
  py_eq (c_password a) (JStr p).

Definition record (engine_name user pass : string) : dict :=
  list_to_map [("engine", JStr engine_name); ("host", JStr "db1");
               ("username", JStr user); ("password", JStr pass);
               ("dbname", JStr "appdb")].

Definition empty_vault : vault := Vault None [] ∅.

(** The encoding of the password in the connection strings: a letter, a
    digit or one of [_.-~] stands for itself, a space becomes [+], any
    other byte becomes [%XX]. *)
Definition form_encode_char (c : ascii) : string :=
  if always_safe c then String c EmptyString
  else if Ascii.eqb c " " then "+"
  else percent c.

Fixpoint form_encode (s : string) : string :=
  match s with
  | EmptyString => EmptyString
  | String c r => form_encode_char c ++ form_encode r
  end.

(** The values of [connection_string_type] that select a template, and
    those whose template is a URI. *)
Definition known_types : list string :=
  ["jdbc"; "dotnet"; "odbc"; "gopq"; "node-pg"; "psycopg"; "rustpg"].

Definition uri_types : list string :=
  ["jdbc"; "gopq"; "node-pg"; "psycopg"; "rustpg"].

(** A record asking for the JDBC form, with no [port]. *)
Definition jdbc_record : dict :=
  list_to_map [("engine", JStr "postgres"); ("host", JStr "h");
               ("username", JStr "u"); ("password", JStr "old");
               ("dbname", JStr "d"); ("connection_string_type", JStr "jdbc");
               ("connection_string", JStr "stale")].

(** [sub in s] for strings. *)
Fixpoint contains (sub s : string) : bool :=
  String.prefix sub s
  || match s with
     | String _ r => contains sub r
     | EmptyString => false
     end.

Definition step_names : list string :=
  ["createSecret"; "setSecret"; "testSecret"; "finishSecret"].

(** The scenario of spec section 8: [v1] is current, [v2] awaits rotation
    and has no payload yet. *)
Definition scenario_vault : vault :=
  Vault (Some true)
        [("v1", [AWSCURRENT]); ("v2", [AWSPENDING])]
        {["v1" := Json (record "mariadb" "app" "old")]}.

(** The moves of [finish_secret] when [c] holds [AWSCURRENT]. *)
Definition promotion (token c : string) : list event :=
  [EvUpdateStage AWSCURRENT (Passed (Some token)) (Passed (Some c));
   EvUpdateStage AWSPENDING Omitted (Passed (Some token))].

(** Version [v2] has its payload and awaits promotion. *)
Definition staged_vault : vault :=
  Vault (Some true)
        [("v0", [AWSPREVIOUS]); ("v1", [AWSCURRENT]); ("v2", [AWSPENDING])]
        {["v0" := Json (record "mariadb" "app" "older");
          "v1" := Json (record "mariadb" "app" "old");
          "v2" := Json (record "mariadb" "app" "new")]}.

(** The result of [get_secret_dict]; the call changes nothing and reaches
    neither the database nor a writing operation of the vault. *)
Definition fetch (eng : engine) (arn stage : string) (token : option string) (v : vault)
  : result dict :=
  res (get_secret_dict eng arn stage token v).

(** [int(os.environ.get('PASSWORD_LENGTH', 32))] and the request
    [get_random_password] sends. *)
Definition configured_length (E : env) : result Z :=
  match environ E !! "PASSWORD_LENGTH" with
  | Some x => py_int (JStr x)
  | None => py_int (JNum 32)
  end.

Definition password_request (E : env) (length : Z) : random_request :=
  RandomRequest
    (match environ E !! "EXCLUDE_CHARACTERS" with
     | Some x => x
     | None => default_exclude_characters
     end)
    length
    (get_environment_bool E "EXCLUDE_NUMBERS" false)
    (get_environment_bool E "EXCLUDE_PUNCTUATION" false)
    (get_environment_bool E "EXCLUDE_UPPERCASE" false)
    (get_environment_bool E "EXCLUDE_LOWERCASE" false)
    (get_environment_bool E "REQUIRE_EACH_INCLUDED_TYPE" true).

(** The vault after [put_secret_value] has stored [secret] under a token
    that had no payload, with the one stage [AWSPENDING]. *)
Definition stored (token : string) (secret : dict) (v : vault) : vault :=
  Vault (RotationEnabled v)
        (attach AWSPENDING token (detach_all AWSPENDING (VersionIdsToStages v)))
        (<[token := Json secret]> (SecretStrings v)).

(** One call of [get_connection]: its result and the connection attempts
    it makes.  The vault plays no part in it. *)
Definition login (eng : engine) (E : env) (d : dict) : outcome (option conn_args) :=
  get_connection eng E d empty_vault.

Definition prepend {A} (l : list event) (o : outcome A) : outcome A :=
  Outcome (res o) (st o) (l ++ evs o).

Definition is_connect (e : event) : bool :=
  match e with EvConnect _ _ => true | _ => false end.

(** A session was opened. *)
Definition is_session (e : event) : bool :=
  match e with EvConnect _ true => true | _ => false end.

Definition is_execute (e : event) : bool :=
  match e with EvExecute _ _ _ => true | _ => false end.

(** [a] and [b] name the same user on the same host, as [!=] sees it. *)
Definition same_account (a b : dict) : bool :=
  py_eq (get_default a "username" JNull) (get_default b "username" JNull)
  && py_eq (get_default a "host" JNull) (get_default b "host" JNull).

(** The password-change statement of each handler and its arguments. *)
Definition change_statement (eng : engine) (pending : dict) : string * list json :=
  match eng with
  | mariadb => ("SET PASSWORD = PASSWORD(%s)", [get_default pending "password" JNull])
  | postgres =>
      ("ALTER ROLE " ++ py_str (get_default pending "username" JNull)
       ++ " WITH ENCRYPTED PASSWORD '"
       ++ py_str (get_default pending "password" JNull) ++ "'", [])
  end.

(** What running a statement on session [c], committing and closing gives:
    the session is closed whatever happens. *)
Definition statement_outcome (E : env) (c : conn_args) (stmt : string * list json)
  : result unit * list event :=
  match execute E c stmt.1 stmt.2 with
  | Some e => (Raise e, [EvExecute c stmt.1 stmt.2; EvClose c])
  | None =>
      match commit E c with
      | Some e => (Raise e, [EvExecute c stmt.1 stmt.2; EvCommit c; EvClose c])
      | None => (Ok tt, [EvExecute c stmt.1 stmt.2; EvCommit c; EvClose c])
      end
  end.

(** The fetches that come before the first login of [set_secret] succeed,
    and [AWSPENDING] holds [pending].  In the MariaDB handler a missing or
    invalid [AWSPREVIOUS] counts as success. *)
Definition reaches_login (eng : engine) (arn token : string) (v : vault) (pending : dict)
  : Prop :=
  match eng with
  | mariadb =>
      match fetch mariadb arn AWSPREVIOUS None v with
      | Ok _ | Raise ResourceNotFoundException | Raise (KeyError _) => True
      | Raise _ => False
      end
      ∧ (exists cur, fetch mariadb arn AWSCURRENT None v = Ok cur)
      ∧ fetch mariadb arn AWSPENDING (Some token) v = Ok pending
  | postgres => fetch postgres arn AWSPENDING (Some token) v = Ok pending
  end.

(** [previous_dict] after the MariaDB handler has replaced its [ssl]
    setting by the one of [current_dict]. *)
Definition inherit_ssl (current_dict previous_dict : dict) : dict :=
  match current_dict !! "ssl" with
  | Some x => <["ssl" := x]> (delete "ssl" previous_dict)
  | None => delete "ssl" previous_dict
  end.

Definition unable (arn : string) : exn :=
  ValueError ("Unable to log into database with previous, current, or pending secret of secret arn " ++ arn).

(** The outcome of [set_secret] once session [c] is open and the logins
    before it have made the attempts [l]: the statement is run with the
    values of [pending]. *)
Definition changed (eng : engine) (E : env) (v : vault) (pending : dict)
    (c : conn_args) (l : list event) : outcome unit :=
  Outcome (statement_outcome E c (change_statement eng pending)).1 v
          (l ++ (statement_outcome E c (change_statement eng pending)).2).

(** The [try] around the [AWSPREVIOUS] fetch of the MariaDB handler. *)
Definition mariadb_previous (arn : string) (v : vault) : result (option dict) :=
  match fetch mariadb arn AWSPREVIOUS None v with
  | Ok d => Ok (Some d)
  | Raise ResourceNotFoundException | Raise (KeyError _) => Ok None
  | Raise e => Raise e
  end.

(** The errors of the account checks of the MariaDB [set_secret]. *)
Definition wrong_user (what : string) (pending_user other_user : json) : exn :=
  ValueError ("Attempting to modify user " ++ py_str pending_user
              ++ " other than " ++ what ++ " user " ++ py_str other_user).

Definition wrong_host (what : string) (pending_host other_host : json) : exn :=
  ValueError ("Attempting to modify user for host " ++ py_str pending_host
              ++ " other than " ++ what ++ " host " ++ py_str other_host).

(** The accounts of the failing input of C1: the pending payload names
    [bob], the current one [alice]; the database knows the password
    [old]. *)
Definition crossed_vault : vault :=
  Vault (Some true)
        [("v1", [AWSCURRENT]); ("v2", [AWSPENDING])]
        {["v1" := Json (record "postgres" "alice" "old");
          "v2" := Json (record "postgres" "bob" "new")]}.

Definition conn_of (user pass : string) (t : transport) : conn_args :=
  ConnArgs (JStr "db1") (JStr user) (JStr pass)
           (match t with Ssl _ => 3306 | SslMode _ => 5432 end)%Z (JStr "appdb") t.

(** Two versions and no [AWSPREVIOUS]: [v1] is current with password
    [old], [v2] is pending with password [new], for the same account. *)
Definition two_version_vault (engine_name : string) : vault :=
  Vault (Some true)
        [("v1", [AWSCURRENT]); ("v2", [AWSPENDING])]
        {["v1" := Json (record engine_name "app" "old");
          "v2" := Json (record engine_name "app" "new")]}.

(** The input of the counterexample of C5: the previous payload names
    another user and asks for [sslmode] [disable], the current one asks for
    [require]; only the previous password works. *)
Definition fallback_vault : vault :=
  Vault (Some true)
        [("v0", [AWSPREVIOUS]); ("v1", [AWSCURRENT]); ("v2", [AWSPENDING])]
        {["v0" := Json (<["sslmode" := JStr "disable"]> (record "postgres" "carol" "older"));
          "v1" := Json (<["sslmode" := JStr "require"]> (record "postgres" "app" "old"));
          "v2" := Json (<["sslmode" := JStr "require"]> (record "postgres" "app" "new"))]}.

(** The input of the counterexample of C9: the previous payload has no
    [host]. *)
Definition broken_previous_vault : vault :=
  Vault (Some true)
        [("v0", [AWSPREVIOUS]); ("v1", [AWSCURRENT]); ("v2", [AWSPENDING])]
        {["v0" := Json (delete "host" (record "mariadb" "app" "older"));
          "v1" := Json (record "mariadb" "app" "old");
          "v2" := Json (record "mariadb" "app" "new")]}.

(** The engine names a handler accepts. *)
Definition accepted (eng : engine) (x : json) : bool :=
  match eng with
  | mariadb => py_eq x (JStr "mariadb")
  | postgres => existsb (py_eq x) supported_engines
  end.

(** A payload [get_secret_dict] rejects: no [engine], an engine the
    handler does not accept, or a required field missing. *)
Definition invalid_payload (eng : engine) (d : dict) : Prop :=
  d !! "engine" = None
  ∨ (exists x, d !! "engine" = Some x ∧ accepted eng x = false)
  ∨ (exists f, f ∈ required_fields ∧ d !! f = None).

(** The previous payload names another user and says [ssl: false]; the
    current one says [ssl: "true"]. *)
Definition mariadb_fallback_vault : vault :=
  Vault (Some true)
        [("v0", [AWSPREVIOUS]); ("v1", [AWSCURRENT]); ("v2", [AWSPENDING])]
        {["v0" := Json (<["ssl" := JBool false]> (record "mariadb" "carol" "older"));
          "v1" := Json (<["ssl" := JStr "true"]> (record "mariadb" "app" "old"));
          "v2" := Json (record "mariadb" "app" "new")]}.

(** The handler a step name selects. *)
Definition handler_of (eng : engine) (E : env) (step : string)
  : option (string -> string -> M unit) :=
  if String.eqb step "createSecret" then Some (create_secret eng E)
  else if String.eqb step "setSecret" then Some (set_secret eng E)
  else if String.eqb step "testSecret" then Some (test_secret eng E)
  else if String.eqb step "finishSecret" then Some finish_secret
  else None.

(** ** Vocabulary of the further properties *)

(** The payloads [get_secret_dict] returns: the engine is one the handler
    accepts and the three required fields are present. *)
Definition valid_payload (eng : engine) (d : dict) : Prop :=
  (exists x, d !! "engine" = Some x ∧ accepted eng x = true)
  ∧ forall f, f ∈ required_fields -> is_Some (d !! f).



(** Calls of the database driver, and the other recorded calls (those of
    the vault). *)
Definition is_database_call (e : event) : bool :=
  match e with
  | EvConnect _ _ | EvExecute _ _ _ | EvCommit _ | EvClose _ => true
  | _ => false
  end.

Definition is_vault_call (e : event) : bool := negb (is_database_call e).

(** The defaults of [get_connection] in each handler, and
    [int(secret_dict['port']) if 'port' in secret_dict else <default>]. *)
Definition default_port (eng : engine) : Z :=
  match eng with mariadb => 3306 | postgres => 5432 end.

Definition default_dbname (eng : engine) : json :=
  match eng with mariadb => JNull | postgres => JStr "postgres" end.

Definition port_of (eng : engine) (d : dict) : result Z :=
  match d !! "port" with
  | Some x => py_int x
  | None => Ok (default_port eng)
  end.

(** The arguments of an attempt, with another transport. *)
Definition with_transport (a : conn_args) (t : transport) : conn_args :=
  ConnArgs (c_host a) (c_user a) (c_password a) (c_port a) (c_database a) t.

(** The statement of [test_secret] and the error it raises when the login
    gives no session. *)
Definition probe : string * list json := ("SELECT NOW()", []).

Definition no_login (arn : string) : exn :=
  ValueError ("Unable to log into database with pending secret of secret ARN " ++ arn).

(** The characters of an encoded password: those [quote] leaves alone, the
    [+] that stands for a space and the [%] of an escape. *)
Definition url_safe (c : ascii) : bool :=
  always_safe c || Ascii.eqb c "+" || Ascii.eqb c "%".

Fixpoint all_chars (P : ascii -> bool) (s : string) : bool :=
  match s with
  | EmptyString => true
  | String c r => P c && all_chars P r
  end.

(** A left inverse of [form_encode].  It is no part of the handlers; it
    serves to show that the encoding loses nothing. *)
Definition unhex (c : ascii) : nat :=
  let n := nat_of_ascii c in
  if (n <=? 57)%nat then n - 48 else n - 55.

Fixpoint form_decode (s : string) : string :=
  match s with
  | EmptyString => EmptyString
  | String c r =>
      if Ascii.eqb c "%" then
        match r with
        | String a (String b r') =>
            String (ascii_of_nat (16 * unhex a + unhex b)) (form_decode r')
        | _ => String c (form_decode r)
        end
      else if Ascii.eqb c "+" then String " " (form_decode r)
      else String c (form_decode r)
  end.

(** * Properties *)

(** ** Case analysis on the code *)

Ltac break_match :=
  match goal with
  | |- context [match ?x with _ => _ end] => destruct x eqn:?
  end.

Ltac run := cbv [bind ret raise lift emit try_except finally close]; simpl.

Lemma py_eq_str (x : json) (s : string) : py_eq x (JStr s) = true <-> x = JStr s.
Proof.
  destruct x; simpl; split; try discriminate.
  - intros H. apply String.eqb_eq in H. by subst.
  - intros [= ->]. apply String.eqb_refl.
Qed.

Lemma elem_true (x : string) (l : list string) : elem x l = true <-> x ∈ l.
Proof. unfold elem. apply bool_decide_eq_true. Qed.

Lemma elem_false (x : string) (l : list string) : elem x l = false <-> x ∉ l.
Proof. unfold elem. apply bool_decide_eq_false. Qed.

(** ** The connection resolver of the MariaDB handler *)

Section Resolver.

Variable E : env.

#[local] Abbreviation attempt_result := (attempt_result E).
#[local] Abbreviation succeeded := (succeeded E).

Lemma get_ssl_config_unrecognized (d : dict) :
  unrecognized_ssl (d !! "ssl") -> Mariadb.get_ssl_config d = (true, true).
Proof.
  unfold unrecognized_ssl, Mariadb.get_ssl_config.
  destruct (d !! "ssl") as [[| b | n | s]|]; try done.
  intros [Ht Hf].
  destruct (String.eqb_spec (lower s) "true"); [done|].
  destruct (String.eqb_spec (lower s) "false"); done.
Qed.

Lemma get_ssl_config_says (d : dict) (b : bool) :
  ssl_says (d !! "ssl") b -> Mariadb.get_ssl_config d = (b, false).
Proof.
  unfold ssl_says, Mariadb.get_ssl_config.
  intros [-> | (s & -> & Hs)]; [done|].
  rewrite Hs. by destruct b.
Qed.

Lemma connect_and_authenticate_eq (d : dict) (h u pw : json) (p : Z) (db : json)
    (b : bool) (v : vault) :
  d !! "host" = Some h -> d !! "username" = Some u -> d !! "password" = Some pw ->
  let a := ConnArgs h u pw p db (Ssl b) in
  Mariadb.connect_and_authenticate E d p db b v
  = Outcome (attempt_result a) v [EvConnect a (succeeded a)].
Proof.
  intros Hh Hu Hp a.
  unfold Mariadb.connect_and_authenticate, item, attempt_result, succeeded.
  rewrite Hh, Hu, Hp. run. fold a.
  by destruct (connect E a).
Qed.

(** C8.  For a record with its required fields and a usable port: when
    [ssl] is absent, of another type than bool or string, or a string other
    than "true"/"false" in any letter case, the resolver tries an encrypted
    connection and, when that one fails, tries once more without
    encryption; when [ssl] is a boolean, or the string "true" or "false" in
    any letter case, it makes exactly one attempt with that value and
    returns what this attempt gives (no session when it fails). *)
Theorem transport_policy (d : dict) (h u pw : json) (p : Z) (v : vault) :
  d !! "host" = Some h -> d !! "username" = Some u -> d !! "password" = Some pw ->
  match d !! "port" with Some x => py_int x | None => Ok 3306%Z end = Ok p ->
  let args b := ConnArgs h u pw p (get_default d "dbname" JNull) (Ssl b) in
  let o := Mariadb.get_connection E d v in
  (unrecognized_ssl (d !! "ssl") ->
     (connect E (args true) = Connected ->
        o = Outcome (Ok (Some (args true))) v [EvConnect (args true) true])
     ∧ (connect E (args true) = OperationalError ->
        o = Outcome (attempt_result (args false)) v
              [EvConnect (args true) false;
               EvConnect (args false) (succeeded (args false))]))
  ∧ (forall b, ssl_says (d !! "ssl") b ->
       o = Outcome (attempt_result (args b)) v [EvConnect (args b) (succeeded (args b))])
  ∧ (forall s, d !! "ssl" = Some (JStr s) -> lower s = "true" ->
       connect E (args true) = OperationalError ->
       o = Outcome (Ok None) v [EvConnect (args true) false]).
Proof.
  intros Hh Hu Hp Hport args o.
  assert (Hstep : forall b fb, Mariadb.get_ssl_config d = (b, fb) ->
            o = match attempt_result (args b) with
                | Ok conn =>
                    if connected conn || negb fb
                    then Outcome (Ok conn) v [EvConnect (args b) (succeeded (args b))]
                    else Outcome (attempt_result (args false)) v
                           [EvConnect (args b) (succeeded (args b));
                            EvConnect (args false) (succeeded (args false))]
                | Raise e => Outcome (Raise e) v [EvConnect (args b) (succeeded (args b))]
                end).
  { intros b fb Hcfg. subst o. unfold Mariadb.get_connection.
    rewrite Hport, Hcfg. unfold bind at 1. unfold lift at 1. simpl.
    unfold bind.
    rewrite (connect_and_authenticate_eq d h u pw p _ b v Hh Hu Hp).
    fold (args b).
    destruct (attempt_result (args b)) as [conn|e]; [|done].
    destruct (connected conn || negb fb); [done|].
    rewrite (connect_and_authenticate_eq d h u pw p _ false v Hh Hu Hp).
    done. }
  split; [|split].
  - intros Hun. rewrite (Hstep _ _ (get_ssl_config_unrecognized d Hun)).
    unfold attempt_result, succeeded.
    split; intros ->; done.
  - intros b Hb. rewrite (Hstep _ _ (get_ssl_config_says d b Hb)).
    destruct (attempt_result (args b)) as [conn|e]; [|done].
    by rewrite orb_true_r.
  - intros s Hs Hl Hc.
    rewrite (Hstep true false).
    + unfold attempt_result, succeeded. by rewrite Hc.
    + apply get_ssl_config_says. right. by exists s.
Qed.

End Resolver.

Lemma transport_policy_witness :
  Mariadb.get_connection (env_of (fun _ => false) "n3w")
    (<["ssl" := JStr "TRUE"]> (record "mariadb" "app" "old")) empty_vault
  = Outcome (Ok None) empty_vault
      [EvConnect (ConnArgs (JStr "db1") (JStr "app") (JStr "old") 3306 (JStr "appdb")
                           (Ssl true)) false].
Proof.
  pose proof (transport_policy (env_of (fun _ => false) "n3w")
                (<["ssl" := JStr "TRUE"]> (record "mariadb" "app" "old"))
                (JStr "db1") (JStr "app") (JStr "old") 3306 empty_vault
                eq_refl eq_refl eq_refl eq_refl) as (_ & _ & H).
  exact (H "TRUE" eq_refl eq_refl eq_refl).
Defined.

(** ** The connection-string formatter *)

Lemma append_assoc (s1 s2 s3 : string) : (s1 ++ s2) ++ s3 = s1 ++ s2 ++ s3.
Proof.
  induction s1 as [|a s1 IH]; [done|].
  change (String a ((s1 ++ s2) ++ s3) = String a (s1 ++ s2 ++ s3)).
  by rewrite IH.
Qed.

Lemma append_cons (a : ascii) (s1 s2 : string) : String a s1 ++ s2 = String a (s1 ++ s2).
Proof. done. Qed.

Lemma append_nil (s : string) : "" ++ s = s.
Proof. done. Qed.

Lemma always_safe_not_space (c : ascii) : always_safe c = true -> Ascii.eqb c " " = false.
Proof. destruct (Ascii.eqb_spec c " ") as [->|]; [discriminate|done]. Qed.

Lemma hex_digit_not_space (n : nat) : Ascii.eqb (hex_digit n) " " = false.
Proof. do 17 (destruct n as [|n]; [done|]). done. Qed.

Lemma replace_percent (c : ascii) (s : string) :
  replace_space_plus (percent c ++ s) = percent c ++ replace_space_plus s.
Proof.
  unfold percent. rewrite !append_cons, append_nil. simpl.
  by rewrite !hex_digit_not_space.
Qed.

Lemma quote_cons (safe : string) (c : ascii) (r : string) :
  quote safe (String c r)
  = if always_safe c || mem_ascii c safe then String c (quote safe r)
    else percent c ++ quote safe r.
Proof. done. Qed.

Lemma form_encode_cons (c : ascii) (r : string) :
  form_encode (String c r) = form_encode_char c ++ form_encode r.
Proof. done. Qed.

Lemma replace_cons (c : ascii) (r : string) :
  replace_space_plus (String c r)
  = String (if Ascii.eqb c " " then "+"%char else c) (replace_space_plus r).
Proof. done. Qed.

Lemma quote_space_form (s : string) : replace_space_plus (quote " " s) = form_encode s.
Proof.
  induction s as [|c s IH]; [done|].
  rewrite quote_cons, form_encode_cons. unfold form_encode_char.
  change (mem_ascii c " ") with (Ascii.eqb c " " || false). rewrite orb_false_r.
  destruct (always_safe c) eqn:Hs.
  - rewrite orb_true_l, replace_cons, (always_safe_not_space c Hs), IH. done.
  - rewrite orb_false_l. destruct (Ascii.eqb c " ") eqn:Hc.
    + by rewrite replace_cons, Hc, IH.
    + by rewrite replace_percent, IH.
Qed.

Lemma quote_plain_form (s : string) : mem_ascii " " s = false -> quote "" s = form_encode s.
Proof.
  induction s as [|c s IH]; [done|].
  change (mem_ascii " " (String c s)) with (Ascii.eqb " " c || mem_ascii " " s).
  intros [Hc Hs]%orb_false_elim. rewrite Ascii.eqb_sym in Hc.
  rewrite quote_cons, form_encode_cons. unfold form_encode_char.
  change (mem_ascii c "") with false.
  rewrite orb_false_r, Hc, (IH Hs).
  by destruct (always_safe c).
Qed.

Lemma quote_plus_form (s : string) : quote_plus s = form_encode s.
Proof.
  unfold quote_plus. destruct (mem_ascii " " s) eqn:H; simpl.
  - apply quote_space_form.
  - by apply quote_plain_form.
Qed.

Lemma form_encode_app (s1 s2 : string) :
  form_encode (s1 ++ s2) = form_encode s1 ++ form_encode s2.
Proof.
  induction s1 as [|c s1 IH]; [done|].
  rewrite append_cons. simpl. by rewrite IH, append_assoc.
Qed.

Lemma type_is_str (d : dict) (t t' : string) :
  d !! "connection_string_type" = Some (JStr t) -> type_is d t' = String.eqb t t'.
Proof. unfold type_is. by intros ->. Qed.

Lemma type_is_other (d : dict) (t : string) :
  d !! "connection_string_type" ≠ Some (JStr t) -> type_is d t = false.
Proof.
  unfold type_is. intros H. destruct (d !! "connection_string_type") as [x|]; [|done].
  destruct (py_eq x (JStr t)) eqn:Heq; [|done].
  apply py_eq_str in Heq. by subst.
Qed.

Lemma generate_not_supported (eng : engine) (d : dict) (pw : string) :
  (forall t, t ∈ known_types -> d !! "connection_string_type" ≠ Some (JStr t)) ->
  generate_connection_string eng d pw = Ok not_supported.
Proof.
  intros H.
  assert (Hk : forall t, t ∈ known_types -> type_is d t = false).
  { intros t Ht. by apply type_is_other, H. }
  destruct eng; simpl;
    unfold Mariadb.generate_connection_string, Postgres.generate_connection_string;
    rewrite !Hk; try done; unfold known_types; set_solver.
Qed.

Lemma prefix3 (a1 a2 a3 x : string) : a1 ++ a2 ++ a3 ++ x = (a1 ++ a2 ++ a3) ++ x.
Proof. by rewrite !append_assoc. Qed.

Lemma prefix9 (a1 a2 a3 a4 a5 a6 a7 a8 a9 x : string) :
  a1 ++ a2 ++ a3 ++ a4 ++ a5 ++ a6 ++ a7 ++ a8 ++ a9 ++ x
  = (a1 ++ a2 ++ a3 ++ a4 ++ a5 ++ a6 ++ a7 ++ a8 ++ a9) ++ x.
Proof. by rewrite !append_assoc. Qed.

Lemma generate_uri (eng : engine) (d : dict) (t : string) (h u : json) :
  t ∈ uri_types ->
  d !! "connection_string_type" = Some (JStr t) ->
  d !! "host" = Some h -> d !! "username" = Some u ->
  exists pre post, forall pw,
    generate_connection_string eng d pw = Ok (pre ++ form_encode pw ++ post).
Proof.
  intros Ht Hty Hh Hu. unfold uri_types in Ht.
  repeat (apply elem_of_cons in Ht as [-> | Ht]); [..|by apply elem_of_nil in Ht];
    destruct eng; simpl;
    unfold Mariadb.generate_connection_string, Postgres.generate_connection_string, item;
    rewrite !(type_is_str d _ _ Hty), Hh, Hu; simpl;
    eexists _, _; intros pw; rewrite quote_plus_form;
    first [ rewrite prefix9; reflexivity | rewrite prefix3; reflexivity ].
Qed.

Lemma generate_jdbc (eng : engine) (d : dict) (h u : json) (pw : string) :
  d !! "connection_string_type" = Some (JStr "jdbc") -> d !! "port" = None ->
  d !! "host" = Some h -> d !! "username" = Some u ->
  exists post,
    generate_connection_string eng d pw
    = Ok ("jdbc:postgresql://" ++ py_str h ++ ":5432/" ++ fget d "dbname" JNull
          ++ "?user=" ++ py_str u ++ "&password=" ++ form_encode pw ++ post).
Proof.
  intros Hty Hport Hh Hu.
  destruct eng; simpl;
    unfold Mariadb.generate_connection_string, Postgres.generate_connection_string, item;
    rewrite !(type_is_str d _ _ Hty), Hh, Hu; simpl;
    rewrite quote_plus_form; unfold fget at 1, get_default; rewrite Hport;
    eexists; reflexivity.
Qed.

(** C10, amended.  The formatter is a function of the record and the new
    password.  A [connection_string_type] that is none of the seven known
    names (or is absent) gives the sentinel text and no error.  In the URI
    forms the password appears encoded: letters, digits and [_.-~] as they
    are, a space as [+], every other byte as [%XX].  For ["jdbc"] with no
    [port], the text starts with host, port 5432, database and user, and the
    password segment holds the encoded password. *)
Theorem connection_string_format (eng : engine) (d : dict) (pw : string) :
  ((forall t, t ∈ known_types -> d !! "connection_string_type" ≠ Some (JStr t)) ->
     generate_connection_string eng d pw = Ok not_supported)
  ∧ quote_plus pw = form_encode pw
  ∧ (forall a b, quote_plus (a ++ " " ++ b) = quote_plus a ++ "+" ++ quote_plus b)
  ∧ (forall t h u,
       t ∈ uri_types -> d !! "connection_string_type" = Some (JStr t) ->
       d !! "host" = Some h -> d !! "username" = Some u ->
       exists pre post, forall pw',
         generate_connection_string eng d pw' = Ok (pre ++ quote_plus pw' ++ post))
  ∧ (forall h u,
       d !! "connection_string_type" = Some (JStr "jdbc") -> d !! "port" = None ->
       d !! "host" = Some h -> d !! "username" = Some u ->
       exists post,
         generate_connection_string eng d pw
         = Ok ("jdbc:postgresql://" ++ py_str h ++ ":5432/" ++ fget d "dbname" JNull
               ++ "?user=" ++ py_str u ++ "&password=" ++ quote_plus pw ++ post)).
Proof.
  split; [apply generate_not_supported|].
  split; [apply quote_plus_form|].
  split.
  { intros a b. rewrite !quote_plus_form, !form_encode_app. done. }
  split.
  - intros t h u Ht Hty Hh Hu.
    destruct (generate_uri eng d t h u Ht Hty Hh Hu) as (pre & post & H).
    exists pre, post. intros pw'. by rewrite quote_plus_form.
  - intros h u Hty Hport Hh Hu. rewrite quote_plus_form.
    by apply generate_jdbc.
Qed.

Lemma connection_string_format_witness :
  generate_connection_string postgres (<["connection_string_type" := JStr "xml"]> jdbc_record) "p w"
  = Ok "(connection string type not supported)"
  ∧ exists post,
      generate_connection_string mariadb jdbc_record "p w"
      = Ok ("jdbc:postgresql://h:5432/d?user=u&password=" ++ quote_plus "p w" ++ post).
Proof.
  split.
  - apply (connection_string_format postgres
             (<["connection_string_type" := JStr "xml"]> jdbc_record) "p w").
    intros t Ht. unfold known_types in Ht.
    repeat (apply elem_of_cons in Ht as [-> | Ht]); [..|by apply elem_of_nil in Ht];
      vm_compute; discriminate.
  - destruct (connection_string_format mariadb jdbc_record "p w") as (_ & _ & _ & _ & H).
    destruct (H (JStr "h") (JStr "u") eq_refl eq_refl eq_refl eq_refl) as [post Hpost].
    exists post. exact Hpost.
Defined.

(** C10 as stated fails: the space of the password is written [+], and
    the text holds no [%] at all. *)
Lemma space_is_not_percent_encoded :
  generate_connection_string postgres jdbc_record "p w"
  = Ok "jdbc:postgresql://h:5432/d?user=u&password=p+w&ssl=true&sslmode=None&schema=public"
  ∧ contains "%"
      "jdbc:postgresql://h:5432/d?user=u&password=p+w&ssl=true&sslmode=None&schema=public"
    = false
  ∧ quote "" "p w" = "p%20w".
Proof. by vm_compute. Qed.

(** ** The dispatcher *)

Lemma bind_lift_ok {A B} (a : A) (k : A -> M B) (v : vault) :
  bind (lift (Ok a)) k v = k a v.
Proof. unfold bind, lift. by destruct (k a v). Qed.

Lemma bind_ret {A B} (a : A) (k : A -> M B) (v : vault) :
  bind (ret a) k v = k a v.
Proof. unfold bind, ret. by destruct (k a v). Qed.

Lemma bind_lift_raise {A B} (e : exn) (k : A -> M B) (v : vault) :
  bind (lift (Raise e)) k v = Outcome (Raise e) v [].
Proof. done. Qed.

Lemma bind_describe {B} (k : option bool * list (string * list string) -> M B) (v : vault) :
  bind describe_secret k v = k (RotationEnabled v, VersionIdsToStages v) v.
Proof. unfold bind, describe_secret. by destruct (k _ v). Qed.

(** The cases of [lambda_handler], in the order the code tests them. *)
Lemma lambda_handler_cases (eng : engine) (E : env) (event : rotation_event) (v : vault) :
  is_Some (environ E !! "SECRETS_MANAGER_ENDPOINT") ->
  let arn := SecretId event in
  let token := ClientRequestToken event in
  let step := Step event in
  let o := lambda_handler eng E event v in
  (RotationEnabled v = Some false -> exists m, o = Outcome (Raise (ValueError m)) v [])
  ∧ (RotationEnabled v ≠ Some false ->
     (assoc token (VersionIdsToStages v) = None ->
        exists m, o = Outcome (Raise (ValueError m)) v [])
     ∧ (forall stages, assoc token (VersionIdsToStages v) = Some stages ->
        (AWSCURRENT ∈ stages -> o = Outcome (Ok tt) v [])
        ∧ (AWSCURRENT ∉ stages -> AWSPENDING ∉ stages ->
             exists m, o = Outcome (Raise (ValueError m)) v [])
        ∧ (AWSCURRENT ∉ stages -> AWSPENDING ∈ stages ->
             (step = "createSecret" -> o = create_secret eng E arn token v)
             ∧ (step = "setSecret" -> o = set_secret eng E arn token v)
             ∧ (step = "testSecret" -> o = test_secret eng E arn token v)
             ∧ (step = "finishSecret" -> o = finish_secret arn token v)
             ∧ (step ∉ step_names ->
                  exists m, o = Outcome (Raise (ValueError m)) v [])))).
Proof.
  intros [endpoint Hend] arn token step o.
  subst o. unfold lambda_handler. rewrite Hend, bind_lift_ok, bind_describe.
  cbv beta. cbn [fst snd]. fold arn token step.
  split.
  { intros ->. simpl. by eexists. }
  intros Hen.
  assert (Hoff : match RotationEnabled v with Some enabled => negb enabled | None => false end
                 = false).
  { destruct (RotationEnabled v) as [[]|]; done. }
  rewrite Hoff. split.
  { intros ->. by eexists. }
  intros stages ->. split; [|split].
  - intros Hc%elem_true. by rewrite Hc.
  - intros Hc%elem_false Hp%elem_false. rewrite Hc, Hp. by eexists.
  - intros Hc%elem_false Hp%elem_true. rewrite Hc, Hp. simpl.
    repeat split.
    + by intros ->.
    + by intros ->.
    + by intros ->.
    + by intros ->.
    + intros Hstep. unfold step_names in Hstep.
      destruct (String.eqb_spec step "createSecret") as [Heq|_]; [rewrite Heq in Hstep; set_solver|].
      destruct (String.eqb_spec step "setSecret") as [Heq|_]; [rewrite Heq in Hstep; set_solver|].
      destruct (String.eqb_spec step "testSecret") as [Heq|_]; [rewrite Heq in Hstep; set_solver|].
      destruct (String.eqb_spec step "finishSecret") as [Heq|_]; [rewrite Heq in Hstep; set_solver|].
      by eexists.
Qed.

(** C2.  With the endpoint configured: rotation disabled is an error; else
    a token with no entry in the staging map is an error; else a token
    labeled [AWSCURRENT] gives success with no call of a step and no
    effect; else a token not labeled [AWSPENDING] is an error; else the
    four step names run their handlers and any other name is an error. *)
Theorem dispatcher_guard (eng : engine) (E : env) (event : rotation_event) (v : vault) :
  is_Some (environ E !! "SECRETS_MANAGER_ENDPOINT") ->
  let arn := SecretId event in
  let token := ClientRequestToken event in
  let step := Step event in
  let o := lambda_handler eng E event v in
  (RotationEnabled v = Some false -> exists m, o = Outcome (Raise (ValueError m)) v [])
  ∧ (RotationEnabled v ≠ Some false ->
     (assoc token (VersionIdsToStages v) = None ->
        exists m, o = Outcome (Raise (ValueError m)) v [])
     ∧ (forall stages, assoc token (VersionIdsToStages v) = Some stages ->
        (AWSCURRENT ∈ stages -> o = Outcome (Ok tt) v [])
        ∧ (AWSCURRENT ∉ stages -> AWSPENDING ∉ stages ->
             exists m, o = Outcome (Raise (ValueError m)) v [])
        ∧ (AWSCURRENT ∉ stages -> AWSPENDING ∈ stages ->
             (step = "createSecret" -> o = create_secret eng E arn token v)
             ∧ (step = "setSecret" -> o = set_secret eng E arn token v)
             ∧ (step = "testSecret" -> o = test_secret eng E arn token v)
             ∧ (step = "finishSecret" -> o = finish_secret arn token v)
             ∧ (step ∉ step_names ->
                  exists m, o = Outcome (Raise (ValueError m)) v [])))).
Proof. apply lambda_handler_cases. Qed.

Lemma dispatcher_guard_witness :
  lambda_handler mariadb (env_of (fun _ => false) "n3w")
    (RotationEvent "arn" "v1" "setSecret") scenario_vault
  = Outcome (Ok tt) scenario_vault []
  ∧ exists m,
      lambda_handler mariadb (env_of (fun _ => false) "n3w")
        (RotationEvent "arn" "v2" "rotate") scenario_vault
      = Outcome (Raise (ValueError m)) scenario_vault [].
Proof.
  split.
  - refine (proj1 (proj2 (proj2 (dispatcher_guard mariadb (env_of (fun _ => false) "n3w")
              (RotationEvent "arn" "v1" "setSecret") scenario_vault _) _) [AWSCURRENT] _) _).
    + by eexists.
    + discriminate.
    + reflexivity.
    + by apply elem_true.
  - refine (proj2 (proj2 (proj2 (proj2 (proj2 (proj2 (proj2 (proj2
              (dispatcher_guard mariadb (env_of (fun _ => false) "n3w")
                 (RotationEvent "arn" "v2" "rotate") scenario_vault _) _) [AWSPENDING] _))
              _ _)))) _).
    + by eexists.
    + discriminate.
    + reflexivity.
    + by apply elem_false.
    + by apply elem_true.
    + by apply elem_false.
Defined.

(** ** Staging labels *)

Lemma elem_filter_same (s : string) (l : list string) :
  elem s (filter (fun x => x ≠ s) l) = false.
Proof. apply elem_false. rewrite list_elem_of_filter. naive_solver. Qed.

Lemma elem_filter_other (s s' : string) (l : list string) :
  s ≠ s' -> elem s (filter (fun x => x ≠ s') l) = elem s l.
Proof.
  intros Hne. unfold elem. apply bool_decide_ext.
  rewrite list_elem_of_filter. naive_solver.
Qed.

Lemma elem_add_other (s s' : string) (l : list string) :
  s ≠ s' -> elem s (if elem s' l then l else (l ++ [s'])%list) = elem s l.
Proof.
  intros Hne. destruct (elem s' l); [done|].
  unfold elem. apply bool_decide_ext.
  rewrite elem_of_app, list_elem_of_singleton. naive_solver.
Qed.

Lemma elem_add_same (s : string) (l : list string) :
  elem s (if elem s l then l else (l ++ [s])%list) = true.
Proof.
  destruct (elem s l) eqn:H; [done|].
  apply elem_true. rewrite elem_of_app, list_elem_of_singleton. by right.
Qed.

Lemma holders_detach (s t : string) (vs : list (string * list string)) :
  holders s (detach s t vs) = filter (fun x => x ≠ t) (holders s vs).
Proof.
  induction vs as [|[t' stages] vs IH]; [done|].
  simpl. destruct (String.eqb_spec t t') as [<-|Hne].
  - rewrite elem_filter_same, IH.
    destruct (elem s stages); [|done].
    rewrite filter_cons. by destruct (decide (t ≠ t)).
  - destruct (elem s stages); [|done].
    simpl. rewrite filter_cons, IH.
    destruct (decide (t' ≠ t)) as [|Heq]; [done|].
    destruct Heq. congruence.
Qed.

Lemma holders_detach_other (s s' t : string) (vs : list (string * list string)) :
  s ≠ s' -> holders s (detach s' t vs) = holders s vs.
Proof.
  intros Hne. induction vs as [|[t' stages] vs IH]; [done|].
  simpl. rewrite IH.
  destruct (String.eqb t t'); [|done].
  by rewrite elem_filter_other.
Qed.

Lemma holders_detach_all_other (s s' : string) (vs : list (string * list string)) :
  s ≠ s' -> holders s (detach_all s' vs) = holders s vs.
Proof.
  intros Hne. induction vs as [|[t' stages] vs IH]; [done|].
  simpl. by rewrite IH, elem_filter_other.
Qed.

Lemma holders_attach_other (s s' t : string) (vs : list (string * list string)) :
  s ≠ s' -> holders s (attach s' t vs) = holders s vs.
Proof.
  intros Hne. induction vs as [|[t' stages] vs IH]; simpl.
  - assert (elem s [s'] = false) as ->; [|done].
    apply elem_false. rewrite list_elem_of_singleton. done.
  - destruct (String.eqb t t'); simpl.
    + by rewrite elem_add_other.
    + by rewrite IH.
Qed.

Lemma holders_attach_none (s t : string) (vs : list (string * list string)) :
  holders s vs = [] -> holders s (attach s t vs) = [t].
Proof.
  induction vs as [|[t' stages] vs IH]; simpl.
  - intros _. assert (elem s [s] = true) as ->; [|done].
    apply elem_true, list_elem_of_singleton. done.
  - destruct (elem s stages) eqn:Hs; [done|]. intros Hr.
    destruct (String.eqb_spec t t') as [<-|Hne]; simpl.
    + pose proof (elem_add_same s stages) as Hadd. rewrite Hs in Hadd.
      by rewrite Hadd, Hr.
    + by rewrite Hs, IH.
Qed.

Lemma holders_keys (s t : string) (vs : list (string * list string)) :
  t ∈ holders s vs -> t ∈ map fst vs.
Proof.
  induction vs as [|[t' stages] vs IH]; simpl; [done|].
  destruct (elem s stages).
  - rewrite !elem_of_cons. naive_solver.
  - rewrite elem_of_cons. naive_solver.
Qed.

Lemma find_current_holders (token : string) (vs : list (string * list string)) :
  find_current token vs
  = match head (holders AWSCURRENT vs) with
    | None => Some None
    | Some c => if String.eqb c token then None else Some (Some c)
    end.
Proof.
  induction vs as [|[t' stages] vs IH]; simpl; [done|].
  by destruct (elem AWSCURRENT stages).
Qed.

Lemma update_move (s m r : string) (v : vault) :
  holders s (VersionIdsToStages v) = [r] ->
  m ∈ map fst (VersionIdsToStages v) ->
  update_secret_version_stage s (Passed (Some m)) (Passed (Some r)) v
  = Outcome (Ok tt)
      (Vault (RotationEnabled v)
         (let vs2 := attach s m (detach s r (VersionIdsToStages v)) in
          if bool_decide (s = AWSCURRENT) && negb (bool_decide (m = r))
          then attach AWSPREVIOUS r (detach_all AWSPREVIOUS vs2)
          else vs2)
         (SecretStrings v))
      [EvUpdateStage s (Passed (Some m)) (Passed (Some r))].
Proof.
  intros Hh Hm. unfold update_secret_version_stage. rewrite Hh.
  assert (elem m (map fst (VersionIdsToStages v)) = true) as -> by by apply elem_true.
  assert (elem r [r] = true) as ->.
  { apply elem_true, list_elem_of_singleton. done. }
  simpl. rewrite (bool_decide_true (Some r = Some r)) by done.
  by rewrite orb_true_r.
Qed.

Lemma update_remove (s r : string) (v : vault) :
  r ∈ holders s (VersionIdsToStages v) ->
  update_secret_version_stage s Omitted (Passed (Some r)) v
  = Outcome (Ok tt)
      (Vault (RotationEnabled v) (detach s r (VersionIdsToStages v)) (SecretStrings v))
      [EvUpdateStage s Omitted (Passed (Some r))].
Proof.
  intros Hr. unfold update_secret_version_stage.
  assert (elem r (holders s (VersionIdsToStages v)) = true) as -> by by apply elem_true.
  done.
Qed.

(** ** [finish_secret] *)

Lemma finish_secret_done (arn token : string) (v : vault) :
  head (holders AWSCURRENT (VersionIdsToStages v)) = Some token ->
  finish_secret arn token v = Outcome (Ok tt) v [].
Proof.
  intros H. unfold finish_secret. rewrite bind_describe. cbn [snd].
  by rewrite find_current_holders, H, String.eqb_refl.
Qed.

Lemma finish_secret_moves (arn token c : string) (v : vault) :
  holders AWSCURRENT (VersionIdsToStages v) = [c] ->
  c ≠ token ->
  token ∈ holders AWSPENDING (VersionIdsToStages v) ->
  exists vs,
    finish_secret arn token v
    = Outcome (Ok tt) (Vault (RotationEnabled v) vs (SecretStrings v)) (promotion token c)
    ∧ holders AWSCURRENT vs = [token]
    ∧ (token ∉ holders AWSPENDING vs).
Proof.
  intros Hc Hne Hp.
  set (vs := VersionIdsToStages v) in *.
  set (vs3 := attach AWSPREVIOUS c
                (detach_all AWSPREVIOUS (attach AWSCURRENT token (detach AWSCURRENT c vs)))).
  exists (detach AWSPENDING token vs3).
  assert (Hcur3 : holders AWSCURRENT vs3 = [token]).
  { unfold vs3. rewrite holders_attach_other, holders_detach_all_other by done.
    apply holders_attach_none. rewrite holders_detach, Hc, filter_cons.
    by destruct (decide (c ≠ c)). }
  assert (Hpen3 : holders AWSPENDING vs3 = holders AWSPENDING vs).
  { unfold vs3. rewrite holders_attach_other, holders_detach_all_other by done.
    by rewrite holders_attach_other, holders_detach_other by done. }
  split; [|split].
  - unfold finish_secret. rewrite bind_describe. cbn [snd]. fold vs.
    rewrite find_current_holders, Hc. change (head [c]) with (Some c). cbv iota.
    destruct (String.eqb_spec c token) as [|_]; [done|].
    unfold bind.
    rewrite (update_move AWSCURRENT token c v Hc (holders_keys _ _ _ Hp)).
    fold vs. rewrite (bool_decide_true (AWSCURRENT = AWSCURRENT)) by done.
    rewrite (bool_decide_false (token = c)) by congruence.
    cbn [andb negb]. fold vs3.
    rewrite update_remove; [done|].
    cbn [VersionIdsToStages]. by rewrite Hpen3.
  - by rewrite holders_detach_other.
  - rewrite holders_detach, list_elem_of_filter. naive_solver.
Qed.

(** C6.  When exactly one version, [c], is labeled [AWSCURRENT] (and the
    token, if it is not [c], is labeled [AWSPENDING]):  if the token is [c]
    the step succeeds with no label move; otherwise it succeeds with the two
    moves, after which the token is the one version labeled [AWSCURRENT],
    [c] is not, and the token is not labeled [AWSPENDING].  A second call
    succeeds with no move and leaves the vault as it is. *)
Theorem finish_secret_twice (arn token c : string) (v : vault) :
  holders AWSCURRENT (VersionIdsToStages v) = [c] ->
  (c = token ∨ token ∈ holders AWSPENDING (VersionIdsToStages v)) ->
  let o1 := finish_secret arn token v in
  let o2 := finish_secret arn token (st o1) in
  (c = token -> o1 = Outcome (Ok tt) v [])
  ∧ (c ≠ token ->
       evs o1 = promotion token c
       ∧ (c ∉ holders AWSCURRENT (VersionIdsToStages (st o1)))
       ∧ (token ∉ holders AWSPENDING (VersionIdsToStages (st o1))))
  ∧ res o1 = Ok tt
  ∧ holders AWSCURRENT (VersionIdsToStages (st o1)) = [token]
  ∧ o2 = Outcome (Ok tt) (st o1) [].
Proof.
  intros Hc Hp o1 o2.
  destruct (decide (c = token)) as [Heq|Hne].
  - assert (H1 : o1 = Outcome (Ok tt) v []).
    { apply finish_secret_done. by rewrite Hc, Heq. }
    subst o2. rewrite H1. cbn [st res evs].
    repeat split; try done; by rewrite Hc, Heq.
  - destruct Hp as [|Hp]; [done|].
    destruct (finish_secret_moves arn token c v Hc Hne Hp) as (vs & H1 & Hcur & Hpen).
    subst o2. fold o1 in H1. rewrite H1. cbn [st res evs VersionIdsToStages].
    repeat split; try done.
    all: try (by rewrite Hcur, list_elem_of_singleton).
    apply finish_secret_done. cbn [VersionIdsToStages]. by rewrite Hcur.
Qed.

Lemma finish_secret_twice_witness :
  evs (finish_secret "arn" "v2" staged_vault) = promotion "v2" "v1"
  ∧ holders AWSCURRENT (VersionIdsToStages (st (finish_secret "arn" "v2" staged_vault)))
    = ["v2"]
  ∧ finish_secret "arn" "v2" (st (finish_secret "arn" "v2" staged_vault))
    = Outcome (Ok tt) (st (finish_secret "arn" "v2" staged_vault)) [].
Proof.
  destruct (finish_secret_twice "arn" "v2" "v1" staged_vault) as (_ & H1 & _ & H2 & H3).
  - reflexivity.
  - right. by apply elem_true.
  - split; [apply H1; discriminate|]. split; [exact H2 | exact H3].
Defined.

(** ** Reading a payload *)

#[local] Arguments check_fields : simpl never.
#[local] Arguments check_engine : simpl never.
#[local] Arguments json_loads : simpl never.

Lemma get_secret_value_pure (t : option string) (s : string) (v : vault) :
  get_secret_value t s v = Outcome (res (get_secret_value t s v)) v [].
Proof. unfold get_secret_value. repeat break_match; done. Qed.

Lemma get_secret_dict_pure (eng : engine) (arn s : string) (t : option string) (v : vault) :
  get_secret_dict eng arn s t v = Outcome (fetch eng arn s t v) v [].
Proof.
  unfold fetch, get_secret_dict, bind, lift, ret.
  destruct (truthy t);
    rewrite get_secret_value_pure;
    destruct (res (get_secret_value _ s v)) as [secret|]; simpl; try done;
    destruct (json_loads secret) as [d|]; simpl; try done;
    destruct (check_engine eng d); simpl; try done;
    destruct (check_fields required_fields d); done.
Qed.

Lemma bind_fetch {B} (eng : engine) (arn s : string) (t : option string)
    (k : dict -> M B) (v : vault) :
  bind (get_secret_dict eng arn s t) k v
  = match fetch eng arn s t v with
    | Ok d => k d v
    | Raise e => Outcome (Raise e) v []
    end.
Proof.
  unfold bind. rewrite get_secret_dict_pure.
  destruct (fetch eng arn s t v); [|done]. by destruct (k a v).
Qed.

(** What [fetch] computes, in terms of the stored payload. *)
Lemma fetch_eq (eng : engine) (arn s : string) (t : option string) (v : vault) :
  fetch eng arn s t v
  = match res (get_secret_value (if truthy t then t else None) s v) with
    | Raise e => Raise e
    | Ok secret =>
        match json_loads secret with
        | Raise e => Raise e
        | Ok d =>
            match check_engine eng d with
            | Raise e => Raise e
            | Ok _ =>
                match check_fields required_fields d with
                | Raise e => Raise e
                | Ok _ => Ok d
                end
            end
        end
    end.
Proof.
  unfold fetch, get_secret_dict, bind, lift, ret.
  destruct (truthy t);
    rewrite get_secret_value_pure;
    destruct (res (get_secret_value _ s v)) as [secret|]; simpl; try done;
    destruct (json_loads secret) as [d|]; simpl; try done;
    destruct (check_engine eng d); simpl; try done;
    destruct (check_fields required_fields d); done.
Qed.

Lemma fetch_valid (eng : engine) (arn s : string) (t : option string) (v : vault) (d : dict) :
  fetch eng arn s t v = Ok d ->
  check_engine eng d = Ok tt ∧ check_fields required_fields d = Ok tt.
Proof.
  rewrite fetch_eq.
  destruct (res (get_secret_value _ s v)) as [secret|]; [|done].
  destruct (json_loads secret) as [d'|]; [|done].
  destruct (check_engine eng d') as [[]|] eqn:He; [|done].
  destruct (check_fields required_fields d') as [[]|] eqn:Hf; [|done].
  by intros [= <-].
Qed.

Lemma check_fields_has (d : dict) :
  check_fields required_fields d = Ok tt ->
  is_Some (d !! "host") ∧ is_Some (d !! "username") ∧ is_Some (d !! "password").
Proof.
  unfold required_fields, check_fields, has_key.
  destruct (d !! "host"), (d !! "username"), (d !! "password"); simpl; done.
Qed.

Lemma has_key_insert (d : dict) (k k' : string) (x : json) :
  has_key d k = true -> has_key (<[k' := x]> d) k = true.
Proof.
  unfold has_key. destruct (decide (k' = k)) as [->|Hne].
  - by rewrite lookup_insert_eq.
  - by rewrite lookup_insert_ne.
Qed.

Lemma valid_insert (eng : engine) (d : dict) (k : string) (x : json) :
  k ≠ "engine" ->
  check_engine eng d = Ok tt -> check_fields required_fields d = Ok tt ->
  check_engine eng (<[k := x]> d) = Ok tt
  ∧ check_fields required_fields (<[k := x]> d) = Ok tt.
Proof.
  intros Hk He Hf. split.
  - unfold check_engine, has_key, get_default in *.
    by rewrite lookup_insert_ne.
  - unfold required_fields, check_fields in *.
    destruct (has_key d "host") eqn:H1; [|done].
    destruct (has_key d "username") eqn:H2; [|done].
    destruct (has_key d "password") eqn:H3; [|done].
    by rewrite !has_key_insert.
Qed.

(** ** [create_secret] *)

Lemma get_random_password_eq (E : env) (n : Z) (v : vault) :
  configured_length E = Ok n ->
  get_random_password E v
  = Outcome (random_password_api E (password_request E n)) v
      [EvGetRandomPassword (password_request E n)].
Proof.
  unfold configured_length, get_random_password. intros ->.
  rewrite bind_lift_ok. fold (password_request E n).
  unfold bind, emit, lift. done.
Qed.

Lemma generate_total (eng : engine) (d : dict) (pw : string) :
  is_Some (d !! "host") -> is_Some (d !! "username") ->
  exists s, generate_connection_string eng d pw = Ok s.
Proof.
  intros [h Hh] [u Hu].
  destruct eng; simpl;
    unfold Mariadb.generate_connection_string, Postgres.generate_connection_string, item;
    rewrite Hh, Hu; repeat break_match; by eexists.
Qed.

Lemma create_secret_exists (eng : engine) (E : env) (arn token : string) (v : vault)
    (cur pending : dict) :
  fetch eng arn AWSCURRENT None v = Ok cur ->
  fetch eng arn AWSPENDING (Some token) v = Ok pending ->
  create_secret eng E arn token v = Outcome (Ok tt) v [].
Proof.
  intros Hc Hp. unfold create_secret. rewrite bind_fetch, Hc.
  unfold try_except. by rewrite bind_fetch, Hp.
Qed.

Lemma create_secret_propagates (eng : engine) (E : env) (arn token : string) (v : vault)
    (cur : dict) (e : exn) :
  fetch eng arn AWSCURRENT None v = Ok cur ->
  fetch eng arn AWSPENDING (Some token) v = Raise e ->
  e ≠ ResourceNotFoundException ->
  create_secret eng E arn token v = Outcome (Raise e) v [].
Proof.
  intros Hc Hp Hne. unfold create_secret. rewrite bind_fetch, Hc.
  unfold try_except. rewrite bind_fetch, Hp. by destruct e.
Qed.

Lemma create_secret_absent (eng : engine) (E : env) (arn token : string) (v : vault)
    (cur : dict) (n : Z) (p : string) :
  fetch eng arn AWSCURRENT None v = Ok cur ->
  fetch eng arn AWSPENDING (Some token) v = Raise ResourceNotFoundException ->
  configured_length E = Ok n ->
  random_password_api E (password_request E n) = Ok p ->
  exists new,
    create_secret eng E arn token v
    = match put_secret_value token new [AWSPENDING] v with
      | Outcome r v' l => Outcome r v' (EvGetRandomPassword (password_request E n) :: l)
      end
    ∧ (cur !! "connection_string" = None -> new = <["password" := JStr p]> cur)
    ∧ (is_Some (cur !! "connection_string") ->
       exists s,
         generate_connection_string eng (<["password" := JStr p]> cur) p = Ok s
         ∧ new = <["connection_string" := JStr s]> (<["password" := JStr p]> cur)).
Proof.
  intros Hc Hp Hn Hr.
  destruct (fetch_valid _ _ _ _ _ _ Hc) as [_ Hf].
  destruct (check_fields_has _ Hf) as (Hh & Hu & _).
  set (d := <["password" := JStr p]> cur).
  assert (Hgen : exists s, generate_connection_string eng d p = Ok s).
  { apply generate_total; unfold d; by rewrite lookup_insert_ne. }
  destruct Hgen as [s Hs].
  assert (Hkey : has_key d "connection_string" = has_key cur "connection_string").
  { unfold has_key, d. by rewrite lookup_insert_ne. }
  exists (if has_key cur "connection_string" then <["connection_string" := JStr s]> d else d).
  split; [|split].
  - unfold create_secret. rewrite bind_fetch, Hc.
    unfold try_except. rewrite bind_fetch, Hp.
    unfold bind at 1. rewrite (get_random_password_eq E n v Hn), Hr.
    fold d. rewrite Hkey.
    destruct (has_key cur "connection_string").
    + rewrite Hs. unfold bind, lift, ret.
      by destruct (put_secret_value token _ [AWSPENDING] v).
    + unfold bind, ret.
      by destruct (put_secret_value token _ [AWSPENDING] v).
  - intros Hnone. unfold has_key. by rewrite Hnone.
  - intros [x Hx]. unfold has_key. rewrite Hx. by exists s.
Qed.

Lemma holders_detach_all_same (s : string) (vs : list (string * list string)) :
  holders s (detach_all s vs) = [].
Proof.
  induction vs as [|[t' stages] vs IH]; [done|].
  simpl. by rewrite elem_filter_same.
Qed.

Lemma assoc_attach (s t : string) (vs : list (string * list string)) :
  exists l, assoc t (attach s t vs) = Some l ∧ elem s l = true.
Proof.
  induction vs as [|[t' stages] vs IH]; simpl.
  - rewrite String.eqb_refl. exists [s]. split; [done|].
    apply elem_true, list_elem_of_singleton. done.
  - destruct (String.eqb t t') eqn:Heq; simpl; rewrite Heq; [|done].
    eexists. split; [done|]. apply elem_add_same.
Qed.

Lemma fetch_stored_pending (eng : engine) (arn token : string) (v : vault) (new : dict) :
  check_engine eng new = Ok tt -> check_fields required_fields new = Ok tt ->
  fetch eng arn AWSPENDING (Some token) (stored token new v) = Ok new.
Proof.
  intros He Hf. rewrite fetch_eq.
  assert (Hget : forall t, t = Some token ∨ t = None ->
            res (get_secret_value t AWSPENDING (stored token new v)) = Ok (Json new)).
  { intros t Ht. unfold get_secret_value, stored. cbn [VersionIdsToStages SecretStrings].
    destruct Ht as [-> | ->].
    - destruct (assoc_attach AWSPENDING token
                  (detach_all AWSPENDING (VersionIdsToStages v))) as (l & Hl & Hs).
      rewrite Hl. cbv iota. rewrite Hs. cbv iota.
      by rewrite lookup_insert_eq.
    - rewrite holders_attach_none by apply holders_detach_all_same.
      change (head [token]) with (Some token). cbv iota.
      by rewrite lookup_insert_eq.
  }
  rewrite Hget by (destruct (truthy (Some token)); auto).
  unfold json_loads. by rewrite He, Hf.
Qed.

Lemma fetch_stored_current (eng : engine) (arn token : string) (v : vault) (new cur : dict) :
  SecretStrings v !! token = None ->
  fetch eng arn AWSCURRENT None v = Ok cur ->
  fetch eng arn AWSCURRENT None (stored token new v) = Ok cur.
Proof.
  intros Hnone. rewrite !fetch_eq. cbn [truthy].
  unfold get_secret_value, stored. cbn [VersionIdsToStages SecretStrings].
  rewrite holders_attach_other, holders_detach_all_other by done.
  destruct (head (holders AWSCURRENT (VersionIdsToStages v))) as [c|]; [|done].
  destruct (decide (token = c)) as [<-|Hne].
  - rewrite Hnone. cbn [res]. discriminate.
  - rewrite lookup_insert_ne by done.
    by destruct (SecretStrings v !! c).
Qed.

Lemma put_fresh (token : string) (new : dict) (v : vault) :
  SecretStrings v !! token = None ->
  put_secret_value token new [AWSPENDING] v
  = Outcome (Ok tt) (stored token new v) [EvPutSecretValue token new [AWSPENDING]].
Proof. intros H. unfold put_secret_value. by rewrite H. Qed.

(** C7.  With a valid [AWSCURRENT] payload [cur]:  if the [AWSPENDING]
    payload of the token can be read, the step succeeds with no call of the
    generator and no put, and the vault is unchanged;  if reading it fails
    with anything but not-found, that error comes out and nothing is
    written;  if it is not found and the generator returns [p], the step
    calls the generator once and puts, under [AWSPENDING], the copy of [cur]
    with [password] set to [p] and, only when [cur] has a
    [connection_string], that field regenerated.  When the token had no
    payload, the put stores it, and a second call reads it back and does
    nothing. *)
Theorem create_secret_idempotent (eng : engine) (E : env) (arn token : string)
    (v : vault) (cur : dict) :
  fetch eng arn AWSCURRENT None v = Ok cur ->
  (forall pending,
     fetch eng arn AWSPENDING (Some token) v = Ok pending ->
     create_secret eng E arn token v = Outcome (Ok tt) v [])
  ∧ (forall e,
       fetch eng arn AWSPENDING (Some token) v = Raise e ->
       e ≠ ResourceNotFoundException ->
       create_secret eng E arn token v = Outcome (Raise e) v [])
  ∧ (forall n p,
       fetch eng arn AWSPENDING (Some token) v = Raise ResourceNotFoundException ->
       configured_length E = Ok n ->
       random_password_api E (password_request E n) = Ok p ->
       exists new,
         evs (create_secret eng E arn token v)
         = [EvGetRandomPassword (password_request E n);
            EvPutSecretValue token new [AWSPENDING]]
         ∧ (cur !! "connection_string" = None -> new = <["password" := JStr p]> cur)
         ∧ (is_Some (cur !! "connection_string") ->
            exists s,
              generate_connection_string eng (<["password" := JStr p]> cur) p = Ok s
              ∧ new = <["connection_string" := JStr s]> (<["password" := JStr p]> cur))
         ∧ (SecretStrings v !! token = None ->
            create_secret eng E arn token v
            = Outcome (Ok tt) (stored token new v)
                [EvGetRandomPassword (password_request E n);
                 EvPutSecretValue token new [AWSPENDING]]
            ∧ fetch eng arn AWSPENDING (Some token) (stored token new v) = Ok new
            ∧ create_secret eng E arn token (stored token new v)
              = Outcome (Ok tt) (stored token new v) [])).
Proof.
  intros Hc. split; [|split].
  - intros pending Hp. by eapply create_secret_exists.
  - intros e Hp Hne. by eapply create_secret_propagates.
  - intros n p Hp Hn Hr.
    destruct (create_secret_absent eng E arn token v cur n p Hc Hp Hn Hr)
      as (new & Hrun & Hplain & Hconn).
    exists new. split; [|split; [done|split; [done|]]].
    + rewrite Hrun. unfold put_secret_value.
      destruct (SecretStrings v !! token) as [s|]; [|done].
      by destruct (decide (s = Json new)).
    + intros Hnone.
      assert (Hvalid : check_engine eng new = Ok tt
                       ∧ check_fields required_fields new = Ok tt).
      { destruct (fetch_valid _ _ _ _ _ _ Hc) as [He Hf].
        destruct (valid_insert eng cur "password" (JStr p)) as [He1 Hf1]; [done..|].
        destruct (cur !! "connection_string") as [x|] eqn:Hx.
        - destruct Hconn as (s & _ & ->); [by eexists|].
          by apply valid_insert.
        - by rewrite Hplain. }
      destruct Hvalid as [He Hf].
      pose proof (fetch_stored_pending eng arn token v new He Hf) as Hback.
      split; [|split; [done|]].
      * by rewrite Hrun, put_fresh.
      * eapply create_secret_exists; [|exact Hback].
        by apply fetch_stored_current.
Qed.

Lemma create_secret_idempotent_witness :
  let E := env_of (fun _ => false) "n3w" in
  let new := <["password" := JStr "n3w"]> (record "mariadb" "app" "old") in
  create_secret mariadb E "arn" "v2" scenario_vault
  = Outcome (Ok tt) (stored "v2" new scenario_vault)
      [EvGetRandomPassword (password_request E 32);
       EvPutSecretValue "v2" new [AWSPENDING]]
  ∧ create_secret mariadb E "arn" "v2" (stored "v2" new scenario_vault)
    = Outcome (Ok tt) (stored "v2" new scenario_vault) [].
Proof.
  intros E new.
  destruct (create_secret_idempotent mariadb E "arn" "v2" scenario_vault
              (record "mariadb" "app" "old") eq_refl) as (_ & _ & H).
  destruct (H 32%Z "n3w" eq_refl eq_refl eq_refl) as (new' & _ & Hplain & _ & Hrun).
  rewrite (Hplain eq_refl) in Hrun.
  destruct (Hrun eq_refl) as (H1 & _ & H2).
  split; [exact H1 | exact H2].
Defined.

(** ** Logging in *)

#[local] Arguments py_int : simpl never.

Lemma mariadb_attempt_pure (E : env) (d : dict) (p : Z) (db : json) (b : bool) (v : vault) :
  Mariadb.connect_and_authenticate E d p db b v
  = Outcome (res (Mariadb.connect_and_authenticate E d p db b empty_vault)) v
      (evs (Mariadb.connect_and_authenticate E d p db b empty_vault)).
Proof.
  unfold Mariadb.connect_and_authenticate, bind, lift, emit, ret, raise, item.
  destruct (d !! "host"), (d !! "username"), (d !! "password"); simpl; try done.
  by destruct (connect E _).
Qed.

Lemma get_connection_pure (eng : engine) (E : env) (d : dict) (v : vault) :
  get_connection eng E d v = Outcome (res (login eng E d)) v (evs (login eng E d)).
Proof.
  unfold login. destruct eng; simpl.
  - unfold Mariadb.get_connection, bind, lift, ret.
    destruct (match d !! "port" with Some p => py_int p | None => Ok 3306%Z end) as [p|];
      [|done].
    destruct (Mariadb.get_ssl_config d) as [use_ssl fall_back].
    rewrite (mariadb_attempt_pure E d p _ use_ssl v).
    destruct (Mariadb.connect_and_authenticate E d p _ use_ssl empty_vault)
      as [[conn|e] v1 l1]; simpl; [|done].
    destruct (connected conn || negb fall_back); simpl; [done|].
    rewrite (mariadb_attempt_pure E d p _ false v).
    rewrite (mariadb_attempt_pure E d p _ false v1).
    by destruct (Mariadb.connect_and_authenticate E d p _ false empty_vault)
      as [[conn2|e2] v2 l2].
  - unfold Postgres.get_connection, bind, lift, emit, ret, raise, item.
    destruct (match d !! "port" with Some p => py_int p | None => Ok 5432%Z end) as [p|];
      [|done].
    destruct (d !! "host"), (d !! "username"), (d !! "password"); simpl; try done.
    by destruct (connect E _).
Qed.

Lemma bind_conn {B} (eng : engine) (E : env) (d : dict)
    (k : option conn_args -> M B) (v : vault) :
  bind (get_connection eng E d) k v
  = match res (login eng E d) with
    | Ok conn => prepend (evs (login eng E d)) (k conn v)
    | Raise e => Outcome (Raise e) v (evs (login eng E d))
    end.
Proof.
  unfold bind. rewrite get_connection_pure.
  destruct (res (login eng E d)); [|done]. by destruct (k a v).
Qed.

(** A login makes connection attempts and nothing else, and a session it
    returns was opened by one of them. *)
Lemma mariadb_attempt_events (E : env) (d : dict) (p : Z) (db : json) (b : bool) :
  let o := Mariadb.connect_and_authenticate E d p db b empty_vault in
  forallb is_connect (evs o) = true
  ∧ (forall c, res o = Ok (Some c) -> EvConnect c true ∈ evs o).
Proof.
  unfold Mariadb.connect_and_authenticate, bind, lift, emit, ret, raise, item.
  destruct (d !! "host"), (d !! "username"), (d !! "password"); simpl; try done.
  destruct (connect E _); simpl; split; try done.
  intros c [= <-]. apply list_elem_of_singleton. done.
Qed.

Lemma login_events (eng : engine) (E : env) (d : dict) :
  forallb is_connect (evs (login eng E d)) = true
  ∧ (forall c, res (login eng E d) = Ok (Some c) -> EvConnect c true ∈ evs (login eng E d)).
Proof.
  unfold login. destruct eng; simpl.
  - unfold Mariadb.get_connection, bind, lift, ret.
    destruct (match d !! "port" with Some p => py_int p | None => Ok 3306%Z end) as [p|];
      [|done].
    destruct (Mariadb.get_ssl_config d) as [use_ssl fall_back].
    pose proof (mariadb_attempt_events E d p (get_default d "dbname" JNull) use_ssl)
      as [Hc1 Hs1].
    destruct (Mariadb.connect_and_authenticate E d p _ use_ssl empty_vault)
      as [[conn|e] v1 l1]; simpl in *; [|done].
    destruct (connected conn || negb fall_back) eqn:Hfb; simpl.
    { rewrite app_nil_r. done. }
    apply orb_false_elim in Hfb as [Hconn _]. destruct conn as [c0|]; [done|].
    rewrite (mariadb_attempt_pure E d p _ false v1).
    pose proof (mariadb_attempt_events E d p (get_default d "dbname" JNull) false)
      as [Hc2 Hs2].
    destruct (Mariadb.connect_and_authenticate E d p _ false empty_vault)
      as [r2 v2 l2]; simpl in *.
    split.
    + by rewrite forallb_app, Hc1, Hc2.
    + intros c Hr. apply elem_of_app. right. by apply Hs2.
  - unfold Postgres.get_connection, bind, lift, emit, ret, raise, item.
    destruct (match d !! "port" with Some p => py_int p | None => Ok 5432%Z end) as [p|];
      [|done].
    destruct (d !! "host"), (d !! "username"), (d !! "password"); simpl; try done.
    destruct (connect E _); simpl; split; try done.
    intros c [= <-]. apply list_elem_of_singleton. done.
Qed.

(** ** [set_secret] *)

Lemma item_get (d : dict) (k : string) :
  is_Some (d !! k) -> item d k = Ok (get_default d k JNull).
Proof. intros [x Hx]. unfold item, get_default. by rewrite Hx. Qed.

Lemma fetch_fields (eng : engine) (arn s : string) (t : option string) (v : vault) (d : dict) :
  fetch eng arn s t v = Ok d ->
  is_Some (d !! "host") ∧ is_Some (d !! "username") ∧ is_Some (d !! "password").
Proof. intros H. destruct (fetch_valid _ _ _ _ _ _ H) as [_ Hf]. by apply check_fields_has. Qed.

Lemma postgres_change (E : env) (c : conn_args) (pending : dict) (v : vault) :
  is_Some (pending !! "username") -> is_Some (pending !! "password") ->
  Postgres.change_password E c pending v = changed postgres E v pending c [].
Proof.
  intros Hu Hp. unfold Postgres.change_password.
  rewrite (item_get _ _ Hu), (item_get _ _ Hp).
  unfold changed, statement_outcome, change_statement, finally, bind, lift,
    cursor_execute, conn_commit, close, emit, ret, raise. simpl.
  destruct (execute E c _ []); [done|]. by destruct (commit E c).
Qed.

Lemma mariadb_change (E : env) (c : conn_args) (pending : dict) (v : vault) :
  is_Some (pending !! "password") ->
  Mariadb.change_password E c pending v = changed mariadb E v pending c [].
Proof.
  intros Hp. unfold Mariadb.change_password. rewrite (item_get _ _ Hp).
  unfold changed, statement_outcome, change_statement, finally, bind, lift,
    cursor_execute, conn_commit, close, emit, ret, raise. simpl.
  destruct (execute E c _ _); [done|]. by destruct (commit E c).
Qed.

Lemma prepend_changed (eng : engine) (E : env) (v : vault) (pending : dict)
    (c : conn_args) (l : list event) :
  prepend l (changed eng E v pending c []) = changed eng E v pending c l.
Proof. done. Qed.

Lemma prepend_app {A} (l1 l2 : list event) (o : outcome A) :
  prepend l1 (prepend l2 o) = prepend (l1 ++ l2) o.
Proof. unfold prepend. simpl. by rewrite app_assoc. Qed.

Lemma prepend_outcome {A} (l1 l2 : list event) (r : result A) (v : vault) :
  prepend l1 (Outcome r v l2) = Outcome r v (l1 ++ l2).
Proof. done. Qed.

Lemma fetch_username (eng : engine) (arn s : string) (t : option string) (v : vault) (d : dict) :
  fetch eng arn s t v = Ok d -> is_Some (d !! "username").
Proof. intros H. by destruct (fetch_fields _ _ _ _ _ _ H) as (_ & ? & _). Qed.

Lemma fetch_password (eng : engine) (arn s : string) (t : option string) (v : vault) (d : dict) :
  fetch eng arn s t v = Ok d -> is_Some (d !! "password").
Proof. intros H. by destruct (fetch_fields _ _ _ _ _ _ H) as (_ & _ & ?). Qed.

Lemma fetch_host (eng : engine) (arn s : string) (t : option string) (v : vault) (d : dict) :
  fetch eng arn s t v = Ok d -> is_Some (d !! "host").
Proof. intros H. by destruct (fetch_fields _ _ _ _ _ _ H) as (? & _ & _). Qed.

Ltac known :=
  repeat match goal with
  | H : fetch ?g ?a ?s ?t ?v = _ |- context [fetch ?g ?a ?s ?t ?v] => rewrite H
  | H : res (login ?g ?E ?d) = _ |- context [res (login ?g ?E ?d)] => rewrite H
  end.

Ltac norm_events :=
  repeat (progress cbn [app] || rewrite app_nil_r || rewrite <- app_assoc).

Lemma fetch_nonempty (eng : engine) (arn s : string) (t : option string) (v : vault) (d : dict) :
  fetch eng arn s t v = Ok d -> bool_decide (d = ∅) = false.
Proof.
  intros H. apply bool_decide_eq_false. intros ->.
  destruct (fetch_host _ _ _ _ _ _ H) as [x Hx]. by rewrite lookup_empty in Hx.
Qed.

Lemma inherit_ssl_lookup (cur prev : dict) (k : string) :
  k ≠ "ssl" -> inherit_ssl cur prev !! k = prev !! k.
Proof.
  intros Hk. unfold inherit_ssl. destruct (cur !! "ssl").
  - rewrite lookup_insert_ne, lookup_delete_ne; done.
  - by rewrite lookup_delete_ne.
Qed.

Lemma get_default_inherit (cur prev : dict) (k : string) (x : json) :
  k ≠ "ssl" -> get_default (inherit_ssl cur prev) k x = get_default prev k x.
Proof. intros Hk. unfold get_default. by rewrite inherit_ssl_lookup. Qed.

Ltac present :=
  first [ solve [eauto using fetch_username, fetch_host, fetch_password]
        | rewrite inherit_ssl_lookup by done;
          solve [eauto using fetch_username, fetch_host, fetch_password] ].

Ltac crunch :=
  repeat (
    rewrite ?get_secret_dict_pure, ?get_connection_pure;
    known;
    repeat match goal with
    | c : gmap string json, p : gmap string json |- _ => progress fold (inherit_ssl c p)
    end;
    repeat (rewrite item_get by present);
    rewrite ?get_default_inherit by done;
    repeat match goal with
    | H : fetch _ _ _ _ _ = Ok ?d |- context [bool_decide (?d = ∅)] =>
        rewrite (fetch_nonempty _ _ _ _ _ _ H)
    end;
    unfold lift;
    cbv beta iota; cbn [res st evs];
    try match goal with
    | |- context [match fetch ?g ?a ?s ?t ?v with _ => _ end] =>
        let d := fresh "d" in let x := fresh "x" in let H := fresh "Hfetch" in
        destruct (fetch g a s t v) as [d|x] eqn:H
    | |- context [match res (login ?g ?E ?d) with _ => _ end] =>
        let c := fresh "c" in let x := fresh "x" in let H := fresh "Hlogin" in
        destruct (res (login g E d)) as [[c|]|x] eqn:H
    | |- context [match ?x with ResourceNotFoundException => _ | _ => _ end] =>
        is_var x; destruct x
    | |- context [if py_ne ?a ?b then _ else _] =>
        let H := fresh "Hne" in destruct (py_ne a b) eqn:H
    end).

(** The PostgreSQL [set_secret], case by case on what the vault returns and
    what the logins give. *)
Lemma postgres_set_secret_eq (E : env) (arn token : string) (v : vault) :
  Postgres.set_secret E arn token v
  = match fetch postgres arn AWSPENDING (Some token) v with
    | Raise e => Outcome (Raise e) v []
    | Ok pending =>
        let lp := evs (login postgres E pending) in
        match res (login postgres E pending) with
        | Raise e => Outcome (Raise e) v lp
        | Ok (Some c) => Outcome (Ok tt) v (lp ++ [EvClose c])
        | Ok None =>
            match fetch postgres arn AWSCURRENT None v with
            | Raise e => Outcome (Raise e) v lp
            | Ok cur =>
                let lc := evs (login postgres E cur) in
                match res (login postgres E cur) with
                | Raise e => Outcome (Raise e) v (lp ++ lc)
                | Ok (Some c) => changed postgres E v pending c (lp ++ lc)
                | Ok None =>
                    match fetch postgres arn AWSPREVIOUS None v with
                    | Raise ResourceNotFoundException =>
                        Outcome (Raise (unable arn)) v (lp ++ lc)
                    | Raise e => Outcome (Raise e) v (lp ++ lc)
                    | Ok prev =>
                        let lv := evs (login postgres E prev) in
                        match res (login postgres E prev) with
                        | Raise ResourceNotFoundException | Ok None =>
                            Outcome (Raise (unable arn)) v (lp ++ lc ++ lv)
                        | Raise e => Outcome (Raise e) v (lp ++ lc ++ lv)
                        | Ok (Some c) => changed postgres E v pending c (lp ++ lc ++ lv)
                        end
                    end
                end
            end
        end
    end.
Proof.
  unfold Postgres.set_secret.
  change Postgres.get_connection with (get_connection postgres).
  unfold bind, try_except, ret, raise, close, emit.
  crunch;
    rewrite ?postgres_change by (eauto using fetch_username, fetch_password);
    unfold changed, unable; cbn [res st evs];
    norm_events; done.
Qed.

(** The MariaDB [set_secret], in the same way. *)
Lemma mariadb_set_secret_eq (E : env) (arn token : string) (v : vault) :
  Mariadb.set_secret E arn token v
  = match mariadb_previous arn v with
    | Raise e => Outcome (Raise e) v []
    | Ok previous =>
    match fetch mariadb arn AWSCURRENT None v with
    | Raise e => Outcome (Raise e) v []
    | Ok cur =>
    match fetch mariadb arn AWSPENDING (Some token) v with
    | Raise e => Outcome (Raise e) v []
    | Ok pending =>
        let user d := get_default d "username" JNull in
        let host d := get_default d "host" JNull in
        let lp := evs (login mariadb E pending) in
        match res (login mariadb E pending) with
        | Raise e => Outcome (Raise e) v lp
        | Ok (Some c) => Outcome (Ok tt) v (lp ++ [EvClose c])
        | Ok None =>
            if py_ne (user cur) (user pending)
            then Outcome (Raise (wrong_user "current" (user pending) (user cur))) v lp
            else if py_ne (host cur) (host pending)
            then Outcome (Raise (wrong_host "current" (host pending) (host cur))) v lp
            else
            let lc := evs (login mariadb E cur) in
            match res (login mariadb E cur), previous with
            | Raise e, _ => Outcome (Raise e) v (lp ++ lc)
            | Ok (Some c), _ => changed mariadb E v pending c (lp ++ lc)
            | Ok None, None => Outcome (Raise (unable arn)) v (lp ++ lc)
            | Ok None, Some prev =>
                let prev' := inherit_ssl cur prev in
                let lv := evs (login mariadb E prev') in
                match res (login mariadb E prev') with
                | Raise e => Outcome (Raise e) v (lp ++ lc ++ lv)
                | Ok conn =>
                    if py_ne (user prev) (user pending)
                    then Outcome (Raise (wrong_user "last valid" (user pending) (user prev)))
                                 v (lp ++ lc ++ lv)
                    else if py_ne (host prev) (host pending)
                    then Outcome (Raise (wrong_host "previous" (host pending) (host prev)))
                                 v (lp ++ lc ++ lv)
                    else
                    match conn with
                    | None => Outcome (Raise (unable arn)) v (lp ++ lc ++ lv)
                    | Some c => changed mariadb E v pending c (lp ++ lc ++ lv)
                    end
                end
            end
        end
    end end end.
Proof.
  unfold Mariadb.set_secret, mariadb_previous.
  change Mariadb.get_connection with (get_connection mariadb).
  unfold bind, try_except, ret, raise, close, emit.
  crunch;
    rewrite ?mariadb_change by (eauto using fetch_password);
    unfold changed, unable, wrong_user, wrong_host; cbn [res st evs];
    norm_events; try done.
Qed.

Lemma connects_not_execute (l : list event) (e : event) :
  forallb is_connect l = true -> e ∈ l -> is_execute e = false.
Proof.
  intros Hl He. rewrite forallb_forall in Hl.
  apply list_elem_of_In, Hl in He. by destruct e.
Qed.

Lemma login_not_execute (eng : engine) (E : env) (d : dict) (e : event) :
  e ∈ evs (login eng E d) -> is_execute e = false.
Proof. apply connects_not_execute, login_events. Qed.

Lemma login_session (eng : engine) (E : env) (d : dict) (c : conn_args) :
  res (login eng E d) = Ok (Some c) ->
  exists e, e ∈ evs (login eng E d) ∧ is_session e = true.
Proof.
  intros H. exists (EvConnect c true). split; [|done]. by apply login_events.
Qed.

(** C4.  In both handlers, when the fetches before the first login succeed
    and the login with the [AWSPENDING] payload yields a session [c], the
    step returns success; the vault is unchanged, and its only calls are
    the connection attempts of that login followed by closing [c]: no
    statement, no commit, no write to the vault. *)
Theorem set_secret_idempotent (eng : engine) (E : env) (arn token : string) (v : vault)
    (pending : dict) (c : conn_args) :
  reaches_login eng arn token v pending ->
  res (login eng E pending) = Ok (Some c) ->
  set_secret eng E arn token v
  = Outcome (Ok tt) v (evs (login eng E pending) ++ [EvClose c])
  ∧ forallb is_connect (evs (login eng E pending)) = true
  ∧ EvConnect c true ∈ evs (login eng E pending).
Proof.
  intros Hreach Hlogin.
  split; [|split; [apply login_events | by apply login_events]].
  destruct eng; unfold set_secret, reaches_login in *.
  - destruct Hreach as (Hprev & [cur Hcur] & Hpend).
    rewrite mariadb_set_secret_eq. unfold mariadb_previous.
    destruct (fetch mariadb arn AWSPREVIOUS None v) as [prev|[]]; try done;
      by rewrite Hcur, Hpend, Hlogin.
  - rewrite postgres_set_secret_eq. by rewrite Hreach, Hlogin.
Qed.

Lemma same_account_true (a b : dict) :
  same_account a b = true ->
  py_ne (get_default a "username" JNull) (get_default b "username" JNull) = false
  ∧ py_ne (get_default a "host" JNull) (get_default b "host" JNull) = false.
Proof. unfold same_account, py_ne. intros [-> ->]%andb_true_iff. done. Qed.

Lemma same_account_false (a b : dict) :
  same_account a b = false ->
  py_ne (get_default a "username" JNull) (get_default b "username" JNull) = true
  ∨ (py_ne (get_default a "username" JNull) (get_default b "username" JNull) = false
     ∧ py_ne (get_default a "host" JNull) (get_default b "host" JNull) = true).
Proof.
  unfold same_account, py_ne.
  destruct (py_eq (get_default a "username" JNull) (get_default b "username" JNull));
    simpl; [|by left].
  intros ->. by right.
Qed.

Ltac cases :=
  repeat (
    known; cbv beta iota zeta; cbn [res st evs];
    match goal with
    | |- context [match fetch ?g ?a ?s ?t ?v with _ => _ end] =>
        let d := fresh "d" in let x := fresh "x" in let H := fresh "Hfetch" in
        destruct (fetch g a s t v) as [d|x] eqn:H
    | |- context [match res (login ?g ?E ?d) with _ => _ end] =>
        let c := fresh "c" in let x := fresh "x" in let H := fresh "Hlogin" in
        destruct (res (login g E d)) as [[c|]|x] eqn:H
    | |- context [match ?x with ResourceNotFoundException => _ | _ => _ end] =>
        is_var x; destruct x
    | |- context [if py_ne ?a ?b then _ else _] =>
        let H := fresh "Hne" in destruct (py_ne a b) eqn:H
    end).

Ltac in_events He :=
  repeat (apply elem_of_app in He as [He|He]);
  try (by apply elem_of_nil in He).

Ltac no_session Hno :=
  match goal with
  | H : res (login ?g ?E ?d) = Ok (Some ?c) |- _ =>
      exfalso;
      destruct (login_session g E d c H) as (?e & ?Hin & ?Hs);
      rewrite Hno in Hs; [discriminate|];
      solve [rewrite ?elem_of_app; auto 10]
  end.

(** C3.  In both handlers: when [AWSPREVIOUS] is not found, the step goes
    on as with no previous credential (it changes the password over the
    session of [AWSCURRENT], or fails with the "unable to log in" error when
    that login gives none);  and whenever no connection attempt of the
    step opened a session, the step ends in an error, has run no statement
    and has left the vault as it was. *)
Theorem set_secret_needs_session (eng : engine) (E : env) (arn token : string) (v : vault) :
  let o := set_secret eng E arn token v in
  (fetch eng arn AWSPREVIOUS None v = Raise ResourceNotFoundException ->
   forall pending cur,
     fetch eng arn AWSPENDING (Some token) v = Ok pending ->
     fetch eng arn AWSCURRENT None v = Ok cur ->
     res (login eng E pending) = Ok None ->
     (eng = mariadb -> same_account cur pending = true) ->
     let l := (evs (login eng E pending) ++ evs (login eng E cur))%list in
     (forall c, res (login eng E cur) = Ok (Some c) -> o = changed eng E v pending c l)
     ∧ (res (login eng E cur) = Ok None -> o = Outcome (Raise (unable arn)) v l))
  ∧ ((forall e, e ∈ evs o -> is_session e = false) ->
     (exists x, res o = Raise x)
     ∧ (forall e, e ∈ evs o -> is_execute e = false)
     ∧ st o = v).
Proof.
  intros o. subst o. split.
  - intros Hprev pending cur Hpend Hcur Hlp Hsame l. subst l.
    destruct eng; unfold set_secret.
    + destruct (same_account_true _ _ (Hsame eq_refl)) as [Hu Hh].
      rewrite mariadb_set_secret_eq. unfold mariadb_previous.
      rewrite Hprev, Hcur, Hpend. cbv zeta. rewrite Hlp, Hu, Hh.
      split; [intros c Hlc | intros Hlc]; by rewrite Hlc.
    + rewrite postgres_set_secret_eq.
      rewrite Hpend. cbv zeta. rewrite Hlp, Hcur.
      split; [intros c Hlc | intros Hlc]; rewrite Hlc; [done|].
      by rewrite Hprev.
  - destruct eng; unfold set_secret.
    + rewrite mariadb_set_secret_eq. unfold mariadb_previous.
      cases; unfold changed; cbn [res st evs]; intros Hno;
        first [ no_session Hno
              | split; [by eexists|]; split; [|done];
                intros e He; in_events He; by eapply login_not_execute ].
    + rewrite postgres_set_secret_eq.
      cases; unfold changed; cbn [res st evs]; intros Hno;
        first [ no_session Hno
              | split; [by eexists|]; split; [|done];
                intros e He; in_events He; by eapply login_not_execute ].
Qed.

Lemma set_secret_idempotent_witness :
  set_secret mariadb (env_of (accepts_password "new") "n3w") "arn" "v2" staged_vault
  = Outcome (Ok tt) staged_vault
      [EvConnect (conn_of "app" "new" (Ssl true)) true;
       EvClose (conn_of "app" "new" (Ssl true))].
Proof.
  refine (proj1 (set_secret_idempotent mariadb (env_of (accepts_password "new") "n3w")
                   "arn" "v2" staged_vault (record "mariadb" "app" "new")
                   (conn_of "app" "new" (Ssl true)) _ _)).
  - split; [exact I|]. split; [by eexists | reflexivity].
  - reflexivity.
Defined.

Lemma set_secret_needs_session_witness :
  set_secret postgres (env_of (accepts_password "old") "n3w") "arn" "v2"
    (two_version_vault "postgres")
  = changed postgres (env_of (accepts_password "old") "n3w") (two_version_vault "postgres")
      (record "postgres" "app" "new") (conn_of "app" "old" (SslMode (JStr "prefer")))
      [EvConnect (conn_of "app" "new" (SslMode (JStr "prefer"))) false;
       EvConnect (conn_of "app" "old" (SslMode (JStr "prefer"))) true]
  ∧ exists x,
      res (set_secret mariadb (env_of (fun _ => false) "n3w") "arn" "v2" staged_vault)
      = Raise x.
Proof.
  split.
  - refine (proj1 (proj1 (set_secret_needs_session postgres
                     (env_of (accepts_password "old") "n3w") "arn" "v2"
                     (two_version_vault "postgres")) _
                     (record "postgres" "app" "new") (record "postgres" "app" "old")
                     _ _ _ _) (conn_of "app" "old" (SslMode (JStr "prefer"))) _);
      reflexivity.
  - refine (proj1 (proj2 (set_secret_needs_session mariadb (env_of (fun _ => false) "n3w")
                            "arn" "v2" staged_vault) _)).
    apply Forall_forall. vm_compute. repeat constructor.
Defined.

Lemma mariadb_checks_account (E : env) (arn token : string) (v : vault)
    (cur pending : dict) :
  reaches_login mariadb arn token v pending ->
  fetch mariadb arn AWSCURRENT None v = Ok cur ->
  res (login mariadb E pending) = Ok None ->
  same_account cur pending = false ->
  exists m,
    Mariadb.set_secret E arn token v
    = Outcome (Raise (ValueError m)) v (evs (login mariadb E pending)).
Proof.
  intros (Hprev & _ & Hpend) Hcur Hlogin Hsame.
  rewrite mariadb_set_secret_eq. unfold mariadb_previous.
  destruct (fetch mariadb arn AWSPREVIOUS None v) as [prev|[]]; try done;
    rewrite Hcur, Hpend; cbv zeta; rewrite Hlogin;
    destruct (same_account_false _ _ Hsame) as [-> | [-> ->]]; by eexists.
Qed.

(** C1 fails on the PostgreSQL handler.  The pending payload names [bob],
    the current one [alice], and only the current password works: the step
    logs in as [alice] and changes the password of [bob], with no error.
    (The MariaDB handler stops here: [mariadb_checks_account].) *)
Theorem postgres_rotates_other_account :
  Postgres.set_secret (env_of (accepts_password "old") "n3w") "arn" "v2" crossed_vault
  = Outcome (Ok tt) crossed_vault
      [EvConnect (conn_of "bob" "new" (SslMode (JStr "prefer"))) false;
       EvConnect (conn_of "alice" "old" (SslMode (JStr "prefer"))) true;
       EvExecute (conn_of "alice" "old" (SslMode (JStr "prefer")))
                 "ALTER ROLE bob WITH ENCRYPTED PASSWORD 'new'" [];
       EvCommit (conn_of "alice" "old" (SslMode (JStr "prefer")));
       EvClose (conn_of "alice" "old" (SslMode (JStr "prefer")))].
Proof. by vm_compute. Qed.

Lemma inherit_ssl_same (cur prev : dict) : inherit_ssl cur prev !! "ssl" = cur !! "ssl".
Proof.
  unfold inherit_ssl. destruct (cur !! "ssl") as [x|] eqn:Hx.
  - by rewrite lookup_insert_eq.
  - by rewrite lookup_delete_eq.
Qed.

Lemma same_account_inherit (cur prev pending : dict) :
  same_account (inherit_ssl cur prev) pending = same_account prev pending.
Proof. unfold same_account. by rewrite !get_default_inherit. Qed.

Lemma postgres_transport (E : env) (d : dict) (a : conn_args) (ok : bool) :
  EvConnect a ok ∈ evs (login postgres E d) ->
  c_transport a = SslMode (get_default d "sslmode" (JStr "prefer")).
Proof.
  unfold login, get_connection, Postgres.get_connection, bind, lift, emit, ret, raise, item.
  destruct (match d !! "port" with Some p => py_int p | None => Ok 5432%Z end) as [p|];
    [|by intros ?%elem_of_nil].
  destruct (d !! "host"), (d !! "username"), (d !! "password"); simpl;
    try by intros ?%elem_of_nil.
  destruct (connect E _); simpl; by intros [= -> ->]%list_elem_of_singleton.
Qed.

(** C5, amended.  In the MariaDB handler, when the login with
    [AWSPREVIOUS] is attempted (the logins with [AWSPENDING] and
    [AWSCURRENT] gave no session), the record used for it is the previous
    payload with its [ssl] entry replaced by the one of [AWSCURRENT] (none
    if [AWSCURRENT] has none), so the transport setting is the one of
    [AWSCURRENT]; and when that login returns, a previous payload naming
    another username or host than [AWSPENDING] is a fatal error and no
    statement is run.  In the PostgreSQL handler the login with
    [AWSPREVIOUS] uses the previous payload as fetched, with its own
    [sslmode]. *)
Theorem previous_fallback (E : env) (arn token : string) (v : vault)
    (prev cur pending : dict) :
  (fetch mariadb arn AWSPREVIOUS None v = Ok prev ->
   fetch mariadb arn AWSCURRENT None v = Ok cur ->
   fetch mariadb arn AWSPENDING (Some token) v = Ok pending ->
   res (login mariadb E pending) = Ok None ->
   same_account cur pending = true ->
   res (login mariadb E cur) = Ok None ->
   let used := inherit_ssl cur prev in
   let o := Mariadb.set_secret E arn token v in
   let l := (evs (login mariadb E pending) ++ evs (login mariadb E cur)
             ++ evs (login mariadb E used))%list in
   used !! "ssl" = cur !! "ssl"
   ∧ Mariadb.get_ssl_config used = Mariadb.get_ssl_config cur
   ∧ (forall k, k ≠ "ssl" -> used !! k = prev !! k)
   ∧ (exists rest, evs o = (l ++ rest)%list)
   ∧ (forall conn, res (login mariadb E used) = Ok conn ->
      same_account prev pending = false ->
      exists m, o = Outcome (Raise (ValueError m)) v l))
  ∧ (fetch postgres arn AWSPENDING (Some token) v = Ok pending ->
     res (login postgres E pending) = Ok None ->
     fetch postgres arn AWSCURRENT None v = Ok cur ->
     res (login postgres E cur) = Ok None ->
     fetch postgres arn AWSPREVIOUS None v = Ok prev ->
     (exists rest,
        evs (Postgres.set_secret E arn token v)
        = (evs (login postgres E pending) ++ evs (login postgres E cur)
           ++ evs (login postgres E prev) ++ rest)%list)
     ∧ (forall a ok, EvConnect a ok ∈ evs (login postgres E prev) ->
        c_transport a = SslMode (get_default prev "sslmode" (JStr "prefer")))).
Proof.
  split.
  - intros Hprev Hcur Hpend Hlp Hsame Hlc used o l.
    destruct (same_account_true _ _ Hsame) as [Hu Hh].
    assert (Ho : o = match res (login mariadb E used) with
                     | Raise e => Outcome (Raise e) v l
                     | Ok conn =>
                         if py_ne (get_default prev "username" JNull)
                                  (get_default pending "username" JNull)
                         then Outcome (Raise (wrong_user "last valid"
                                (get_default pending "username" JNull)
                                (get_default prev "username" JNull))) v l
                         else if py_ne (get_default prev "host" JNull)
                                       (get_default pending "host" JNull)
                         then Outcome (Raise (wrong_host "previous"
                                (get_default pending "host" JNull)
                                (get_default prev "host" JNull))) v l
                         else match conn with
                              | None => Outcome (Raise (unable arn)) v l
                              | Some c => changed mariadb E v pending c l
                              end
                     end).
    { subst o. rewrite mariadb_set_secret_eq. unfold mariadb_previous.
      rewrite Hprev, Hcur, Hpend. cbv zeta. by rewrite Hlp, Hu, Hh, Hlc. }
    split; [apply inherit_ssl_same|].
    split; [unfold Mariadb.get_ssl_config, used; by rewrite inherit_ssl_same|].
    split; [intros k Hk; by apply inherit_ssl_lookup|].
    split.
    + rewrite Ho. clear Ho Hu Hh.
      destruct (res (login mariadb E used)) as [conn|e];
        [|exists []; cbn [evs]; by rewrite app_nil_r].
      destruct (py_ne (get_default prev "username" JNull) _);
        [exists []; cbn [evs]; by rewrite app_nil_r|].
      destruct (py_ne (get_default prev "host" JNull) _);
        [exists []; cbn [evs]; by rewrite app_nil_r|].
      destruct conn as [c|]; [|exists []; cbn [evs]; by rewrite app_nil_r].
      eexists. unfold changed. cbn [evs]. reflexivity.
    + intros conn Hlv Hdiff. rewrite Ho, Hlv.
      destruct (same_account_false _ _ Hdiff) as [-> | [-> ->]]; by eexists.
  - intros Hpend Hlp Hcur Hlc Hprev. split; [|apply postgres_transport].
    rewrite postgres_set_secret_eq, Hpend. cbv zeta. rewrite Hlp, Hcur, Hlc, Hprev.
    destruct (res (login postgres E prev)) as [[c|]|[]]; unfold changed; cbn [evs];
      first [ by eexists (_ : list event); rewrite <- !app_assoc
            | exists []; by rewrite !app_nil_r ].
Qed.

Lemma previous_fallback_witness :
  exists m,
    Mariadb.set_secret (env_of (fun _ => false) "n3w") "arn" "v2" mariadb_fallback_vault
    = Outcome (Raise (ValueError m)) mariadb_fallback_vault
        [EvConnect (conn_of "app" "new" (Ssl true)) false;
         EvConnect (conn_of "app" "new" (Ssl false)) false;
         EvConnect (conn_of "app" "old" (Ssl true)) false;
         EvConnect (conn_of "carol" "older" (Ssl true)) false].
Proof.
  destruct (previous_fallback (env_of (fun _ => false) "n3w") "arn" "v2"
              mariadb_fallback_vault
              (<["ssl" := JBool false]> (record "mariadb" "carol" "older"))
              (<["ssl" := JStr "true"]> (record "mariadb" "app" "old"))
              (record "mariadb" "app" "new")) as [H _].
  destruct (H eq_refl eq_refl eq_refl eq_refl eq_refl eq_refl) as (_ & _ & _ & _ & Hfatal).
  destruct (Hfatal None eq_refl eq_refl) as [m Hm].
  exists m. exact Hm.
Defined.

(** C5 as stated fails on the PostgreSQL handler: the login with
    [AWSPREVIOUS] is made with the previous payload's own [sslmode]
    ([disable], where [AWSCURRENT] says [require]), and the previous
    payload names another user than [AWSPENDING] without any error: the
    password of [app] is changed over the session of [carol]. *)
Lemma postgres_previous_keeps_own_sslmode :
  Postgres.set_secret (env_of (accepts_password "older") "n3w") "arn" "v2" fallback_vault
  = Outcome (Ok tt) fallback_vault
      [EvConnect (conn_of "app" "new" (SslMode (JStr "require"))) false;
       EvConnect (conn_of "app" "old" (SslMode (JStr "require"))) false;
       EvConnect (conn_of "carol" "older" (SslMode (JStr "disable"))) true;
       EvExecute (conn_of "carol" "older" (SslMode (JStr "disable")))
                 "ALTER ROLE app WITH ENCRYPTED PASSWORD 'new'" [];
       EvCommit (conn_of "carol" "older" (SslMode (JStr "disable")));
       EvClose (conn_of "carol" "older" (SslMode (JStr "disable")))].
Proof. by vm_compute. Qed.

(** ** Validation errors *)

Lemma invalid_rejected (eng : engine) (d : dict) :
  invalid_payload eng d ->
  exists m,
    check_engine eng d = Raise (KeyError m)
    ∨ (check_engine eng d = Ok tt ∧ check_fields required_fields d = Raise (KeyError m)).
Proof.
  assert (Hfields : (exists f, f ∈ required_fields ∧ d !! f = None) ->
            exists m, check_fields required_fields d = Raise (KeyError m)).
  { intros (f & Hf & Hnone). unfold required_fields in Hf.
    unfold required_fields, check_fields, has_key.
    repeat (apply elem_of_cons in Hf as [-> | Hf]); [..|by apply elem_of_nil in Hf];
      destruct (d !! "host"), (d !! "username"), (d !! "password");
      simpl; try done; by eexists. }
  assert (Hengine : check_engine eng d = Ok tt
                    ∨ exists m, check_engine eng d = Raise (KeyError m)).
  { unfold check_engine.
    destruct eng; destruct (negb _ || _); first [by left | right; by eexists]. }
  intros [Hnone | [(x & Hx & Hacc) | Hf]].
  - unfold check_engine, has_key. rewrite Hnone.
    destruct eng; simpl; eexists; left; reflexivity.
  - unfold check_engine, has_key, get_default, py_ne. rewrite Hx.
    unfold accepted in Hacc. destruct eng; rewrite Hacc; simpl; eexists; left; reflexivity.
  - destruct (Hfields Hf) as [m Hm].
    destruct Hengine as [Hok | [m' Hm']].
    + exists m. by right.
    + exists m'. by left.
Qed.

Lemma fetch_invalid (eng : engine) (arn stage : string) (t : option string) (v : vault)
    (d : dict) :
  res (get_secret_value (if truthy t then t else None) stage v) = Ok (Json d) ->
  invalid_payload eng d ->
  exists m, fetch eng arn stage t v = Raise (KeyError m).
Proof.
  intros Hget Hinv. rewrite fetch_eq, Hget. unfold json_loads.
  destruct (invalid_rejected eng d Hinv) as [m [-> | [-> ->]]]; by eexists.
Qed.

Lemma test_secret_propagates (eng : engine) (E : env) (arn token : string) (v : vault)
    (e : exn) :
  fetch eng arn AWSPENDING (Some token) v = Raise e ->
  test_secret eng E arn token v = Outcome (Raise e) v [].
Proof. intros H. unfold test_secret. by rewrite bind_fetch, H. Qed.

Lemma create_secret_needs_current (eng : engine) (E : env) (arn token : string) (v : vault)
    (e : exn) :
  fetch eng arn AWSCURRENT None v = Raise e ->
  create_secret eng E arn token v = Outcome (Raise e) v [].
Proof. intros H. unfold create_secret. by rewrite bind_fetch, H. Qed.

Lemma lambda_handler_runs (eng : engine) (E : env) (event : rotation_event) (v : vault)
    (stages : list string) (h : string -> string -> M unit) :
  is_Some (environ E !! "SECRETS_MANAGER_ENDPOINT") ->
  RotationEnabled v ≠ Some false ->
  assoc (ClientRequestToken event) (VersionIdsToStages v) = Some stages ->
  AWSCURRENT ∉ stages -> AWSPENDING ∈ stages ->
  handler_of eng E (Step event) = Some h ->
  lambda_handler eng E event v = h (SecretId event) (ClientRequestToken event) v.
Proof.
  intros Hend Hen Hst Hc Hp Hh.
  destruct (lambda_handler_cases eng E event v Hend) as [_ H].
  destruct (H Hen) as [_ H']. destruct (H' stages Hst) as (_ & _ & H'').
  destruct (H'' Hc Hp) as (H1 & H2 & H3 & H4 & _).
  unfold handler_of in Hh.
  destruct (String.eqb_spec (Step event) "createSecret"); [injection Hh as <-; auto|].
  destruct (String.eqb_spec (Step event) "setSecret"); [injection Hh as <-; auto|].
  destruct (String.eqb_spec (Step event) "testSecret"); [injection Hh as <-; auto|].
  destruct (String.eqb_spec (Step event) "finishSecret"); [injection Hh as <-; auto|].
  done.
Qed.

Lemma handler_of_none (eng : engine) (E : env) (step : string) :
  handler_of eng E step = None -> step ∉ step_names.
Proof.
  unfold handler_of, step_names.
  destruct (String.eqb_spec step "createSecret"); [done|].
  destruct (String.eqb_spec step "setSecret"); [done|].
  destruct (String.eqb_spec step "testSecret"); [done|].
  destruct (String.eqb_spec step "finishSecret"); [done|].
  intros _ H. repeat (apply elem_of_cons in H as [H|H]; [done|]).
  by apply elem_of_nil in H.
Qed.

(** C9, amended.  In both handlers a payload with no [engine], with an
    engine the handler does not accept, or with [host], [username] or
    [password] missing makes [get_secret_dict] raise [KeyError];  that
    error (like any other error of the fetch) comes out of [create_secret]
    and [test_secret], out of the PostgreSQL [set_secret] for each payload it
    fetches, and out of the MariaDB [set_secret] for [AWSCURRENT] and
    [AWSPENDING];  in the MariaDB [set_secret] a payload naming another
    username or host than [AWSPENDING] is a [ValueError].  The one error
    that is caught: in the MariaDB [set_secret] a [KeyError] of the
    [AWSPREVIOUS] payload is handled like its absence, and the step goes
    on with [AWSCURRENT].  In the dispatcher, rotation disabled, a token
    that is unlisted or not [AWSPENDING], and an unknown step name are each
    a [ValueError], and what a step returns or raises is what the
    dispatcher returns or raises. *)
Theorem validation_errors_surface (eng : engine) (E : env) (event : rotation_event)
    (v : vault) :
  let arn := SecretId event in
  let token := ClientRequestToken event in
  (forall stage t d,
     res (get_secret_value (if truthy t then t else None) stage v) = Ok (Json d) ->
     invalid_payload eng d ->
     exists m, fetch eng arn stage t v = Raise (KeyError m))
  ∧ (forall e,
       fetch eng arn AWSCURRENT None v = Raise e ->
       create_secret eng E arn token v = Outcome (Raise e) v [])
  ∧ (forall cur e,
       fetch eng arn AWSCURRENT None v = Ok cur ->
       fetch eng arn AWSPENDING (Some token) v = Raise e ->
       e ≠ ResourceNotFoundException ->
       create_secret eng E arn token v = Outcome (Raise e) v [])
  ∧ (forall e,
       fetch eng arn AWSPENDING (Some token) v = Raise e ->
       test_secret eng E arn token v = Outcome (Raise e) v [])
  ∧ (forall e,
       fetch postgres arn AWSPENDING (Some token) v = Raise e ->
       Postgres.set_secret E arn token v = Outcome (Raise e) v [])
  ∧ (forall pending e,
       fetch postgres arn AWSPENDING (Some token) v = Ok pending ->
       res (login postgres E pending) = Ok None ->
       fetch postgres arn AWSCURRENT None v = Raise e ->
       Postgres.set_secret E arn token v
       = Outcome (Raise e) v (evs (login postgres E pending)))
  ∧ (forall pending cur e,
       fetch postgres arn AWSPENDING (Some token) v = Ok pending ->
       res (login postgres E pending) = Ok None ->
       fetch postgres arn AWSCURRENT None v = Ok cur ->
       res (login postgres E cur) = Ok None ->
       fetch postgres arn AWSPREVIOUS None v = Raise e ->
       e ≠ ResourceNotFoundException ->
       Postgres.set_secret E arn token v
       = Outcome (Raise e) v (evs (login postgres E pending) ++ evs (login postgres E cur)))
  ∧ (forall previous e,
       mariadb_previous arn v = Ok previous ->
       fetch mariadb arn AWSCURRENT None v = Raise e ->
       Mariadb.set_secret E arn token v = Outcome (Raise e) v [])
  ∧ (forall previous cur e,
       mariadb_previous arn v = Ok previous ->
       fetch mariadb arn AWSCURRENT None v = Ok cur ->
       fetch mariadb arn AWSPENDING (Some token) v = Raise e ->
       Mariadb.set_secret E arn token v = Outcome (Raise e) v [])
  ∧ (forall previous cur pending,
       mariadb_previous arn v = Ok previous ->
       fetch mariadb arn AWSCURRENT None v = Ok cur ->
       fetch mariadb arn AWSPENDING (Some token) v = Ok pending ->
       res (login mariadb E pending) = Ok None ->
       same_account cur pending = false ->
       exists m,
         Mariadb.set_secret E arn token v
         = Outcome (Raise (ValueError m)) v (evs (login mariadb E pending)))
  ∧ (forall prev cur pending conn,
       fetch mariadb arn AWSPREVIOUS None v = Ok prev ->
       fetch mariadb arn AWSCURRENT None v = Ok cur ->
       fetch mariadb arn AWSPENDING (Some token) v = Ok pending ->
       res (login mariadb E pending) = Ok None ->
       same_account cur pending = true ->
       res (login mariadb E cur) = Ok None ->
       res (login mariadb E (inherit_ssl cur prev)) = Ok conn ->
       same_account prev pending = false ->
       exists m,
         Mariadb.set_secret E arn token v
         = Outcome (Raise (ValueError m)) v
             (evs (login mariadb E pending) ++ evs (login mariadb E cur)
              ++ evs (login mariadb E (inherit_ssl cur prev))))
  ∧ (forall m cur pending c,
       fetch mariadb arn AWSPREVIOUS None v = Raise (KeyError m) ->
       fetch mariadb arn AWSCURRENT None v = Ok cur ->
       fetch mariadb arn AWSPENDING (Some token) v = Ok pending ->
       res (login mariadb E pending) = Ok None ->
       same_account cur pending = true ->
       res (login mariadb E cur) = Ok (Some c) ->
       Mariadb.set_secret E arn token v
       = changed mariadb E v pending c
           (evs (login mariadb E pending) ++ evs (login mariadb E cur)))
  ∧ (is_Some (environ E !! "SECRETS_MANAGER_ENDPOINT") ->
     let o := lambda_handler eng E event v in
     (RotationEnabled v = Some false -> exists m, o = Outcome (Raise (ValueError m)) v [])
     ∧ (RotationEnabled v ≠ Some false ->
        (assoc token (VersionIdsToStages v) = None ->
           exists m, o = Outcome (Raise (ValueError m)) v [])
        ∧ (forall stages,
             assoc token (VersionIdsToStages v) = Some stages ->
             AWSCURRENT ∉ stages ->
             (AWSPENDING ∉ stages -> exists m, o = Outcome (Raise (ValueError m)) v [])
             ∧ (AWSPENDING ∈ stages ->
                (handler_of eng E (Step event) = None ->
                   exists m, o = Outcome (Raise (ValueError m)) v [])
                ∧ (forall h, handler_of eng E (Step event) = Some h ->
                     o = h arn token v))))).
Proof.
  intros arn token.
  split; [intros stage t d; apply fetch_invalid|].
  split; [intros e; apply create_secret_needs_current|].
  split; [intros cur e; apply create_secret_propagates|].
  split; [intros e; apply test_secret_propagates|].
  split; [intros e H; by rewrite postgres_set_secret_eq, H|].
  split.
  { intros pending e Hp Hlp Hc. rewrite postgres_set_secret_eq, Hp. cbv zeta.
    by rewrite Hlp, Hc. }
  split.
  { intros pending cur e Hp Hlp Hc Hlc Hv Hne.
    rewrite postgres_set_secret_eq, Hp. cbv zeta. rewrite Hlp, Hc, Hlc, Hv.
    by destruct e. }
  split; [intros previous e Hv Hc; by rewrite mariadb_set_secret_eq, Hv, Hc|].
  split; [intros previous cur e Hv Hc Hp; by rewrite mariadb_set_secret_eq, Hv, Hc, Hp|].
  split.
  { intros previous cur pending Hv Hc Hp Hlp Hdiff.
    rewrite mariadb_set_secret_eq, Hv, Hc, Hp. cbv zeta. rewrite Hlp.
    destruct (same_account_false _ _ Hdiff) as [-> | [-> ->]]; by eexists. }
  split.
  { intros prev cur pending conn Hv Hc Hp Hlp Hsame Hlc Hlv Hdiff.
    destruct (same_account_true _ _ Hsame) as [Hu Hh].
    rewrite mariadb_set_secret_eq. unfold mariadb_previous.
    rewrite Hv, Hc, Hp. cbv zeta. rewrite Hlp, Hu, Hh, Hlc, Hlv.
    destruct (same_account_false _ _ Hdiff) as [-> | [-> ->]]; by eexists. }
  split.
  { intros m cur pending c Hv Hc Hp Hlp Hsame Hlc.
    destruct (same_account_true _ _ Hsame) as [Hu Hh].
    rewrite mariadb_set_secret_eq. unfold mariadb_previous.
    rewrite Hv, Hc, Hp. cbv zeta. by rewrite Hlp, Hu, Hh, Hlc. }
  intros Hend o.
  destruct (lambda_handler_cases eng E event v Hend) as [Hoff Hon].
  split; [exact Hoff|].
  intros Hen. destruct (Hon Hen) as [Hnone Hsome].
  split; [exact Hnone|].
  intros stages Hst Hc. destruct (Hsome stages Hst) as (_ & Hnp & Hp).
  split; [by apply Hnp|].
  intros Hpend. destruct (Hp Hc Hpend) as (_ & _ & _ & _ & Hbad).
  split.
  - intros Hh. by apply Hbad, (handler_of_none eng E).
  - intros h Hh. by apply (lambda_handler_runs eng E event v stages).
Qed.

Lemma validation_errors_surface_witness :
  (exists m,
     fetch mariadb "arn" AWSPREVIOUS None broken_previous_vault = Raise (KeyError m))
  ∧ (exists m,
       lambda_handler mariadb (env_of (fun _ => false) "n3w")
         (RotationEvent "arn" "v2" "rotate") broken_previous_vault
       = Outcome (Raise (ValueError m)) broken_previous_vault []).
Proof.
  pose proof (validation_errors_surface mariadb (env_of (fun _ => false) "n3w")
                (RotationEvent "arn" "v2" "rotate") broken_previous_vault) as H.
  cbv zeta in H.
  destruct H as (Hpayload & _ & _ & _ & _ & _ & _ & _ & _ & _ & _ & _ & Hdispatch).
  split.
  - apply (Hpayload AWSPREVIOUS None (delete "host" (record "mariadb" "app" "older")));
      [reflexivity|].
    right. right. exists "host". split; [by apply elem_true | reflexivity].
  - destruct Hdispatch as [_ Hon]; [by eexists|].
    destruct Hon as [_ Hsome]; [discriminate|].
    destruct (Hsome [AWSPENDING] eq_refl) as [_ Hpending]; [by apply elem_false|].
    destruct Hpending as [Hbad _]; [by apply elem_true|].
    exact (Hbad eq_refl).
Defined.

(** C9 as stated fails on the MariaDB handler: the previous payload has no
    [host], so reading it raises [KeyError]; [set_secret] catches that
    error and goes on to change the password with the current
    credential. *)
Lemma mariadb_swallows_invalid_previous :
  fetch mariadb "arn" AWSPREVIOUS None broken_previous_vault
  = Raise (KeyError "host key is missing from secret JSON")
  ∧ Mariadb.set_secret (env_of (accepts_password "old") "n3w") "arn" "v2"
      broken_previous_vault
    = Outcome (Ok tt) broken_previous_vault
        [EvConnect (conn_of "app" "new" (Ssl true)) false;
         EvConnect (conn_of "app" "new" (Ssl false)) false;
         EvConnect (conn_of "app" "old" (Ssl true)) true;
         EvExecute (conn_of "app" "old" (Ssl true)) "SET PASSWORD = PASSWORD(%s)"
                   [JStr "new"];
         EvCommit (conn_of "app" "old" (Ssl true));
         EvClose (conn_of "app" "old" (Ssl true))].
Proof. by vm_compute. Qed.

(** * Further properties *)

(** ** Environment variables and the password generator *)

Lemma lower_ascii_idem (c : ascii) : lower_ascii (lower_ascii c) = lower_ascii c.
Proof. destruct c as [[] [] [] [] [] [] [] []]; reflexivity. Qed.

Lemma lower_idem (s : string) : lower (lower s) = lower s.
Proof. induction s as [|c s IH]; [done|]. simpl. by rewrite lower_ascii_idem, IH. Qed.

(** X1.  [get_environment_bool]: when the variable is not set the result
    is the default;  when it is set the result is true exactly when its
    value, in lower case, is one of [true], [1], [y], [yes], so that neither
    the default nor the letter case of the value plays a part. *)
Theorem get_environment_bool_cases (E E' : env) (name : string) (default default' : bool) :
  (environ E !! name = None -> get_environment_bool E name default = default)
  ∧ (forall x, environ E !! name = Some x ->
       get_environment_bool E name default = elem (lower x) ["true"; "1"; "y"; "yes"])
  ∧ (forall x x', environ E !! name = Some x -> environ E' !! name = Some x' ->
       lower x = lower x' ->
       get_environment_bool E name default = get_environment_bool E' name default').
Proof.
  unfold get_environment_bool. split; [|split].
  - intros ->. by destruct default.
  - by intros x ->.
  - intros x x' -> -> Hl. by rewrite Hl.
Qed.

Lemma get_environment_bool_cases_witness :
  get_environment_bool (env_of (fun _ => false) "n3w") "REQUIRE_EACH_INCLUDED_TYPE" true = true
  ∧ get_environment_bool
      (Env (fun _ => OperationalError) (fun _ _ _ => None) (fun _ => None)
           {["REQUIRE_EACH_INCLUDED_TYPE" := "on"]} (fun _ => Ok "n3w"))
      "REQUIRE_EACH_INCLUDED_TYPE" true = false.
Proof.
  split.
  - apply (get_environment_bool_cases (env_of (fun _ => false) "n3w")
             (env_of (fun _ => false) "n3w") "REQUIRE_EACH_INCLUDED_TYPE" true true).
    reflexivity.
  - refine (proj1 (proj2 (get_environment_bool_cases _ (env_of (fun _ => false) "n3w")
             "REQUIRE_EACH_INCLUDED_TYPE" true true)) "on" _).
    reflexivity.
Defined.







(** ** Accepted payloads *)

Lemma check_engine_accepted (eng : engine) (d : dict) :
  check_engine eng d = Ok tt <-> exists x, d !! "engine" = Some x ∧ accepted eng x = true.
Proof.
  unfold check_engine, has_key, get_default, accepted, py_ne.
  destruct (d !! "engine") as [x|]; cbn [negb orb].
  - destruct eng.
    + destruct (py_eq x (JStr "mariadb")) eqn:Hx; cbn [negb]; split; try done.
      * intros _. by exists x.
      * intros (y & [= <-] & Hy). congruence.
    + destruct (existsb (py_eq x) supported_engines) eqn:Hx; cbn [negb]; split; try done.
      * intros _. by exists x.
      * intros (y & [= <-] & Hy). congruence.
  - destruct eng; split; try done; by intros (y & [=] & _).
Qed.

Lemma check_engine_error (eng : engine) (d : dict) :
  check_engine eng d = Ok tt ∨ exists m, check_engine eng d = Raise (KeyError m).
Proof.
  unfold check_engine.
  destruct eng; destruct (negb _ || _); first [by left | right; by eexists].
Qed.

Lemma check_fields_required (d : dict) :
  check_fields required_fields d = Ok tt <-> forall f, f ∈ required_fields -> is_Some (d !! f).
Proof.
  split.
  - intros (Hh & Hu & Hp)%check_fields_has f Hf. unfold required_fields in Hf.
    repeat (apply elem_of_cons in Hf as [-> | Hf]); try done. by apply elem_of_nil in Hf.
  - intros H. unfold required_fields, check_fields, has_key.
    destruct (H "host") as [? ->]; [by apply elem_true|].
    destruct (H "username") as [? ->]; [by apply elem_true|].
    destruct (H "password") as [? ->]; [by apply elem_true|].
    done.
Qed.

Lemma check_fields_error (d : dict) :
  check_fields required_fields d = Ok tt
  ∨ exists m, check_fields required_fields d = Raise (KeyError m).
Proof.
  unfold required_fields, check_fields, has_key.
  destruct (d !! "host"), (d !! "username"), (d !! "password"); simpl;
    first [by left | right; by eexists].
Qed.

(** X4.  [get_secret_dict] changes nothing and makes no recorded call.  It
    returns [d] exactly when the version it looks up (the one carrying the
    stage and, for a non-empty token, having that id) holds the JSON object
    [d] and [d] is valid: an accepted [engine], and [host], [username] and
    [password] present.  An error of the lookup comes out as it is, a text
    that is not JSON gives [ValueError], an object that is not valid gives
    [KeyError]. *)
Theorem get_secret_dict_accepts (eng : engine) (arn stage : string) (token : option string)
    (v : vault) :
  let stored_text := res (get_secret_value (if truthy token then token else None) stage v) in
  let o := get_secret_dict eng arn stage token v in
  st o = v ∧ evs o = []
  ∧ (forall d, res o = Ok d <-> stored_text = Ok (Json d) ∧ valid_payload eng d)
  ∧ (forall e, stored_text = Raise e -> res o = Raise e)
  ∧ (forall text, stored_text = Ok (NotJson text) -> exists m, res o = Raise (ValueError m))
  ∧ (forall d, stored_text = Ok (Json d) -> ¬ valid_payload eng d ->
       exists m, res o = Raise (KeyError m)).
Proof.
  intros stored_text o. subst o. rewrite get_secret_dict_pure. cbn [res st evs].
  rewrite fetch_eq. fold stored_text.
  split; [done|]. split; [done|].
  unfold valid_payload.
  split; [|split; [|split]].
  - intros d. destruct stored_text as [[d'|text]|e]; unfold json_loads.
    + destruct (check_engine eng d') as [[]|e] eqn:He.
      * destruct (check_fields required_fields d') as [[]|e] eqn:Hf.
        -- split.
           ++ intros [= <-]. by rewrite <- check_engine_accepted, <- check_fields_required.
           ++ by intros [[= ->] _].
        -- split; [done|]. intros [[= ->] [_ H]].
           apply check_fields_required in H. congruence.
      * split; [done|]. intros [[= ->] [H _]].
        apply check_engine_accepted in H. congruence.
    + split; [done|]. by intros [[=] _].
    + split; [done|]. by intros [[=] _].
  - by intros e ->.
  - intros text ->. by eexists.
  - intros d -> Hnot. unfold json_loads.
    destruct (check_engine_error eng d) as [He | [m ->]]; [|by eexists].
    rewrite He.
    destruct (check_fields_error d) as [Hf | [m ->]]; [|by eexists].
    destruct Hnot. by rewrite <- check_engine_accepted, <- check_fields_required.
Qed.

Lemma get_secret_dict_accepts_witness :
  res (get_secret_dict mariadb "arn" AWSCURRENT None scenario_vault)
  = Ok (record "mariadb" "app" "old")
  ∧ exists m,
      res (get_secret_dict postgres "arn" AWSCURRENT None scenario_vault)
      = Raise (KeyError m).
Proof.
  split.
  - apply (get_secret_dict_accepts mariadb "arn" AWSCURRENT None scenario_vault).
    split; [reflexivity|]. split.
    + exists (JStr "mariadb"). by split.
    + intros f Hf. unfold required_fields in Hf.
      repeat (apply elem_of_cons in Hf as [-> | Hf]); try by eexists.
      by apply elem_of_nil in Hf.
  - apply (get_secret_dict_accepts postgres "arn" AWSCURRENT None scenario_vault)
      with (d := record "mariadb" "app" "old"); [reflexivity|].
    intros [(x & Hx & Hacc) _].
    vm_compute in Hx. injection Hx as <-. discriminate.
Defined.

Lemma accepted_one (x : json) : accepted mariadb x = true -> accepted postgres x = false.
Proof. unfold accepted. by intros ->%py_eq_str. Qed.

(** X5.  No payload is accepted by both handlers: what [get_secret_dict]
    of one handler returns, the one of the other handler rejects with
    [KeyError]. *)
Theorem handlers_disjoint (eng other : engine) (arn stage : string) (token : option string)
    (v : vault) (d : dict) :
  eng ≠ other ->
  res (get_secret_dict eng arn stage token v) = Ok d ->
  exists m, res (get_secret_dict other arn stage token v) = Raise (KeyError m).
Proof.
  intros Hne H.
  change (fetch eng arn stage token v = Ok d) in H.
  change (exists m, fetch other arn stage token v = Raise (KeyError m)).
  rewrite fetch_eq in *.
  destruct (res (get_secret_value _ stage v)) as [[d'|text]|e]; try done.
  unfold json_loads in *.
  destruct (check_engine eng d') as [[]|] eqn:He; [|done].
  apply check_engine_accepted in He as (x & Hx & Hacc).
  assert (Hother : check_engine other d' ≠ Ok tt).
  { intros (y & Hy & Hacc')%check_engine_accepted.
    assert (y = x) as -> by congruence.
    destruct eng, other; try done.
    - apply accepted_one in Hacc. congruence.
    - apply accepted_one in Hacc'. congruence. }
  destruct (check_engine_error other d') as [|[m ->]]; [done|]. by eexists.
Qed.

Lemma handlers_disjoint_witness :
  exists m,
    res (get_secret_dict postgres "arn" AWSCURRENT None scenario_vault) = Raise (KeyError m).
Proof.
  apply (handlers_disjoint mariadb postgres "arn" AWSCURRENT None scenario_vault
           (record "mariadb" "app" "old")); [discriminate | reflexivity].
Defined.

(** ** Connection attempts *)


Ltac attempts_done :=
  cbn; split; [lia|]; split;
  [ let a := fresh "a" in let ok := fresh "ok" in let Ha := fresh "Ha" in
    intros a ok Ha;
    repeat (apply elem_of_cons in Ha as [Ha|Ha]; [by injection Ha as -> ->|]);
    by apply elem_of_nil in Ha
  | let a := fresh "a" in let Ha := fresh "Ha" in
    intros a Ha;
    repeat (apply elem_of_cons in Ha as [Ha|Ha];
            [first [discriminate Ha | by injection Ha as ->]|]);
    by apply elem_of_nil in Ha ].

Lemma login_attempts (eng : engine) (E : env) (d : dict) :
  let o := login eng E d in
  (List.length (evs o) <= match eng with mariadb => 2 | postgres => 1 end)%nat
  ∧ (forall a ok, EvConnect a ok ∈ evs o ->
       d !! "host" = Some (c_host a) ∧ d !! "username" = Some (c_user a)
       ∧ d !! "password" = Some (c_password a)
       ∧ c_database a = get_default d "dbname" (default_dbname eng)
       ∧ port_of eng d = Ok (c_port a))
  ∧ (forall a, EvConnect a true ∈ evs o ->
       res o = Ok (Some a) ∧ last (evs o) = Some (EvConnect a true)).
Proof.
  unfold login, get_connection, port_of, default_port, default_dbname. destruct eng.
  - unfold Mariadb.get_connection, Mariadb.connect_and_authenticate,
      bind, lift, emit, ret, raise, item.
    destruct (match d !! "port" with Some p => py_int p | None => Ok 3306%Z end) as [p|];
      [|attempts_done].
    destruct (Mariadb.get_ssl_config d) as [b fb].
    destruct (d !! "host") as [h|]; [|attempts_done].
    destruct (d !! "username") as [u|]; [|attempts_done].
    destruct (d !! "password") as [pw|]; [|attempts_done].
    cbn.
    destruct (connect E (ConnArgs h u pw p _ (Ssl b))) eqn:Hc1; cbn;
      destruct fb; cbn; try attempts_done;
      destruct (connect E (ConnArgs h u pw p (get_default d "dbname" JNull) (Ssl false)))
        eqn:Hc2;
      attempts_done.
  - unfold Postgres.get_connection, bind, lift, emit, ret, raise, item.
    destruct (match d !! "port" with Some p => py_int p | None => Ok 5432%Z end) as [p|];
      [|attempts_done].
    destruct (d !! "host") as [h|]; [|attempts_done].
    destruct (d !! "username") as [u|]; [|attempts_done].
    destruct (d !! "password") as [pw|]; [|attempts_done].
    cbn.
    destruct (connect E _) eqn:Hc1; attempts_done.
Qed.

(** X6.  [get_connection] (both handlers) leaves the vault alone and makes
    connection attempts only: at most two in the MariaDB handler, at most
    one in the PostgreSQL one.  Every attempt uses the host, user name and
    password of the record, its database name (or the default) and its port
    (or the default).  A session is returned exactly when an attempt
    succeeded; it is the one of that attempt, and no attempt follows a
    successful one. *)
Theorem resolver_attempts (eng : engine) (E : env) (d : dict) (v : vault) :
  let o := get_connection eng E d v in
  st o = v
  ∧ forallb is_connect (evs o) = true
  ∧ (List.length (evs o) <= match eng with mariadb => 2 | postgres => 1 end)%nat
  ∧ (forall a ok, EvConnect a ok ∈ evs o ->
       d !! "host" = Some (c_host a) ∧ d !! "username" = Some (c_user a)
       ∧ d !! "password" = Some (c_password a)
       ∧ c_database a = get_default d "dbname" (default_dbname eng)
       ∧ port_of eng d = Ok (c_port a))
  ∧ (forall a, EvConnect a true ∈ evs o <-> res o = Ok (Some a))
  ∧ (forall a, EvConnect a true ∈ evs o -> last (evs o) = Some (EvConnect a true)).
Proof.
  intros o. subst o. rewrite get_connection_pure. cbn [res st evs].
  destruct (login_attempts eng E d) as (Hlen & Hargs & Hopen).
  destruct (login_events eng E d) as [Hconn Hsess].
  split; [done|]. split; [done|]. split; [done|]. split; [done|]. split.
  - intros a. split; [by intros [? _]%Hopen | apply Hsess].
  - by intros a [_ ?]%Hopen.
Qed.

Lemma resolver_attempts_witness :
  res (get_connection mariadb (env_of (accepts_password "old") "n3w")
         (record "mariadb" "app" "old") empty_vault)
  = Ok (Some (conn_of "app" "old" (Ssl true))).
Proof.
  apply (resolver_attempts mariadb (env_of (accepts_password "old") "n3w")
           (record "mariadb" "app" "old") empty_vault).
  apply list_elem_of_here.
Defined.



(** X8.  The PostgreSQL [get_connection], for a record with its required
    fields and a readable port, makes exactly one attempt, with database
    [postgres] and [sslmode] [prefer] unless the record says otherwise (and
    port 5432 when it has none);  an error of the driver, of whatever kind,
    gives no session and no exception.  The MariaDB [get_connection] does
    not catch a driver error other than [OperationalError]. *)
Theorem postgres_single_attempt (E : env) (d : dict) (h u pw : json) (p : Z) (v : vault) :
  d !! "host" = Some h -> d !! "username" = Some u -> d !! "password" = Some pw ->
  port_of postgres d = Ok p ->
  let a := ConnArgs h u pw p (get_default d "dbname" (JStr "postgres"))
             (SslMode (get_default d "sslmode" (JStr "prefer"))) in
  let b := ConnArgs h u pw p (get_default d "dbname" JNull) (Ssl true) in
  Postgres.get_connection E d v
  = Outcome (match connect E a with
             | Connected => Ok (Some a)
             | OperationalError | OtherDriverError => Ok None
             | Crash e => Raise e
             end) v [EvConnect a (succeeded E a)]
  ∧ (d !! "port" = None -> p = 5432%Z)
  ∧ (d !! "ssl" = None -> port_of mariadb d = Ok p -> connect E b = OtherDriverError ->
     exists e, Mariadb.get_connection E d v = Outcome (Raise e) v [EvConnect b false]).
Proof.
  intros Hh Hu Hp Hport a b. split; [|split].
  - unfold port_of, default_port in Hport.
    unfold Postgres.get_connection, item. rewrite Hport, Hh, Hu, Hp.
    unfold bind, lift, emit, ret, raise, succeeded. cbn. fold a.
    by destruct (connect E a).
  - intros Hn. unfold port_of in Hport. rewrite Hn in Hport. by injection Hport as <-.
  - intros Hssl Hport' Hc. unfold port_of, default_port in Hport'.
    unfold Mariadb.get_connection, Mariadb.get_ssl_config. rewrite Hport', Hssl.
    unfold bind at 1. unfold lift at 1. cbn.
    unfold bind. rewrite (connect_and_authenticate_eq E d h u pw p _ true v Hh Hu Hp).
    fold b. unfold attempt_result, succeeded. rewrite Hc. by eexists.
Qed.

Lemma postgres_single_attempt_witness :
  Postgres.get_connection (env_of (fun _ => false) "n3w") (record "postgres" "app" "old")
    empty_vault
  = Outcome (Ok None) empty_vault
      [EvConnect (conn_of "app" "old" (SslMode (JStr "prefer"))) false].
Proof.
  apply (postgres_single_attempt (env_of (fun _ => false) "n3w")
           (record "postgres" "app" "old") (JStr "db1") (JStr "app") (JStr "old") 5432
           empty_vault); reflexivity.
Defined.

Lemma get_ssl_config_cases (d : dict) (b fb : bool) :
  Mariadb.get_ssl_config d = (b, fb) ->
  if fb then b = true ∧ unrecognized_ssl (d !! "ssl") else ssl_says (d !! "ssl") b.
Proof.
  unfold Mariadb.get_ssl_config, unrecognized_ssl, ssl_says.
  destruct (d !! "ssl") as [[|b'|n|s]|]; try by intros [= <- <-].
  - intros [= <- <-]. by left.
  - destruct (String.eqb_spec (lower s) "true") as [Ht|Ht].
    { intros [= <- <-]. right. by exists s. }
    destruct (String.eqb_spec (lower s) "false") as [Hf|Hf].
    { intros [= <- <-]. right. by exists s. }
    by intros [= <- <-].
Qed.

(** X9.  The MariaDB [get_connection] connects without encryption in two
    cases only: [ssl] says false, and this is its one attempt;  or [ssl] is
    absent or unrecognized and the encrypted attempt, made first with the
    same arguments, failed with [OperationalError]. *)
Theorem unencrypted_attempts (E : env) (d : dict) (v : vault) (a : conn_args) (ok : bool) :
  let o := Mariadb.get_connection E d v in
  EvConnect a ok ∈ evs o -> c_transport a = Ssl false ->
  (ssl_says (d !! "ssl") false ∧ evs o = [EvConnect a ok])
  ∨ (unrecognized_ssl (d !! "ssl")
     ∧ connect E (with_transport a (Ssl true)) = OperationalError
     ∧ evs o = [EvConnect (with_transport a (Ssl true)) false; EvConnect a ok]).
Proof.
  intros o. subst o.
  unfold Mariadb.get_connection, Mariadb.connect_and_authenticate,
    bind, lift, emit, ret, raise, item.
  destruct (match d !! "port" with Some p => py_int p | None => Ok 3306%Z end) as [p|];
    [|by intros ?%elem_of_nil].
  destruct (Mariadb.get_ssl_config d) as [b fb] eqn:Hcfg.
  apply get_ssl_config_cases in Hcfg.
  destruct (d !! "host") as [h|]; [|by intros ?%elem_of_nil].
  destruct (d !! "username") as [u|]; [|by intros ?%elem_of_nil].
  destruct (d !! "password") as [pw|]; [|by intros ?%elem_of_nil].
  cbn.
  destruct (connect E (ConnArgs h u pw p _ (Ssl b))) eqn:Hc1; cbn;
    destruct fb; cbn;
    try destruct (connect E (ConnArgs h u pw p (get_default d "dbname" JNull) (Ssl false)))
      eqn:Hc2;
    cbn; intros Ha Ht;
    repeat (apply elem_of_cons in Ha as [Ha|Ha];
            [injection Ha as -> ->; cbn in Ht;
             first [ injection Ht as ->; left; by split
                   | destruct Hcfg as [-> ?]; discriminate Ht
                   | destruct Hcfg as [-> ?]; right; by repeat split ]|]);
    by apply elem_of_nil in Ha.
Qed.

Lemma unencrypted_attempts_witness :
  evs (Mariadb.get_connection (env_of (fun _ => false) "n3w")
         (record "mariadb" "app" "old") empty_vault)
  = [EvConnect (conn_of "app" "old" (Ssl true)) false;
     EvConnect (conn_of "app" "old" (Ssl false)) false].
Proof.
  destruct (unencrypted_attempts (env_of (fun _ => false) "n3w")
              (record "mariadb" "app" "old") empty_vault
              (conn_of "app" "old" (Ssl false)) false) as [[_ H] | (_ & _ & H)].
  - apply list_elem_of_In. vm_compute. auto.
  - reflexivity.
  - vm_compute in H. discriminate H.
  - exact H.
Defined.

(** ** [test_secret] *)

Lemma test_secret_eq (eng : engine) (E : env) (arn token : string) (v : vault) :
  test_secret eng E arn token v
  = match fetch eng arn AWSPENDING (Some token) v with
    | Raise e => Outcome (Raise e) v []
    | Ok pending =>
        let lp := evs (login eng E pending) in
        match res (login eng E pending) with
        | Raise e => Outcome (Raise e) v lp
        | Ok None => Outcome (Raise (no_login arn)) v lp
        | Ok (Some c) =>
            Outcome (statement_outcome E c probe).1 v (lp ++ (statement_outcome E c probe).2)
        end
    end.
Proof.
  unfold test_secret. rewrite bind_fetch.
  destruct (fetch eng arn AWSPENDING (Some token) v) as [pending|e]; [|done].
  rewrite bind_conn. cbv zeta.
  destruct (res (login eng E pending)) as [[c|]|e]; [| |done].
  - unfold statement_outcome, probe, finally, bind, cursor_execute, conn_commit, close,
      emit, ret, raise, prepend. cbn.
    destruct (execute E c "SELECT NOW()" []); [done|]. by destruct (commit E c).
  - unfold prepend, raise, no_login. cbn. by rewrite app_nil_r.
Qed.

Lemma login_opened (eng : engine) (E : env) (d : dict) (a : conn_args) :
  EvConnect a true ∈ evs (login eng E d) -> res (login eng E d) = Ok (Some a).
Proof. intros H. by apply login_attempts. Qed.

Lemma statement_not_connect (E : env) (c : conn_args) (s : string * list json)
    (a : conn_args) (ok : bool) :
  EvConnect a ok ∉ (statement_outcome E c s).2.
Proof.
  unfold statement_outcome.
  destruct (execute E c s.1 s.2); [|destruct (commit E c)]; cbn;
    intros H; repeat (apply elem_of_cons in H as [H|H]; [done|]); by apply elem_of_nil in H.
Qed.

Lemma statement_closes (E : env) (c : conn_args) (s : string * list json) (l : list event) :
  last (l ++ (statement_outcome E c s).2) = Some (EvClose c).
Proof.
  unfold statement_outcome.
  destruct (execute E c s.1 s.2); [|destruct (commit E c)]; cbn.
  - change [EvExecute c s.1 s.2; EvClose c]
      with ([EvExecute c s.1 s.2] ++ [EvClose c])%list.
    by rewrite app_assoc, last_snoc.
  - change [EvExecute c s.1 s.2; EvCommit c; EvClose c]
      with ([EvExecute c s.1 s.2; EvCommit c] ++ [EvClose c])%list.
    by rewrite app_assoc, last_snoc.
  - change [EvExecute c s.1 s.2; EvCommit c; EvClose c]
      with ([EvExecute c s.1 s.2; EvCommit c] ++ [EvClose c])%list.
    by rewrite app_assoc, last_snoc.
Qed.

Lemma statement_database (E : env) (c : conn_args) (s : string * list json) :
  forallb is_database_call (statement_outcome E c s).2 = true.
Proof.
  unfold statement_outcome.
  by destruct (execute E c s.1 s.2); [|destruct (commit E c)].
Qed.

Lemma connects_database (l : list event) :
  forallb is_connect l = true -> forallb is_database_call l = true.
Proof.
  rewrite !forallb_forall. intros H e He. apply H in He. by destruct e.
Qed.

Lemma login_database (eng : engine) (E : env) (d : dict) :
  forallb is_database_call (evs (login eng E d)) = true.
Proof. apply connects_database, login_events. Qed.

(** X10.  [test_secret] (both handlers) never changes the vault and calls
    the database only.  It succeeds exactly when the [AWSPENDING] payload
    of the token is valid, the login with it gives a session, and
    [SELECT NOW()] and the commit succeed on it;  with no session it raises
    its "unable to log in" error after the attempts of the login;
    [SELECT NOW()] is the only statement it runs, over the session it
    opened;  and a session it opened is closed by its last call, whatever
    the statement did. *)
Theorem test_secret_outcome (eng : engine) (E : env) (arn token : string) (v : vault) :
  let o := test_secret eng E arn token v in
  st o = v
  ∧ forallb is_database_call (evs o) = true
  ∧ (res o = Ok tt <->
     exists pending c,
       res (get_secret_dict eng arn AWSPENDING (Some token) v) = Ok pending
       ∧ res (get_connection eng E pending v) = Ok (Some c)
       ∧ execute E c "SELECT NOW()" [] = None ∧ commit E c = None)
  ∧ (forall pending,
       res (get_secret_dict eng arn AWSPENDING (Some token) v) = Ok pending ->
       res (get_connection eng E pending v) = Ok None ->
       o = Outcome (Raise (no_login arn)) v (evs (get_connection eng E pending v)))
  ∧ (forall e, e ∈ evs o -> is_execute e = true ->
       exists c, e = EvExecute c "SELECT NOW()" [] ∧ EvConnect c true ∈ evs o)
  ∧ (forall c, EvConnect c true ∈ evs o -> last (evs o) = Some (EvClose c)).
Proof.
  intros o. subst o. rewrite test_secret_eq.
  change (res (get_secret_dict eng arn AWSPENDING (Some token) v))
    with (fetch eng arn AWSPENDING (Some token) v).
  destruct (fetch eng arn AWSPENDING (Some token) v) as [pending|x] eqn:Hfetch.
  2:{ cbn [res st evs]. split; [done|]. split; [done|]. split.
      { split; [done|]. by intros (? & ? & [=] & _). }
      split; [done|]. split; by intros ? ?%elem_of_nil. }
  cbv zeta.
  assert (Hres : forall r, res (get_connection eng E pending v) = r
                           <-> res (login eng E pending) = r).
  { intros r. by rewrite get_connection_pure. }
  assert (Hevs : evs (get_connection eng E pending v) = evs (login eng E pending)).
  { by rewrite get_connection_pure. }
  destruct (res (login eng E pending)) as [[c|]|x] eqn:Hlogin; cbn [res st evs].
  - split; [done|]. split.
    { by rewrite forallb_app, login_database, statement_database. }
    split.
    { unfold statement_outcome, probe. cbn [fst snd]. split.
      - intros H. exists pending, c. rewrite Hres.
        destruct (execute E c "SELECT NOW()" []); [done|].
        by destruct (commit E c).
      - intros (p' & c' & [= <-] & Hc & He & Hk). apply Hres in Hc.
        assert (c' = c) as -> by congruence. by rewrite He, Hk. }
    split.
    { intros p' [= <-] Hnone. apply Hres in Hnone. congruence. }
    split.
    + intros e He Hex. apply elem_of_app in He as [He|He].
      { apply login_not_execute in He. congruence. }
      exists c. split.
      * unfold statement_outcome, probe in He. cbn [fst snd] in He.
        destruct (execute E c "SELECT NOW()" []); [|destruct (commit E c)];
          repeat (apply elem_of_cons in He as [->|He]; try done);
          by apply elem_of_nil in He.
      * apply elem_of_app. left. by apply login_events.
    + intros c' Hc'. apply elem_of_app in Hc' as [Hc'|Hc'].
      * apply login_opened in Hc'. assert (c' = c) as -> by congruence.
        apply statement_closes.
      * by apply statement_not_connect in Hc'.
  - split; [done|]. split; [apply login_database|]. split.
    { split; [done|]. intros (p' & c' & [= <-] & Hc & _). apply Hres in Hc. congruence. }
    split.
    { intros p' [= <-] _. by rewrite Hevs. }
    split.
    + intros e He Hex. apply login_not_execute in He. congruence.
    + intros c' Hc'. apply login_opened in Hc'. congruence.
  - split; [done|]. split; [apply login_database|]. split.
    { split; [done|]. intros (p' & c' & [= <-] & Hc & _). apply Hres in Hc. congruence. }
    split.
    { intros p' [= <-] Hnone. apply Hres in Hnone. congruence. }
    split.
    + intros e He Hex. apply login_not_execute in He. congruence.
    + intros c' Hc'. apply login_opened in Hc'. congruence.
Qed.

Lemma test_secret_outcome_witness :
  res (test_secret postgres (env_of (accepts_password "new") "n3w") "arn" "v2"
         (two_version_vault "postgres")) = Ok tt.
Proof.
  apply (test_secret_outcome postgres (env_of (accepts_password "new") "n3w") "arn" "v2"
           (two_version_vault "postgres")).
  exists (record "postgres" "app" "new"), (conn_of "app" "new" (SslMode (JStr "prefer"))).
  repeat split; reflexivity.
Defined.

(** ** The statement and the sessions of [set_secret] *)

Lemma statement_execute (E : env) (c : conn_args) (s : string * list json) (e : event) :
  e ∈ (statement_outcome E c s).2 -> is_execute e = true -> e = EvExecute c s.1 s.2.
Proof.
  unfold statement_outcome.
  destruct (execute E c s.1 s.2); [|destruct (commit E c)]; cbn; intros H Hex;
    repeat (apply elem_of_cons in H as [->|H]; [done|]); by apply elem_of_nil in H.
Qed.

Lemma filter_connects (l : list event) :
  forallb is_connect l = true -> List.filter is_execute l = [].
Proof.
  induction l as [|e l IH]; [done|]. cbn.
  intros [He Hl]%andb_true_iff. rewrite (IH Hl). by destruct e.
Qed.

Lemma statement_once (E : env) (c : conn_args) (s : string * list json) (l : list event) :
  forallb is_connect l = true ->
  List.filter is_execute (l ++ (statement_outcome E c s).2) = [EvExecute c s.1 s.2].
Proof.
  intros Hl. rewrite List.filter_app, (filter_connects l Hl).
  unfold statement_outcome.
  by destruct (execute E c s.1 s.2); [|destruct (commit E c)].
Qed.

Lemma login_connects (eng : engine) (E : env) (d : dict) :
  forallb is_connect (evs (login eng E d)) = true.
Proof. apply login_events. Qed.

Ltac connects := rewrite ?forallb_app, ?login_connects; reflexivity.

Ltac find_session c :=
  match goal with
  | H : res (login ?g ?E ?d) = Ok (Some c) |- _ =>
      pose proof (proj2 (login_events g E d) c H)
  end.

(** X11.  [set_secret] (both handlers) runs at most one statement.  When it
    runs one, the login with [AWSPENDING] had given no session, the
    statement is the password change with the values of the [AWSPENDING]
    payload, and it runs over a session this call opened. *)
Theorem set_secret_statement (eng : engine) (E : env) (arn token : string) (v : vault)
    (e : event) :
  let o := set_secret eng E arn token v in
  e ∈ evs o -> is_execute e = true ->
  exists pending c,
    res (get_secret_dict eng arn AWSPENDING (Some token) v) = Ok pending
    ∧ res (get_connection eng E pending v) = Ok None
    ∧ EvConnect c true ∈ evs o
    ∧ e = EvExecute c (change_statement eng pending).1 (change_statement eng pending).2
    ∧ List.filter is_execute (evs o) = [e].
Proof.
  intros o. subst o.
  change (res (get_secret_dict eng arn AWSPENDING (Some token) v))
    with (fetch eng arn AWSPENDING (Some token) v).
  destruct eng; unfold set_secret;
    [rewrite mariadb_set_secret_eq; unfold mariadb_previous
    |rewrite postgres_set_secret_eq];
    cases; intros He Hex;
    first
      [ exfalso; cbn [evs] in He; in_events He;
        first [ apply login_not_execute in He; congruence
              | apply list_elem_of_singleton in He; subst e; discriminate ]
      | match goal with
        | He : _ ∈ evs (changed ?g _ _ ?p ?c ?l) |- _ =>
            exists p, c; unfold changed in *; cbn [res st evs] in *;
            assert (Hl : forallb is_connect l = true) by connects;
            assert (Hin : EvConnect c true ∈ l)
              by (find_session c; rewrite ?elem_of_app; auto 10);
            split; [first [assumption | reflexivity]|];
            split; [rewrite get_connection_pure; assumption|];
            split; [apply elem_of_app; by left|];
            apply elem_of_app in He as [He|He];
            [ exfalso; apply (connects_not_execute l e Hl) in He; congruence
            | apply statement_execute in He; [|done];
              split; [done|]; rewrite He; by apply statement_once ]
        end ].
Qed.

Lemma set_secret_statement_witness :
  exists c,
    EvExecute c "SET PASSWORD = PASSWORD(%s)" [JStr "new"]
    ∈ evs (set_secret mariadb (env_of (accepts_password "old") "n3w") "arn" "v2" staged_vault)
    ∧ List.filter is_execute
        (evs (set_secret mariadb (env_of (accepts_password "old") "n3w") "arn" "v2"
                staged_vault))
      = [EvExecute c "SET PASSWORD = PASSWORD(%s)" [JStr "new"]].
Proof.
  exists (conn_of "app" "old" (Ssl true)).
  assert (Hin : EvExecute (conn_of "app" "old" (Ssl true)) "SET PASSWORD = PASSWORD(%s)"
                  [JStr "new"]
                ∈ evs (set_secret mariadb (env_of (accepts_password "old") "n3w") "arn" "v2"
                         staged_vault)).
  { apply list_elem_of_In. vm_compute. auto 10. }
  split; [exact Hin|].
  destruct (set_secret_statement mariadb (env_of (accepts_password "old") "n3w") "arn" "v2"
              staged_vault _ Hin eq_refl) as (pending & c & _ & _ & _ & _ & H).
  exact H.
Defined.

Lemma set_secret_effects (eng : engine) (E : env) (arn token : string) (v : vault) :
  st (set_secret eng E arn token v) = v
  ∧ forallb is_database_call (evs (set_secret eng E arn token v)) = true.
Proof.
  destruct eng; unfold set_secret;
    [rewrite mariadb_set_secret_eq; unfold mariadb_previous
    |rewrite postgres_set_secret_eq];
    cases; unfold changed; cbn [res st evs]; (split; [done|]);
    rewrite ?forallb_app, ?login_database, ?statement_database; reflexivity.
Qed.

Lemma same_account_user (a b : dict) :
  py_ne (get_default a "username" JNull) (get_default b "username" JNull) = true ->
  same_account a b = false.
Proof. unfold same_account, py_ne. by intros ->%negb_true_iff. Qed.

Lemma same_account_host (a b : dict) :
  py_ne (get_default a "host" JNull) (get_default b "host" JNull) = true ->
  same_account a b = false.
Proof. unfold same_account, py_ne. intros ->%negb_true_iff. apply andb_false_r. Qed.

Lemma last_login (eng : engine) (E : env) (d : dict) (c : conn_args) (l : list event) :
  res (login eng E d) = Ok (Some c) ->
  last (l ++ evs (login eng E d)) = Some (EvConnect c true).
Proof.
  intros H. rewrite last_app.
  assert (Hl : last (evs (login eng E d)) = Some (EvConnect c true)).
  { apply login_attempts, login_events, H. }
  by rewrite Hl.
Qed.

Ltac opened Hc :=
  repeat (apply elem_of_app in Hc as [Hc|Hc]);
  first [ apply login_opened in Hc
        | by apply statement_not_connect in Hc
        | apply list_elem_of_singleton in Hc; discriminate Hc
        | by apply elem_of_nil in Hc ].

(** X12.  In the PostgreSQL [set_secret] a session that was opened is
    closed by the last call of the step.  In the MariaDB [set_secret] it is
    too, with one exception: when the session comes from the login with
    [AWSPREVIOUS] and that payload names another user or host than
    [AWSPENDING], the step raises its [ValueError] right after the
    successful attempt, and the session is not closed. *)
Theorem sessions_closed (E : env) (arn token : string) (v : vault) (c : conn_args) :
  (EvConnect c true ∈ evs (Postgres.set_secret E arn token v) ->
   last (evs (Postgres.set_secret E arn token v)) = Some (EvClose c))
  ∧ (EvConnect c true ∈ evs (Mariadb.set_secret E arn token v) ->
     last (evs (Mariadb.set_secret E arn token v)) = Some (EvClose c)
     ∨ exists prev pending cur m,
         res (get_secret_dict mariadb arn AWSPREVIOUS None v) = Ok prev
         ∧ res (get_secret_dict mariadb arn AWSPENDING (Some token) v) = Ok pending
         ∧ res (get_secret_dict mariadb arn AWSCURRENT None v) = Ok cur
         ∧ same_account prev pending = false
         ∧ res (get_connection mariadb E (inherit_ssl cur prev) v) = Ok (Some c)
         ∧ res (Mariadb.set_secret E arn token v) = Raise (ValueError m)
         ∧ last (evs (Mariadb.set_secret E arn token v)) = Some (EvConnect c true)).
Proof.
  split.
  - rewrite postgres_set_secret_eq.
    cases; unfold changed; cbn [res st evs]; intros Hc; opened Hc;
      try congruence;
      first [ assert (c = c0) as -> by congruence | assert (c = c1) as -> by congruence
            | assert (c = c2) as -> by congruence ];
      rewrite ?app_assoc;
      first [ apply last_snoc | apply statement_closes ].
  - change (res (get_secret_dict mariadb arn AWSPREVIOUS None v))
      with (fetch mariadb arn AWSPREVIOUS None v).
    change (res (get_secret_dict mariadb arn AWSPENDING (Some token) v))
      with (fetch mariadb arn AWSPENDING (Some token) v).
    change (res (get_secret_dict mariadb arn AWSCURRENT None v))
      with (fetch mariadb arn AWSCURRENT None v).
    rewrite mariadb_set_secret_eq. unfold mariadb_previous.
    cases; unfold changed; cbn [res st evs]; intros Hc; opened Hc;
      try congruence;
      first [ assert (c = c0) as -> by congruence | assert (c = c1) as -> by congruence
            | assert (c = c2) as -> by congruence ];
      first [ left; rewrite ?app_assoc; first [ apply last_snoc | apply statement_closes ]
            | right;
              match goal with
              | Hp : fetch mariadb arn AWSPREVIOUS None v = Ok ?prev,
                Hq : fetch mariadb arn AWSPENDING (Some token) v = Ok ?pending,
                Hr : fetch mariadb arn AWSCURRENT None v = Ok ?cur |- _ =>
                  exists prev, pending, cur; eexists;
                  split; [reflexivity|]; split; [reflexivity|]; split; [reflexivity|];
                  split; [first [ by apply same_account_user | by apply same_account_host ]|];
                  split; [rewrite get_connection_pure; assumption|];
                  split; [reflexivity|];
                  rewrite ?app_assoc; by apply last_login
              end ].
Qed.

Lemma sessions_closed_witness :
  last (evs (Postgres.set_secret (env_of (accepts_password "old") "n3w") "arn" "v2"
               (two_version_vault "postgres")))
  = Some (EvClose (conn_of "app" "old" (SslMode (JStr "prefer"))))
  ∧ last (evs (Mariadb.set_secret (env_of (accepts_password "older") "n3w") "arn" "v2"
                 mariadb_fallback_vault))
    = Some (EvConnect (conn_of "carol" "older" (Ssl true)) true).
Proof.
  split.
  - apply (sessions_closed (env_of (accepts_password "old") "n3w") "arn" "v2"
             (two_version_vault "postgres")).
    apply list_elem_of_In. vm_compute. auto.
  - destruct (proj2 (sessions_closed (env_of (accepts_password "older") "n3w") "arn" "v2"
                       mariadb_fallback_vault (conn_of "carol" "older" (Ssl true))))
      as [Hclosed | (prev & pending & cur & m & _ & _ & _ & _ & _ & _ & Hopen)].
    + apply list_elem_of_In. vm_compute. auto 10.
    + vm_compute in Hclosed. discriminate Hclosed.
    + exact Hopen.
Defined.

Lemma statement_ok (E : env) (c : conn_args) (s : string * list json) :
  (statement_outcome E c s).1 = Ok tt ->
  execute E c s.1 s.2 = None ∧ commit E c = None
  ∧ (statement_outcome E c s).2 = [EvExecute c s.1 s.2; EvCommit c; EvClose c].
Proof.
  unfold statement_outcome.
  destruct (execute E c s.1 s.2); [done|]. by destruct (commit E c).
Qed.

Lemma login_user (eng : engine) (E : env) (d : dict) (c : conn_args) :
  res (login eng E d) = Ok (Some c) ->
  get_default d "username" JNull = c_user c ∧ get_default d "host" JNull = c_host c.
Proof.
  intros H. apply login_events in H.
  apply login_attempts in H as (Hh & Hu & _).
  unfold get_default. by rewrite Hh, Hu.
Qed.

Lemma py_ne_false (x y : json) : py_ne x y = false -> py_eq x y = true.
Proof. unfold py_ne. by intros ?%negb_false_iff. Qed.

(** X13.  In the MariaDB [set_secret] the only statement is
    [SET PASSWORD = PASSWORD(%s)] with the [AWSPENDING] password as its
    argument, and the session it runs over was opened for the user and the
    host that the [AWSPENDING] payload names (equal as [==] sees them). *)
Theorem mariadb_changes_own_account (E : env) (arn token : string) (v : vault)
    (c : conn_args) (statement : string) (args : list json) :
  EvExecute c statement args ∈ evs (Mariadb.set_secret E arn token v) ->
  exists pending,
    res (get_secret_dict mariadb arn AWSPENDING (Some token) v) = Ok pending
    ∧ py_eq (c_user c) (get_default pending "username" JNull) = true
    ∧ py_eq (c_host c) (get_default pending "host" JNull) = true
    ∧ statement = "SET PASSWORD = PASSWORD(%s)"
    ∧ args = [get_default pending "password" JNull].
Proof.
  change (res (get_secret_dict mariadb arn AWSPENDING (Some token) v))
    with (fetch mariadb arn AWSPENDING (Some token) v).
  rewrite mariadb_set_secret_eq. unfold mariadb_previous.
  cases; intros He;
    first
      [ exfalso; cbn [evs] in He; in_events He;
        first [ by apply login_not_execute in He
              | apply list_elem_of_singleton in He; discriminate He ]
      | match goal with
        | He : _ ∈ evs (changed _ _ _ ?p ?c0 ?l) |- _ =>
            exists p; unfold changed in He; cbn [evs] in He;
            assert (Hl : forallb is_connect l = true) by connects;
            apply elem_of_app in He as [He|He];
            [ exfalso; by apply (connects_not_execute l _ Hl) in He
            | apply statement_execute in He; [|done];
              injection He as -> -> ->;
              match goal with
              | H : res (login mariadb E ?d) = Ok (Some c0) |- _ =>
                  destruct (login_user mariadb E d c0 H) as [Hu Hh]
              end;
              rewrite ?get_default_inherit in Hu, Hh by done;
              rewrite <- Hu, <- Hh;
              split; [reflexivity|];
              split; [by apply py_ne_false|];
              split; [by apply py_ne_false|done] ]
        end ].
Qed.

Lemma mariadb_changes_own_account_witness :
  exists pending,
    res (get_secret_dict mariadb "arn" AWSPENDING (Some "v2") staged_vault) = Ok pending
    ∧ py_eq (JStr "app") (get_default pending "username" JNull) = true.
Proof.
  destruct (mariadb_changes_own_account (env_of (accepts_password "old") "n3w") "arn" "v2"
              staged_vault (conn_of "app" "old" (Ssl true))
              "SET PASSWORD = PASSWORD(%s)" [JStr "new"])
    as (pending & Hp & Hu & _).
  - apply list_elem_of_In. vm_compute. auto 10.
  - exists pending. split; [exact Hp | exact Hu].
Defined.

(** X14.  When [set_secret] (both handlers) returns normally, either the
    login with [AWSPENDING] gave the session and no statement was run, or
    that login gave none and the calls end with the password-change
    statement, its commit and the close, over one session, the statement
    and the commit having succeeded;  in both cases the last call closes
    the session the step opened. *)
Theorem set_secret_success (eng : engine) (E : env) (arn token : string) (v : vault) :
  let o := set_secret eng E arn token v in
  res o = Ok tt ->
  exists pending c,
    res (get_secret_dict eng arn AWSPENDING (Some token) v) = Ok pending
    ∧ EvConnect c true ∈ evs o
    ∧ last (evs o) = Some (EvClose c)
    ∧ ((res (get_connection eng E pending v) = Ok (Some c)
        ∧ List.filter is_execute (evs o) = [])
       ∨ (res (get_connection eng E pending v) = Ok None
          ∧ execute E c (change_statement eng pending).1 (change_statement eng pending).2
            = None
          ∧ commit E c = None
          ∧ exists l,
              forallb is_connect l = true
              ∧ evs o
                = (l ++ [EvExecute c (change_statement eng pending).1
                                   (change_statement eng pending).2;
                         EvCommit c; EvClose c])%list)).
Proof.
  intros o. subst o.
  change (res (get_secret_dict eng arn AWSPENDING (Some token) v))
    with (fetch eng arn AWSPENDING (Some token) v).
  destruct eng; unfold set_secret;
    [rewrite mariadb_set_secret_eq; unfold mariadb_previous
    |rewrite postgres_set_secret_eq];
    cases; intros Hok;
    first
      [ discriminate Hok
      | match goal with
        | Hok : res (changed ?g _ _ ?p ?c ?l) = Ok tt |- _ =>
            exists p, c; unfold changed in *; cbn [res st evs] in *;
            apply statement_ok in Hok as (Hex & Hcm & Hev);
            assert (Hl : forallb is_connect l = true) by connects;
            assert (Hin : EvConnect c true ∈ l)
              by (find_session c; rewrite ?elem_of_app; auto 10);
            split; [reflexivity|];
            split; [apply elem_of_app; by left|];
            split; [apply statement_closes|];
            right; rewrite get_connection_pure;
            split; [assumption|]; split; [assumption|]; split; [assumption|];
            exists l; split; [assumption|]; by rewrite Hev
        | Hlogin : res (login ?g ?E ?p) = Ok (Some ?c)
          |- context [(evs (login ?g ?E ?p) ++ [EvClose ?c])%list] =>
            exists p, c; cbn [res st evs];
            split; [reflexivity|];
            split; [apply elem_of_app; left; by apply login_events|];
            split; [apply last_snoc|];
            left; rewrite get_connection_pure;
            split; [assumption|];
            rewrite List.filter_app, (filter_connects _ (login_connects g E p)); reflexivity
        end ].
Qed.

Lemma set_secret_success_witness :
  exists c,
    last (evs (set_secret postgres (env_of (accepts_password "old") "n3w") "arn" "v2"
                 (two_version_vault "postgres")))
    = Some (EvClose c).
Proof.
  destruct (set_secret_success postgres (env_of (accepts_password "old") "n3w") "arn" "v2"
              (two_version_vault "postgres")) as (pending & c & _ & _ & H & _).
  - reflexivity.
  - exists c. exact H.
Defined.

(** ** What a step can touch *)

Lemma lambda_handler_either (eng : engine) (E : env) (event : rotation_event) (v : vault) :
  (exists r, lambda_handler eng E event v = Outcome r v [])
  ∨ (exists h, handler_of eng E (Step event) = Some h
               ∧ lambda_handler eng E event v
                 = h (SecretId event) (ClientRequestToken event) v).
Proof.
  unfold lambda_handler, handler_of.
  destruct (environ E !! "SECRETS_MANAGER_ENDPOINT") as [x|]; [|left; by eexists].
  rewrite bind_lift_ok, bind_describe. cbn [fst snd].
  destruct (match RotationEnabled v with Some enabled => negb enabled | None => false end);
    [left; by eexists|].
  destruct (assoc (ClientRequestToken event) (VersionIdsToStages v)) as [stages|];
    [|left; by eexists].
  destruct (elem AWSCURRENT stages); [left; by eexists|].
  destruct (negb (elem AWSPENDING stages)); [left; by eexists|].
  destruct (String.eqb (Step event) "createSecret"); [right; by eexists|].
  destruct (String.eqb (Step event) "setSecret"); [right; by eexists|].
  destruct (String.eqb (Step event) "testSecret"); [right; by eexists|].
  destruct (String.eqb (Step event) "finishSecret"); [right; by eexists|].
  left. by eexists.
Qed.

Lemma handler_of_cases (eng : engine) (E : env) (step : string)
    (h : string -> string -> M unit) :
  handler_of eng E step = Some h ->
  (step = "createSecret" ∧ h = create_secret eng E)
  ∨ (step = "setSecret" ∧ h = set_secret eng E)
  ∨ (step = "testSecret" ∧ h = test_secret eng E)
  ∨ (step = "finishSecret" ∧ h = finish_secret).
Proof.
  unfold handler_of.
  destruct (String.eqb_spec step "createSecret"); [intros [= <-]; auto|].
  destruct (String.eqb_spec step "setSecret"); [intros [= <-]; auto|].
  destruct (String.eqb_spec step "testSecret"); [intros [= <-]; auto|].
  destruct (String.eqb_spec step "finishSecret"); [intros [= <-]; auto 10|].
  done.
Qed.

Lemma update_effects (s : string) (m r : kwarg) (v : vault) :
  let o := update_secret_version_stage s m r v in
  SecretStrings (st o) = SecretStrings v
  ∧ RotationEnabled (st o) = RotationEnabled v
  ∧ evs o = [EvUpdateStage s m r].
Proof.
  unfold update_secret_version_stage.
  destruct m as [|[m|]], r as [|[r|]]; cbn; try done;
    repeat match goal with
    | |- context [if ?b then _ else _] => destruct b; cbn; try done
    end.
Qed.

Lemma finish_secret_effects (arn token : string) (v : vault) :
  let o := finish_secret arn token v in
  SecretStrings (st o) = SecretStrings v
  ∧ RotationEnabled (st o) = RotationEnabled v
  ∧ forallb is_vault_call (evs o) = true.
Proof.
  unfold finish_secret. rewrite bind_describe. cbn [snd].
  destruct (find_current token (VersionIdsToStages v)) as [cur|]; [|done].
  unfold bind.
  pose proof (update_effects AWSCURRENT (Passed (Some token)) (Passed cur) v) as H1.
  destruct (update_secret_version_stage AWSCURRENT _ _ v) as [[[]|e] v1 l1];
    cbn [res st evs] in *; destruct H1 as (Hs1 & Hr1 & ->); [|done].
  pose proof (update_effects AWSPENDING Omitted (Passed (Some token)) v1) as H2.
  destruct (update_secret_version_stage AWSPENDING _ _ v1) as [r2 v2 l2];
    cbn [res st evs] in *; destruct H2 as (Hs2 & Hr2 & ->).
  split; [congruence|]. split; [congruence|done].
Qed.

Lemma get_random_password_effects (E : env) (v : vault) :
  st (get_random_password E v) = v
  ∧ forallb is_vault_call (evs (get_random_password E v)) = true.
Proof.
  unfold get_random_password, bind, lift, emit.
  by destruct (match environ E !! "PASSWORD_LENGTH" with
               | Some x => py_int (JStr x)
               | None => py_int (JNum 32)
               end).
Qed.

Lemma put_secret_value_effects (token : string) (new : dict) (v : vault) :
  evs (put_secret_value token new [AWSPENDING] v) = [EvPutSecretValue token new [AWSPENDING]]
  ∧ (st (put_secret_value token new [AWSPENDING] v) = v
     ∨ (SecretStrings v !! token = None
        ∧ put_secret_value token new [AWSPENDING] v
          = Outcome (Ok tt) (stored token new v) [EvPutSecretValue token new [AWSPENDING]])).
Proof.
  unfold put_secret_value.
  destruct (SecretStrings v !! token) as [s|]; [|split; [done|by right]].
  destruct (decide (s = Json new)); split; try done; by left.
Qed.

Lemma create_secret_effects (eng : engine) (E : env) (arn token : string) (v : vault) :
  exists r v' l,
    create_secret eng E arn token v = Outcome r v' l
    ∧ forallb is_vault_call l = true
    ∧ (v' = v ∨ exists new, SecretStrings v !! token = None ∧ v' = stored token new v).
Proof.
  unfold create_secret. rewrite bind_fetch.
  destruct (fetch eng arn AWSCURRENT None v) as [cur|e];
    [|eexists _, _, _; split; [done|]; split; [done|by left]].
  unfold try_except. rewrite bind_fetch.
  destruct (fetch eng arn AWSPENDING (Some token) v) as [pending|e];
    [eexists _, _, _; split; [done|]; split; [done|by left]|].
  destruct e; try (eexists _, _, _; split; [done|]; split; [done|by left]).
  destruct (get_random_password_effects E v) as [Hst Hev].
  unfold bind at 1.
  destruct (get_random_password E v) as [[p|e] v1 l1]; cbn [res st evs] in *; subst v1;
    [|eexists _, _, _; split; [done|]; split; [done|by left]].
  set (d := <["password" := JStr p]> cur).
  assert (Hput : forall new : dict,
            exists r v' l,
              put_secret_value token new [AWSPENDING] v = Outcome r v' l
              ∧ forallb is_vault_call (l1 ++ l) = true
              ∧ (v' = v ∨ exists new, SecretStrings v !! token = None
                                      ∧ v' = stored token new v)).
  { intros new. destruct (put_secret_value_effects token new v) as [Hev' Hst'].
    destruct (put_secret_value token new [AWSPENDING] v) as [r2 v2 l2].
    cbn [res st evs] in *. subst l2. eexists _, _, _. split; [done|]. split.
    - by rewrite forallb_app, Hev.
    - destruct Hst' as [? | [Hnone [= _ -> ]]]; [by left|]. right. by exists new. }
  destruct (has_key d "connection_string").
  - destruct (generate_connection_string eng d p) as [s|e].
    + unfold bind, lift, ret.
      destruct (Hput (<["connection_string" := JStr s]> d)) as (r & v' & l & -> & Hl & Hv).
      eexists _, _, _. split; [done|]. split; [|done]. exact Hl.
    + unfold bind, lift. eexists _, _, _. split; [done|]. split; [|by left].
      cbn [app]. by rewrite !app_nil_r.
  - unfold bind, ret.
    destruct (Hput d) as (r & v' & l & -> & Hl & Hv).
    eexists _, _, _. split; [done|]. split; [|done]. exact Hl.
Qed.

Lemma test_secret_effects (eng : engine) (E : env) (arn token : string) (v : vault) :
  st (test_secret eng E arn token v) = v
  ∧ forallb is_database_call (evs (test_secret eng E arn token v)) = true.
Proof.
  rewrite test_secret_eq.
  destruct (fetch eng arn AWSPENDING (Some token) v) as [pending|e]; [|done].
  cbv zeta. destruct (res (login eng E pending)) as [[c|]|e]; cbn [st evs];
    (split; [done|]); rewrite ?forallb_app, ?login_database, ?statement_database; done.
Qed.

Lemma stored_lookup (token : string) (new : dict) (v : vault) (t : string) :
  t ≠ token -> SecretStrings (stored token new v) !! t = SecretStrings v !! t.
Proof. intros H. unfold stored. cbn. by rewrite lookup_insert_ne. Qed.

Lemma stored_holders (token : string) (new : dict) (v : vault) (s : string) :
  s ≠ AWSPENDING ->
  holders s (VersionIdsToStages (stored token new v)) = holders s (VersionIdsToStages v).
Proof.
  intros H. unfold stored. cbn [VersionIdsToStages].
  by rewrite holders_attach_other, holders_detach_all_other.
Qed.

(** X15.  Whatever the event, [lambda_handler] never deletes or replaces a
    stored payload and never changes [RotationEnabled];  the only payload
    it can add is the one of the token of the event, and only in step
    [createSecret]. *)
Theorem payloads_kept (eng : engine) (E : env) (event : rotation_event) (v : vault) :
  let o := lambda_handler eng E event v in
  RotationEnabled (st o) = RotationEnabled v
  ∧ (forall t s, SecretStrings v !! t = Some s -> SecretStrings (st o) !! t = Some s)
  ∧ (forall t, t ≠ ClientRequestToken event ->
       SecretStrings (st o) !! t = SecretStrings v !! t)
  ∧ (Step event ≠ "createSecret" -> SecretStrings (st o) = SecretStrings v).
Proof.
  intros o. subst o.
  destruct (lambda_handler_either eng E event v) as [[r ->] | (h & Hh & ->)]; [done|].
  apply handler_of_cases in Hh as [[Hs ->] | [[Hs ->] | [[Hs ->] | [Hs ->]]]].
  - destruct (create_secret_effects eng E (SecretId event) (ClientRequestToken event) v)
      as (r & v' & l & -> & _ & [-> | (new & Hnone & ->)]); cbn [st]; [done|].
    split; [done|]. split; [|split].
    + intros t s Ht. rewrite stored_lookup; [done|]. intros ->. congruence.
    + intros t Ht. by apply stored_lookup.
    + done.
  - destruct (set_secret_effects eng E (SecretId event) (ClientRequestToken event) v)
      as [-> _]. done.
  - destruct (test_secret_effects eng E (SecretId event) (ClientRequestToken event) v)
      as [-> _]. done.
  - destruct (finish_secret_effects (SecretId event) (ClientRequestToken event) v)
      as (-> & -> & _). done.
Qed.

Lemma payloads_kept_witness :
  SecretStrings
    (st (lambda_handler mariadb (env_of (fun _ => false) "n3w")
           (RotationEvent "arn" "v2" "createSecret") scenario_vault)) !! "v1"
  = Some (Json (record "mariadb" "app" "old")).
Proof.
  refine (proj1 (proj2 (payloads_kept mariadb (env_of (fun _ => false) "n3w")
                          (RotationEvent "arn" "v2" "createSecret") scenario_vault))
            "v1" _ _).
  reflexivity.
Defined.

(** X16.  [lambda_handler]: in a step other than [createSecret] and
    [finishSecret] the vault is unchanged and every call is a call of the
    database;  in a step other than [setSecret] and [testSecret] no call
    reaches the database;  in a step other than [finishSecret] the versions
    that hold [AWSCURRENT], or any stage other than [AWSPENDING], stay the
    same. *)
Theorem step_effects (eng : engine) (E : env) (event : rotation_event) (v : vault) :
  let o := lambda_handler eng E event v in
  (Step event ≠ "createSecret" -> Step event ≠ "finishSecret" ->
   st o = v ∧ forallb is_database_call (evs o) = true)
  ∧ (Step event ≠ "setSecret" -> Step event ≠ "testSecret" ->
     forallb is_vault_call (evs o) = true)
  ∧ (Step event ≠ "finishSecret" ->
     forall s, s ≠ AWSPENDING ->
       holders s (VersionIdsToStages (st o)) = holders s (VersionIdsToStages v)).
Proof.
  intros o. subst o.
  destruct (lambda_handler_either eng E event v) as [[r ->] | (h & Hh & ->)]; [done|].
  apply handler_of_cases in Hh as [[Hs ->] | [[Hs ->] | [[Hs ->] | [Hs ->]]]].
  - destruct (create_secret_effects eng E (SecretId event) (ClientRequestToken event) v)
      as (r & v' & l & -> & Hl & [-> | (new & Hnone & ->)]); cbn [st evs].
    + done.
    + split; [done|]. split; [done|]. intros _ s Hne. by apply stored_holders.
  - destruct (set_secret_effects eng E (SecretId event) (ClientRequestToken event) v)
      as [Hst Hev]. rewrite Hst. done.
  - destruct (test_secret_effects eng E (SecretId event) (ClientRequestToken event) v)
      as [Hst Hev]. rewrite Hst. done.
  - destruct (finish_secret_effects (SecretId event) (ClientRequestToken event) v)
      as (_ & _ & Hev). done.
Qed.

Lemma step_effects_witness :
  st (lambda_handler postgres (env_of (accepts_password "old") "n3w")
        (RotationEvent "arn" "v2" "setSecret") (two_version_vault "postgres"))
  = two_version_vault "postgres".
Proof.
  apply (step_effects postgres (env_of (accepts_password "old") "n3w")
           (RotationEvent "arn" "v2" "setSecret") (two_version_vault "postgres"));
    discriminate.
Defined.

(** ** Steps in sequence *)

Lemma py_eq_refl (x : json) : py_eq x x = true.
Proof.
  destruct x as [|b|n|s]; cbn; [done| |apply Z.eqb_refl|apply String.eqb_refl].
  by destruct b.
Qed.

Lemma fetch_absent (eng : engine) (arn stage token : string) (v : vault) :
  token ≠ "" -> SecretStrings v !! token = None ->
  fetch eng arn stage (Some token) v = Raise ResourceNotFoundException.
Proof.
  intros Hne Hnone. rewrite fetch_eq.
  assert (truthy (Some token) = true) as ->.
  { cbn. by destruct (String.eqb_spec token ""). }
  unfold get_secret_value.
  destruct (assoc token (VersionIdsToStages v)) as [stages|]; [|done].
  destruct (elem stage stages); [|done].
  by rewrite Hnone.
Qed.

Lemma fetch_holder (eng : engine) (arn stage c : string) (v : vault) (d : dict) :
  head (holders stage (VersionIdsToStages v)) = Some c ->
  fetch eng arn stage None v = Ok d ->
  SecretStrings v !! c = Some (Json d)
  ∧ check_engine eng d = Ok tt ∧ check_fields required_fields d = Ok tt.
Proof.
  intros Hh Hf. destruct (fetch_valid _ _ _ _ _ _ Hf) as [He Hc].
  split; [|done]. rewrite fetch_eq in Hf. cbn [truthy] in Hf.
  unfold get_secret_value in Hf. rewrite Hh in Hf.
  destruct (SecretStrings v !! c) as [[d'|text]|]; cbn [res] in Hf; try done.
  unfold json_loads in Hf.
  destruct (check_engine eng d'); [|done].
  destruct (check_fields required_fields d'); [|done].
  by injection Hf as ->.
Qed.

Lemma fetch_of_holder (eng : engine) (arn stage c : string) (v : vault) (d : dict) :
  head (holders stage (VersionIdsToStages v)) = Some c ->
  SecretStrings v !! c = Some (Json d) ->
  check_engine eng d = Ok tt -> check_fields required_fields d = Ok tt ->
  fetch eng arn stage None v = Ok d.
Proof.
  intros Hh Hs He Hc. rewrite fetch_eq. cbn [truthy].
  unfold get_secret_value. rewrite Hh, Hs. cbn [res]. unfold json_loads.
  by rewrite He, Hc.
Qed.

(** What [create_secret] stores for a token that has no payload. *)
Lemma create_secret_stores (eng : engine) (E : env) (arn token : string) (v : vault) (cur : dict)
    (n : Z) (p : string) :
  fetch eng arn AWSCURRENT None v = Ok cur ->
  token ≠ "" -> SecretStrings v !! token = None ->
  configured_length E = Ok n ->
  random_password_api E (password_request E n) = Ok p ->
  exists new,
    create_secret eng E arn token v
    = Outcome (Ok tt) (stored token new v)
        [EvGetRandomPassword (password_request E n); EvPutSecretValue token new [AWSPENDING]]
    ∧ new !! "password" = Some (JStr p)
    ∧ (forall k, k ≠ "password" -> k ≠ "connection_string" -> new !! k = cur !! k)
    ∧ (cur !! "connection_string" = None -> new !! "connection_string" = None)
    ∧ (is_Some (cur !! "connection_string") ->
       exists s, generate_connection_string eng (<["password" := JStr p]> cur) p = Ok s
                 ∧ new !! "connection_string" = Some (JStr s))
    ∧ check_engine eng new = Ok tt ∧ check_fields required_fields new = Ok tt.
Proof.
  intros Hc Hne Hnone Hn Hr.
  pose proof (fetch_absent eng arn AWSPENDING token v Hne Hnone) as Hp.
  destruct (create_secret_absent eng E arn token v cur n p Hc Hp Hn Hr)
    as (new & Hrun & Hplain & Hconn).
  destruct (fetch_valid _ _ _ _ _ _ Hc) as [He Hf].
  destruct (valid_insert eng cur "password" (JStr p)) as [He1 Hf1]; [done..|].
  exists new. split; [by rewrite Hrun, put_fresh|].
  destruct (cur !! "connection_string") as [x|] eqn:Hx.
  - destruct Hconn as (s & Hs & ->); [by eexists|].
    split; [by rewrite lookup_insert_ne, lookup_insert_eq|].
    split; [intros k H1 H2; by rewrite !lookup_insert_ne|].
    split; [done|].
    split; [intros _; exists s; by rewrite lookup_insert_eq|].
    by apply valid_insert.
  - rewrite (Hplain eq_refl).
    split; [by rewrite lookup_insert_eq|].
    split; [intros k H1 H2; by rewrite lookup_insert_ne|].
    split; [intros _; by rewrite lookup_insert_ne|].
    split; [by intros [? [=]]|done].
Qed.

(** X17.  [create_secret] followed by [finish_secret], for a token with no
    payload, when one version [c] holds [AWSCURRENT] with a valid payload
    [cur] and the generator returns [p]:  both succeed;  afterwards the
    token is the version that holds [AWSCURRENT], what [get_secret_dict]
    reads for [AWSCURRENT] is [cur] with [password] set to [p] (every field
    other than [password] and [connection_string] as in [cur]), and [cur]
    is still stored under [c]. *)
Theorem create_then_finish (eng : engine) (E : env) (arn token c : string) (v : vault)
    (cur : dict) (n : Z) (p : string) :
  holders AWSCURRENT (VersionIdsToStages v) = [c] ->
  res (get_secret_dict eng arn AWSCURRENT None v) = Ok cur ->
  token ≠ "" -> SecretStrings v !! token = None ->
  configured_length E = Ok n ->
  random_password_api E (password_request E n) = Ok p ->
  let o1 := create_secret eng E arn token v in
  let o2 := finish_secret arn token (st o1) in
  res o1 = Ok tt ∧ res o2 = Ok tt
  ∧ holders AWSCURRENT (VersionIdsToStages (st o2)) = [token]
  ∧ SecretStrings (st o2) !! c = Some (Json cur)
  ∧ exists new,
      res (get_secret_dict eng arn AWSCURRENT None (st o2)) = Ok new
      ∧ new !! "password" = Some (JStr p)
      ∧ (forall k, k ≠ "password" -> k ≠ "connection_string" -> new !! k = cur !! k).
Proof.
  intros Hh Hc Hne Hnone Hn Hr o1 o2.
  change (fetch eng arn AWSCURRENT None v = Ok cur) in Hc.
  destruct (create_secret_stores eng E arn token v cur n p Hc Hne Hnone Hn Hr)
    as (new & Hrun & Hpw & Hkeep & _ & _ & He & Hf).
  assert (Hcur : SecretStrings v !! c = Some (Json cur)).
  { eapply fetch_holder; [|exact Hc]. by rewrite Hh. }
  assert (Hct : c ≠ token) by (intros ->; congruence).
  subst o2 o1. rewrite Hrun. cbn [res st].
  destruct (finish_secret_moves arn token c (stored token new v)) as (vs & Hfin & Hvs & _).
  { by rewrite stored_holders, Hh. }
  { done. }
  { unfold stored. cbn [VersionIdsToStages].
    rewrite holders_attach_none by apply holders_detach_all_same.
    apply list_elem_of_singleton. done. }
  rewrite Hfin. cbn [res st VersionIdsToStages SecretStrings].
  split; [done|]. split; [done|]. split; [done|].
  split; [unfold stored; cbn; by rewrite lookup_insert_ne|].
  exists new. split; [|done].
  apply (fetch_of_holder eng arn AWSCURRENT token); cbn [VersionIdsToStages SecretStrings].
  - by rewrite Hvs.
  - unfold stored. cbn. by rewrite lookup_insert_eq.
  - done.
  - done.
Qed.

Lemma create_then_finish_witness :
  let E := env_of (fun _ => false) "n3w" in
  exists new,
    res (get_secret_dict mariadb "arn" AWSCURRENT None
           (st (finish_secret "arn" "v2" (st (create_secret mariadb E "arn" "v2" scenario_vault)))))
    = Ok new
    ∧ new !! "password" = Some (JStr "n3w").
Proof.
  intros E.
  destruct (create_then_finish mariadb E "arn" "v2" "v1" scenario_vault
              (record "mariadb" "app" "old") 32 "n3w")
    as (_ & _ & _ & _ & new & Hnew & Hpw & _); try reflexivity; [discriminate|].
  exists new. split; [exact Hnew | exact Hpw].
Defined.

Lemma same_account_created (cur new : dict) :
  (forall k, k ≠ "password" -> k ≠ "connection_string" -> new !! k = cur !! k) ->
  same_account cur new = true.
Proof.
  intros H. unfold same_account, get_default.
  rewrite !H by done. by rewrite !py_eq_refl.
Qed.

(** X18.  [create_secret] followed by [set_secret]:  the payload that
    [create_secret] stored is what [set_secret] reads for [AWSPENDING];
    when the login with it gives no session and the login with
    [AWSCURRENT] gives one, [set_secret] runs the password change over that
    session with the generated password [p] (so the account check of the
    MariaDB handler accepts a payload made by [create_secret]). *)
Theorem create_then_set (eng : engine) (E E' : env) (arn token : string) (v : vault)
    (cur : dict) (n : Z) (p : string) (c : conn_args) :
  res (get_secret_dict eng arn AWSCURRENT None v) = Ok cur ->
  token ≠ "" -> SecretStrings v !! token = None ->
  configured_length E = Ok n ->
  random_password_api E (password_request E n) = Ok p ->
  let v1 := st (create_secret eng E arn token v) in
  (eng = mariadb -> exists previous, mariadb_previous arn v1 = Ok previous) ->
  exists new,
    res (get_secret_dict eng arn AWSPENDING (Some token) v1) = Ok new
    ∧ (res (get_connection eng E' new v1) = Ok None ->
       res (get_connection eng E' cur v1) = Ok (Some c) ->
       set_secret eng E' arn token v1
       = changed eng E' v1 new c
           (evs (get_connection eng E' new v1) ++ evs (get_connection eng E' cur v1))
       ∧ change_statement eng new
         = match eng with
           | mariadb => ("SET PASSWORD = PASSWORD(%s)", [JStr p])
           | postgres =>
               ("ALTER ROLE " ++ py_str (get_default cur "username" JNull)
                ++ " WITH ENCRYPTED PASSWORD '" ++ p ++ "'", [])
           end).
Proof.
  intros Hc Hne Hnone Hn Hr v1 Hprev.
  change (fetch eng arn AWSCURRENT None v = Ok cur) in Hc.
  destruct (create_secret_stores eng E arn token v cur n p Hc Hne Hnone Hn Hr)
    as (new & Hrun & Hpw & Hkeep & _ & _ & He & Hf).
  subst v1. rewrite Hrun in *. cbn [st] in *.
  pose proof (fetch_stored_pending eng arn token v new He Hf) as Hpend.
  pose proof (fetch_stored_current eng arn token v new cur Hnone Hc) as Hcur.
  exists new. split; [exact Hpend|].
  rewrite !get_connection_pure. cbn [res evs]. intros Hlp Hlc.
  split.
  - destruct eng; unfold set_secret.
    + destruct Hprev as [previous Hprev]; [done|].
      destruct (same_account_true _ _ (same_account_created cur new Hkeep)) as [Hu Hh].
      rewrite mariadb_set_secret_eq, Hprev, Hcur, Hpend. cbv zeta.
      rewrite Hlp, Hu, Hh, Hlc. by destruct previous.
    + rewrite postgres_set_secret_eq, Hpend. cbv zeta. by rewrite Hlp, Hcur, Hlc.
  - unfold change_statement, get_default. rewrite Hpw.
    rewrite (Hkeep "username") by done. by destruct eng.
Qed.

Lemma create_then_set_witness :
  let E := env_of (accepts_password "old") "n3w" in
  exists new,
    res (get_secret_dict mariadb "arn" AWSPENDING (Some "v2")
           (st (create_secret mariadb E "arn" "v2" scenario_vault))) = Ok new
    ∧ change_statement mariadb new = ("SET PASSWORD = PASSWORD(%s)", [JStr "n3w"]).
Proof.
  intros E.
  destruct (create_then_set mariadb E E "arn" "v2" scenario_vault
              (record "mariadb" "app" "old") 32 "n3w" (conn_of "app" "old" (Ssl true)))
    as (new & Hnew & Hset); try reflexivity; [discriminate | by eexists |].
  exists new. split; [exact Hnew|].
  assert (Hn : Ok new = Ok (<["password" := JStr "n3w"]> (record "mariadb" "app" "old"))).
  { rewrite <- Hnew. reflexivity. }
  injection Hn as ->.
  apply Hset; reflexivity.
Defined.

(** ** More on the connection strings *)

Lemma all_chars_app (P : ascii -> bool) (s1 s2 : string) :
  all_chars P (s1 ++ s2) = all_chars P s1 && all_chars P s2.
Proof.
  induction s1 as [|c s1 IH]; [done|].
  rewrite append_cons. cbn. by rewrite IH, andb_assoc.
Qed.

Lemma form_encode_char_safe (c : ascii) : all_chars url_safe (form_encode_char c) = true.
Proof. destruct c as [[] [] [] [] [] [] [] []]; reflexivity. Qed.

Lemma form_decode_char (c : ascii) (r : string) :
  form_decode (form_encode_char c ++ r) = String c (form_decode r).
Proof. destruct c as [[] [] [] [] [] [] [] []]; reflexivity. Qed.

Lemma form_decode_encode (s : string) : form_decode (form_encode s) = s.
Proof.
  induction s as [|c s IH]; [done|].
  by rewrite form_encode_cons, form_decode_char, IH.
Qed.

Lemma form_encode_safe (s : string) : all_chars url_safe (form_encode s) = true.
Proof.
  induction s as [|c s IH]; [done|].
  by rewrite form_encode_cons, all_chars_app, form_encode_char_safe, IH.
Qed.

Lemma form_encode_plain (s : string) : all_chars always_safe s = true -> form_encode s = s.
Proof.
  induction s as [|c s IH]; [done|]. cbn [all_chars].
  intros [Hc Hs]%andb_true_iff.
  rewrite form_encode_cons. unfold form_encode_char. by rewrite Hc, (IH Hs).
Qed.

Lemma form_encode_inj (s s' : string) : form_encode s = form_encode s' -> s = s'.
Proof. intros H. by rewrite <- (form_decode_encode s), H, form_decode_encode. Qed.

Lemma string_length_app (s t : string) :
  String.length (s ++ t) = (String.length s + String.length t)%nat.
Proof. induction s as [|c s IH]; [done|]. rewrite append_cons. cbn. by rewrite IH. Qed.

Lemma append_inv_head (s t t' : string) : s ++ t = s ++ t' -> t = t'.
Proof.
  induction s as [|c s IH]; [done|]. rewrite !append_cons. intros [= H]. by apply IH.
Qed.

Lemma append_inv_tail (s s' t : string) : s ++ t = s' ++ t -> s = s'.
Proof.
  revert s'. induction s as [|c s IH]; intros [|c' s'] H; [done| | |].
  - apply (f_equal String.length) in H. rewrite append_nil, append_cons in H.
    cbn in H. rewrite string_length_app in H. lia.
  - apply (f_equal String.length) in H. rewrite append_nil, append_cons in H.
    cbn in H. rewrite string_length_app in H. lia.
  - rewrite !append_cons in H. injection H as -> H. by rewrite (IH s' H).
Qed.

(** X19.  In the URI forms (jdbc, gopq, node-pg, psycopg, rustpg), for a
    record with [host] and [username]:  the connection string is a fixed
    prefix, the encoded password and a fixed suffix;  the encoded password
    holds only letters, digits and the characters [_.-~+%];  a password
    made of letters, digits and [_.-~] is written as it is;  and two
    different passwords give two different strings. *)
Theorem password_segment_safe (eng : engine) (d : dict) (t : string) (h u : json) :
  t ∈ uri_types ->
  d !! "connection_string_type" = Some (JStr t) ->
  d !! "host" = Some h -> d !! "username" = Some u ->
  exists pre post,
    (forall pw, exists enc,
       generate_connection_string eng d pw = Ok (pre ++ enc ++ post)
       ∧ all_chars url_safe enc = true
       ∧ (all_chars always_safe pw = true -> enc = pw))
    ∧ (forall pw pw',
         generate_connection_string eng d pw = generate_connection_string eng d pw' ->
         pw = pw').
Proof.
  intros Ht Hty Hh Hu.
  destruct (generate_uri eng d t h u Ht Hty Hh Hu) as (pre & post & H).
  exists pre, post. split.
  - intros pw. exists (form_encode pw). split; [apply H|].
    split; [apply form_encode_safe | apply form_encode_plain].
  - intros pw pw'. rewrite !H. intros [= Heq].
    apply append_inv_head, append_inv_tail in Heq. by apply form_encode_inj.
Qed.

Lemma password_segment_safe_witness :
  generate_connection_string postgres jdbc_record "p@ss w:rd" ≠
  generate_connection_string postgres jdbc_record "p@ss+w:rd".
Proof.
  destruct (password_segment_safe postgres jdbc_record "jdbc" (JStr "h") (JStr "u"))
    as (pre & post & _ & Hinj); [by apply elem_true | reflexivity..|].
  intros Heq. apply Hinj in Heq. discriminate Heq.
Defined.

Lemma string_prefix_app (s t : string) : String.prefix s (s ++ t) = true.
Proof.
  induction s as [|c s IH]; [by destruct t|].
  rewrite append_cons. cbn. by destruct (ascii_dec c c).
Qed.

Lemma contains_eq (sub s : string) :
  contains sub s
  = String.prefix sub s
    || match s with String _ r => contains sub r | EmptyString => false end.
Proof. by destruct s. Qed.

Lemma contains_prefix (sub s : string) : String.prefix sub s = true -> contains sub s = true.
Proof. intros H. by rewrite contains_eq, H. Qed.

Lemma contains_middle (pre sub post : string) : contains sub (pre ++ sub ++ post) = true.
Proof.
  induction pre as [|c pre IH].
  - rewrite append_nil. apply contains_prefix, string_prefix_app.
  - rewrite append_cons, contains_eq, IH. apply orb_true_r.
Qed.

Lemma generate_plain (d : dict) (t : string) (h u : json) :
  t ∈ ["dotnet"; "odbc"] ->
  d !! "connection_string_type" = Some (JStr t) ->
  d !! "host" = Some h -> d !! "username" = Some u ->
  exists pre post, forall pw,
    Postgres.generate_connection_string d pw = Ok (pre ++ pw ++ post)
    ∧ Mariadb.generate_connection_string d pw = Ok (pre ++ quote_plus pw ++ post).
Proof.
  intros Ht Hty Hh Hu.
  repeat (apply elem_of_cons in Ht as [-> | Ht]); [..|by apply elem_of_nil in Ht];
    unfold Mariadb.generate_connection_string, Postgres.generate_connection_string, item;
    rewrite !(type_is_str d _ _ Hty), Hh, Hu; cbn;
    eexists _, _; intros pw; split; rewrite prefix9; reflexivity.
Qed.

Lemma generate_jdbc_both (d : dict) (h u : json) :
  d !! "connection_string_type" = Some (JStr "jdbc") ->
  d !! "host" = Some h -> d !! "username" = Some u ->
  exists pre post, forall pw,
    Mariadb.generate_connection_string d pw = Ok (pre ++ quote_plus pw ++ post)
    ∧ Postgres.generate_connection_string d pw = Ok (pre ++ quote_plus pw ++ "&" ++ post).
Proof.
  intros Hty Hh Hu.
  unfold Mariadb.generate_connection_string, Postgres.generate_connection_string, item.
  rewrite !(type_is_str d _ _ Hty), Hh, Hu. cbn.
  eexists _, _. intros pw. split; rewrite prefix9; reflexivity.
Qed.

(** X20.  The two copies of [generate_connection_string] agree on the types
    gopq, node-pg, psycopg and rustpg, and on the types that are not
    supported.  For dotnet and odbc the PostgreSQL one writes the password
    as it is where the MariaDB one writes it encoded.  For jdbc the MariaDB
    one writes [ssl=true] right after the password, where the PostgreSQL
    one puts [&] between them. *)
Theorem formatter_variants (d : dict) (pw : string) :
  (forall t, t ∈ ["gopq"; "node-pg"; "psycopg"; "rustpg"] ->
     d !! "connection_string_type" = Some (JStr t) ->
     Mariadb.generate_connection_string d pw = Postgres.generate_connection_string d pw)
  ∧ ((forall t, t ∈ known_types -> d !! "connection_string_type" ≠ Some (JStr t)) ->
     Mariadb.generate_connection_string d pw = Postgres.generate_connection_string d pw)
  ∧ (forall t h u, t ∈ ["dotnet"; "odbc"] ->
       d !! "connection_string_type" = Some (JStr t) ->
       d !! "host" = Some h -> d !! "username" = Some u ->
       exists pre post,
         Postgres.generate_connection_string d pw = Ok (pre ++ pw ++ post)
         ∧ Mariadb.generate_connection_string d pw = Ok (pre ++ quote_plus pw ++ post))
  ∧ (forall h u, d !! "connection_string_type" = Some (JStr "jdbc") ->
       d !! "host" = Some h -> d !! "username" = Some u ->
       exists pre post,
         Mariadb.generate_connection_string d pw = Ok (pre ++ quote_plus pw ++ post)
         ∧ Postgres.generate_connection_string d pw
           = Ok (pre ++ quote_plus pw ++ "&" ++ post)).
Proof.
  split; [|split; [|split]].
  - intros t Ht Hty.
    repeat (apply elem_of_cons in Ht as [-> | Ht]); [..|by apply elem_of_nil in Ht];
      unfold Mariadb.generate_connection_string, Postgres.generate_connection_string;
      by rewrite !(type_is_str d _ _ Hty).
  - intros H.
    pose proof (generate_not_supported mariadb d pw H) as H1.
    pose proof (generate_not_supported postgres d pw H) as H2.
    cbn in H1, H2. by rewrite H1, H2.
  - intros t h u Ht Hty Hh Hu.
    destruct (generate_plain d t h u Ht Hty Hh Hu) as (pre & post & H).
    exists pre, post. apply H.
  - intros h u Hty Hh Hu.
    destruct (generate_jdbc_both d h u Hty Hh Hu) as (pre & post & H).
    exists pre, post. apply H.
Qed.

Lemma formatter_variants_witness :
  Mariadb.generate_connection_string
    (<["connection_string_type" := JStr "gopq"]> jdbc_record) "p w"
  = Postgres.generate_connection_string
      (<["connection_string_type" := JStr "gopq"]> jdbc_record) "p w".
Proof.
  apply (formatter_variants (<["connection_string_type" := JStr "gopq"]> jdbc_record) "p w")
    with (t := "gopq"); [by apply elem_true | reflexivity].
Defined.

(** X21.  [redact_secret_dict] sets [password] to [REDACTED] and leaves
    every other entry as it is; redacting twice is redacting once.  So a
    [connection_string] made by [generate_connection_string] stays in the
    redacted record, and it contains the password: as it is for dotnet and
    odbc, encoded for the URI forms. *)
Theorem redact_keeps_connection_string (d : dict) (pw s t : string) :
  Postgres.redact_secret_dict d !! "password" = Some (JStr "REDACTED")
  ∧ (forall k, k ≠ "password" -> Postgres.redact_secret_dict d !! k = d !! k)
  ∧ Postgres.redact_secret_dict (Postgres.redact_secret_dict d) = Postgres.redact_secret_dict d
  ∧ (t ∈ known_types ->
     d !! "connection_string_type" = Some (JStr t) ->
     Postgres.generate_connection_string d pw = Ok s ->
     d !! "connection_string" = Some (JStr s) ->
     Postgres.redact_secret_dict d !! "connection_string" = Some (JStr s)
     ∧ contains (if elem t ["dotnet"; "odbc"] then pw else quote_plus pw) s = true).
Proof.
  unfold Postgres.redact_secret_dict.
  split; [by rewrite lookup_insert_eq|].
  split; [intros k Hk; by rewrite lookup_insert_ne|].
  split; [by rewrite insert_insert_eq|].
  intros Ht Hty Hgen Hs.
  split; [by rewrite lookup_insert_ne|].
  assert (Hfields : exists h u, d !! "host" = Some h ∧ d !! "username" = Some u).
  { unfold Postgres.generate_connection_string, item in Hgen.
    unfold known_types in Ht.
    destruct (d !! "host") as [h|], (d !! "username") as [u|]; [by eexists _, _|..];
      repeat (apply elem_of_cons in Ht as [-> | Ht]); try (by apply elem_of_nil in Ht);
      rewrite !(type_is_str d _ _ Hty) in Hgen; cbn in Hgen; discriminate Hgen. }
  destruct Hfields as (h & u & Hh & Hu).
  destruct (elem t ["dotnet"; "odbc"]) eqn:Hplain.
  - apply elem_true in Hplain.
    destruct (generate_plain d t h u Hplain Hty Hh Hu) as (pre & post & H).
    destruct (H pw) as [Hpg _]. rewrite Hpg in Hgen. injection Hgen as <-.
    apply contains_middle.
  - apply elem_false in Hplain.
    assert (Huri : t ∈ uri_types).
    { unfold known_types, uri_types in *.
      repeat (apply elem_of_cons in Ht as [-> | Ht]); try (by apply elem_of_nil in Ht);
        first [ by apply elem_true | exfalso; apply Hplain; by apply elem_true ]. }
    destruct (generate_uri postgres d t h u Huri Hty Hh Hu) as (pre & post & H).
    cbn in H. rewrite H in Hgen. injection Hgen as <-.
    rewrite quote_plus_form. apply contains_middle.
Qed.

Lemma redact_keeps_connection_string_witness :
  let d := <["connection_string" :=
               JStr "Host=h;Port=5432;Database=d;Username=u;Password=s3cret;SSL Mode=None;Search Path=public;"]>
             (<["connection_string_type" := JStr "dotnet"]> jdbc_record) in
  contains "s3cret"
    (py_str (get_default (Postgres.redact_secret_dict d) "connection_string" JNull)) = true.
Proof.
  intros d.
  destruct (redact_keeps_connection_string d "s3cret"
              "Host=h;Port=5432;Database=d;Username=u;Password=s3cret;SSL Mode=None;Search Path=public;"
              "dotnet") as (_ & _ & _ & H).
  destruct H as [Hkept Hin]; [by apply elem_true | reflexivity | reflexivity | reflexivity |].
  unfold get_default. rewrite Hkept. exact Hin.
Defined.

(** ** After the rotation *)

Lemma detach_keys (s t : string) (vs : list (string * list string)) :
  map fst (detach s t vs) = map fst vs.
Proof. induction vs as [|[t' stages] vs IH]; [done|]. cbn. by rewrite IH. Qed.

Lemma detach_all_keys (s : string) (vs : list (string * list string)) :
  map fst (detach_all s vs) = map fst vs.
Proof. induction vs as [|[t' stages] vs IH]; [done|]. cbn. by rewrite IH. Qed.

Lemma attach_keys (s t : string) (vs : list (string * list string)) :
  t ∈ map fst vs -> map fst (attach s t vs) = map fst vs.
Proof.
  induction vs as [|[t' stages] vs IH]; cbn.
  - by intros ?%elem_of_nil.
  - destruct (String.eqb_spec t t') as [->|Hne]; [done|].
    intros [?|Hin]%elem_of_cons; [done|]. cbn. by rewrite IH.
Qed.

Lemma update_keys (s : string) (m r : kwarg) (v : vault) :
  map fst (VersionIdsToStages (st (update_secret_version_stage s m r v)))
  = map fst (VersionIdsToStages v).
Proof.
  unfold update_secret_version_stage.
  destruct m as [|[m|]], r as [|[r|]]; cbn [st]; try done.
  - destruct (elem r (holders s (VersionIdsToStages v))); cbn; [|done].
    apply detach_keys.
  - destruct (elem m (map fst (VersionIdsToStages v))) eqn:Hm; cbn; [|done].
    apply elem_true in Hm.
    destruct (forallb _ _); cbn; [|done].
    by apply attach_keys.
  - destruct (elem m (map fst (VersionIdsToStages v))) eqn:Hm; cbn; [|done].
    apply elem_true in Hm.
    destruct (elem r (holders s (VersionIdsToStages v))) eqn:Hr; cbn; [|done].
    apply elem_true, holders_keys in Hr.
    destruct (forallb _ _); cbn; [|done].
    assert (Hk : map fst (attach s m (detach s r (VersionIdsToStages v)))
                 = map fst (VersionIdsToStages v)).
    { rewrite attach_keys; rewrite detach_keys; done. }
    destruct (bool_decide (s = AWSCURRENT) && negb (bool_decide (m = r))); [|done].
    rewrite attach_keys; rewrite detach_all_keys, Hk; done.
Qed.

Lemma finish_secret_keys (arn token : string) (v : vault) :
  map fst (VersionIdsToStages (st (finish_secret arn token v)))
  = map fst (VersionIdsToStages v).
Proof.
  unfold finish_secret. rewrite bind_describe. cbn [snd].
  destruct (find_current token (VersionIdsToStages v)) as [cur|]; [|done].
  unfold bind.
  pose proof (update_keys AWSCURRENT (Passed (Some token)) (Passed cur) v) as H1.
  destruct (update_secret_version_stage AWSCURRENT _ _ v) as [[[]|e] v1 l1];
    cbn [st] in *; [|done].
  pose proof (update_keys AWSPENDING Omitted (Passed (Some token)) v1) as H2.
  destruct (update_secret_version_stage AWSPENDING _ _ v1) as [r2 v2 l2].
  cbn [st] in *. congruence.
Qed.

Lemma holders_assoc (s t : string) (vs : list (string * list string)) :
  NoDup (map fst vs) -> t ∈ holders s vs ->
  exists stages, assoc t vs = Some stages ∧ s ∈ stages.
Proof.
  induction vs as [|[t' stages] vs IH]; cbn; [by intros _ ?%elem_of_nil|].
  intros [Hnot Hnd]%NoDup_cons Hin.
  destruct (String.eqb_spec t t') as [->|Hne].
  - destruct (elem s stages) eqn:Hs.
    + exists stages. split; [done|]. by apply elem_true.
    + apply holders_keys in Hin. done.
  - destruct (elem s stages).
    + apply elem_of_cons in Hin as [?|Hin]; [done|]. by apply IH.
    + by apply IH.
Qed.

(** X22.  Once [finish_secret] has promoted a token, the rotation is over
    for it: when the staging map has one entry per version, one version
    holds [AWSCURRENT] and the token holds [AWSPENDING] (or is that
    version), [finish_secret] succeeds, and any later call of
    [lambda_handler] for the token, whatever the step, returns success with
    no call and no change. *)
Theorem finished_token_is_done (eng : engine) (E : env) (arn token c step : string)
    (v : vault) :
  is_Some (environ E !! "SECRETS_MANAGER_ENDPOINT") ->
  RotationEnabled v ≠ Some false ->
  NoDup (map fst (VersionIdsToStages v)) ->
  holders AWSCURRENT (VersionIdsToStages v) = [c] ->
  (c = token ∨ token ∈ holders AWSPENDING (VersionIdsToStages v)) ->
  let o := finish_secret arn token v in
  res o = Ok tt
  ∧ lambda_handler eng E (RotationEvent arn token step) (st o)
    = Outcome (Ok tt) (st o) [].
Proof.
  intros Hend Hen Hnd Hc Hp o.
  assert (Hfin : res o = Ok tt
                 ∧ holders AWSCURRENT (VersionIdsToStages (st o)) = [token]).
  { subst o. destruct (decide (c = token)) as [->|Hne].
    - rewrite finish_secret_done by (by rewrite Hc). done.
    - destruct Hp as [|Hp]; [done|].
      destruct (finish_secret_moves arn token c v Hc Hne Hp) as (vs & -> & Hvs & _).
      done. }
  destruct Hfin as [Hres Hcur]. split; [done|].
  destruct (finish_secret_effects arn token v) as (_ & Hrot & _). fold o in Hrot.
  pose proof (finish_secret_keys arn token v) as Hkeys. fold o in Hkeys.
  destruct (holders_assoc AWSCURRENT token (VersionIdsToStages (st o)))
    as (stages & Hassoc & Hin).
  { by rewrite Hkeys. }
  { rewrite Hcur. apply list_elem_of_singleton. done. }
  destruct (lambda_handler_cases eng E (RotationEvent arn token step) (st o) Hend)
    as [_ Hon].
  destruct Hon as [_ Hsome]; [by rewrite Hrot|].
  destruct (Hsome stages Hassoc) as [Hdone _].
  by apply Hdone.
Qed.

Lemma finished_token_is_done_witness :
  lambda_handler mariadb (env_of (fun _ => false) "n3w")
    (RotationEvent "arn" "v2" "setSecret") (st (finish_secret "arn" "v2" staged_vault))
  = Outcome (Ok tt) (st (finish_secret "arn" "v2" staged_vault)) [].
Proof.
  apply (finished_token_is_done mariadb (env_of (fun _ => false) "n3w") "arn" "v2" "v1"
           "setSecret" staged_vault).
  - by eexists.
  - discriminate.
  - cbn. repeat (apply NoDup_cons_2; [by apply elem_false|]). apply NoDup_nil_2.
  - reflexivity.
  - right. by apply elem_true.
Defined.
